(** * Control de Gastos: the money-and-date core, embedded and verified

    Shallow embedding of [ControlGastos/control_gastos.py] (the console
    program) and of the functions of [ControlGastos/control_gastos_app.py]
    (the desktop form) that differ from it.

    Conventions of the embedding.
    - A Python [str] is a [string] whose characters are the code points
      below 256; text with other characters is not covered.
    - A Python exception is a value of [exn]; a function that can raise
      returns a [result].
    - A [decimal.Decimal] is a sign, a natural coefficient and an exponent,
      or one of the special values; the arithmetic is that of the default
      context (28 digits, ROUND_HALF_EVEN, Emax = 999999, Emin = -999999,
      traps on InvalidOperation, DivisionByZero and Overflow).  The digit
      string [_int] of the library is the number [coeff]; its length is
      [ndigits].
    - A [datetime.date] is a record of year, month and day; the library
      accepts the years 1 to 9999.
    - The lists and dicts that the program mutates in place are passed and
      returned explicitly. *)

From Stdlib Require Import ZArith NArith List String Ascii Bool Lia.
From Stdlib Require Import Permutation Sorted.
Import ListNotations.

Open Scope string_scope.
Open Scope Z_scope.

(** String concatenation, written apart from the [++] of lists. *)
Notation "a ^^ b" := (String.append a b) (at level 60, right associativity).

(** ** Exceptions and results *)

Inductive exn : Type :=
| ValueError          (* raised by [d], [strptime] and [date.replace] *)
| InvalidOperation    (* decimal.InvalidOperation *)
| DivisionByZero      (* decimal.DivisionByZero *)
| Overflow            (* decimal.Overflow *)
| OverflowError.      (* date arithmetic out of range *)

Inductive result (A : Type) : Type :=
| Ok (a : A)
| Raise (e : exn).

Arguments Ok {A} a.
Arguments Raise {A} e.

Definition bind {A B : Type} (c : result A) (k : A -> result B) : result B :=
  match c with
  | Ok a => k a
  | Raise e => Raise e
  end.

Notation "x <- c ;; k" := (bind c (fun x => k))
  (at level 61, c at next level, right associativity).

(** A [for] loop whose body can raise: the first exception ends the loop. *)
Fixpoint for_each {A S : Type} (body : S -> A -> result S) (rows : list A) (s : S)
  : result S :=
  match rows with
  | [] => Ok s
  | r :: rest => s' <- body s r ;; for_each body rest s'
  end.

(** ** Python strings *)

Module PyStr.

(** [str.isspace] on the code points below 256: TAB, LF, VT, FF, CR, the
    four separators 0x1c-0x1f, the space, NEL and the no-break space. *)
Definition is_space (c : ascii) : bool :=
  let n := nat_of_ascii c in
  ((9 <=? n) && (n <=? 13))%nat || ((28 <=? n) && (n <=? 32))%nat ||
  (n =? 133)%nat || (n =? 160)%nat.

(** The decimal digits, [\d] below 256. *)
Definition is_digit (c : ascii) : bool :=
  let n := nat_of_ascii c in ((48 <=? n) && (n <=? 57))%nat.

Fixpoint lstrip (s : string) : string :=
  match s with
  | String c t => if is_space c then lstrip t else s
  | EmptyString => EmptyString
  end.

(** [rstrip] keeps a character when it is not a space or when something
    is left after it. *)
Fixpoint rstrip (s : string) : string :=
  match s with
  | String c t =>
      match rstrip t with
      | EmptyString => if is_space c then EmptyString else String c EmptyString
      | t' => String c t'
      end
  | EmptyString => EmptyString
  end.

Definition strip (s : string) : string := rstrip (lstrip s).

(** [s.replace(old, new)] for a one-character [old]. *)
Fixpoint replace (old : ascii) (new : string) (s : string) : string :=
  match s with
  | String c t =>
      if Ascii.eqb c old then new ^^ replace old new t
      else String c (replace old new t)
  | EmptyString => EmptyString
  end.

(** [str.lower] on a code point below 256: the letters A-Z and the
    capital letters of Latin-1 (0xc0-0xde, without the sign 0xd7). *)
Definition lower_char (c : ascii) : ascii :=
  let n := nat_of_ascii c in
  if ((65 <=? n) && (n <=? 90))%nat ||
     ((192 <=? n) && (n <=? 222) && negb (n =? 215))%nat
  then ascii_of_nat (n + 32) else c.

Fixpoint lower (s : string) : string :=
  match s with
  | String c t => String (lower_char c) (lower t)
  | EmptyString => EmptyString
  end.

(** [item in lst] for a list of strings. *)
Definition mem (item : string) (lst : list string) : bool :=
  existsb (String.eqb item) lst.

(** [lst.sort(key=...)]: the sort of Python is stable, so its result is
    the one of a stable insertion sort; [insert_by] puts an element after
    the elements whose key is not greater. *)
Section Sort.
Variable key : string -> string.

Fixpoint insert_by (x : string) (l : list string) : list string :=
  match l with
  | [] => [x]
  | y :: t =>
      if String.ltb (key x) (key y) then x :: y :: t
      else y :: insert_by x t
  end.

Definition sort_by (l : list string) : list string :=
  fold_left (fun acc x => insert_by x acc) l [].
End Sort.

(** Digit strings. *)
Definition digit_val (c : ascii) : N := N.of_nat (nat_of_ascii c - 48).

Definition digit_char (n : N) : ascii := ascii_of_nat (48 + N.to_nat n).

(** [int(s)] for a string of digits, read from the left; the empty string
    gives 0 here (the callers apply it to the digits that a regular
    expression has matched). *)
Fixpoint int_of_digits_from (acc : N) (s : string) : N :=
  match s with
  | String c t => int_of_digits_from (acc * 10 + digit_val c)%N t
  | EmptyString => acc
  end.

Definition int_of_digits (s : string) : N := int_of_digits_from 0%N s.

Fixpoint str_N_aux (fuel : nat) (n : N) (acc : string) : string :=
  match fuel with
  | O => acc
  | S f =>
      if (n <? 10)%N then String (digit_char n) acc
      else str_N_aux f (n / 10)%N (String (digit_char (n mod 10)%N) acc)
  end.

(** [str(n)] for a natural number. *)
Definition str_N (n : N) : string :=
  str_N_aux (S (N.to_nat (N.log2 n))) n "".

(** The longest prefix of digits, and the rest. *)
Fixpoint span_digits (s : string) : string * string :=
  match s with
  | String c t =>
      if is_digit c then let (ds, r) := span_digits t in (String c ds, r)
      else (EmptyString, s)
  | EmptyString => (EmptyString, EmptyString)
  end.

Fixpoint repeat_char (c : ascii) (n : nat) : string :=
  match n with
  | O => EmptyString
  | S k => String c (repeat_char c k)
  end.

(** [s[:n]] and [s[n:]]. *)
Fixpoint take (n : nat) (s : string) : string :=
  match n, s with
  | S k, String c t => String c (take k t)
  | _, _ => EmptyString
  end.

Fixpoint drop (n : nat) (s : string) : string :=
  match n, s with
  | S k, String _ t => drop k t
  | _, _ => s
  end.

End PyStr.

(** ** decimal.Decimal in the default context *)

Module Dec.

Inductive Decimal : Type :=
| Fin (sign : bool) (coeff : N) (exp : Z)        (* (-1)^sign * coeff * 10^exp *)
| Inf (sign : bool)
| NaN (sign : bool) (signaling : bool) (diag : N).

Inductive rounding : Type := ROUND_HALF_UP | ROUND_HALF_EVEN.

Definition prec : Z := 28.
Definition Emax : Z := 999999.
Definition Emin : Z := -999999.
Definition Etiny : Z := Emin - prec + 1.
Definition Etop : Z := Emax - prec + 1.
Definition context_rounding : rounding := ROUND_HALF_EVEN.

(** [len(self._int)] *)
Definition ndigits (c : N) : Z := Z.of_nat (String.length (PyStr.str_N c)).

Definition pow10 (k : Z) : N := (10 ^ Z.to_N k)%N.

(** [self.adjusted()] *)
Definition adjusted (c : N) (e : Z) : Z := e + ndigits c - 1.

(** The rounding functions [_round_half_up] and [_round_half_even]: does
    the kept part of [c] grow by one when its last [k] digits ([k >= 1])
    are dropped?  The library looks at the digit string; on the number,
    "the first dropped digit is 5 or more" is [10^k <= 2 * (c mod 10^k)]
    and "the dropped digits are exactly 50...0" is equality. *)
Definition round_up (r : rounding) (c : N) (k : Z) : bool :=
  let p := pow10 k in
  let q := (c / p)%N in
  let dropped := (c mod p)%N in
  match r with
  | ROUND_HALF_UP => (p <=? 2 * dropped)%N
  | ROUND_HALF_EVEN =>
      if ((p =? 2 * dropped) && N.even q)%N then false
      else (p <=? 2 * dropped)%N
  end.

(** [_rescale(exp, rounding)] on a finite number. *)
Definition rescale (s : bool) (c : N) (e : Z) (exp : Z) (r : rounding) : Decimal :=
  if (c =? 0)%N then Fin s 0 exp
  else if exp <=? e then Fin s (c * pow10 (e - exp)) exp
  else
    let k := exp - e in
    let q := (c / pow10 k)%N in
    Fin s (if round_up r c k then q + 1 else q)%N exp.

(** [_fix_nan]: a payload longer than the precision keeps its last digits. *)
Definition fix_nan (s sig : bool) (diag : N) : Decimal :=
  NaN s sig (if prec <? ndigits diag then (diag mod pow10 prec)%N else diag).

(** [_fix(context)]: round to the precision of the context. *)
Definition fix_ (x : Decimal) : result Decimal :=
  match x with
  | NaN s sig diag => Ok (fix_nan s sig diag)
  | Inf s => Ok x
  | Fin s c e =>
      if (c =? 0)%N then Ok (Fin s 0 (Z.min (Z.max e Etiny) Emax))
      else
        let exp_min0 := ndigits c + e - prec in
        if Etop <? exp_min0 then Raise Overflow
        else
          let exp_min := Z.max exp_min0 Etiny in
          if e <? exp_min then
            let k := exp_min - e in
            let q := (c / pow10 k)%N in
            let '(coeff, exp_min') :=
              if round_up context_rounding c k then
                if prec <? ndigits (q + 1) then (((q + 1) / 10)%N, exp_min + 1)
                else ((q + 1)%N, exp_min)
              else (q, exp_min) in
            if Etop <? exp_min' then Raise Overflow
            else Ok (Fin s coeff exp_min')
          else Ok x
  end.

(** [_check_nans]: the answer when an operand is a NaN. *)
Definition check_nans (x y : Decimal) : option (result Decimal) :=
  match x, y with
  | NaN _ true _, _ => Some (Raise InvalidOperation)
  | _, NaN _ true _ => Some (Raise InvalidOperation)
  | NaN s sig diag, _ => Some (Ok (fix_nan s sig diag))
  | _, NaN s sig diag => Some (Ok (fix_nan s sig diag))
  | _, _ => None
  end.

(** [self.quantize(exp, rounding)] *)
Definition quantize (x exp : Decimal) (r : rounding) : result Decimal :=
  match check_nans x exp with
  | Some ans => ans
  | None =>
      match x, exp with
      | Inf s, Inf _ => Ok (Inf s)
      | Fin s c e, Fin _ _ target =>
          if negb ((Etiny <=? target) && (target <=? Emax)) then Raise InvalidOperation
          else if (c =? 0)%N then fix_ (Fin s 0 target)
          else if Emax <? adjusted c e then Raise InvalidOperation
          else if prec <? adjusted c e - target + 1 then Raise InvalidOperation
          else
            match rescale s c e target r with
            | Fin s' c' e' =>
                if Emax <? adjusted c' e' then Raise InvalidOperation
                else if prec <? ndigits c' then Raise InvalidOperation
                else fix_ (Fin s' c' e')
            | other => Ok other
            end
      | _, _ => Raise InvalidOperation      (* exactly one infinity *)
      end
  end.

(** [Decimal(n)] for an int. *)
Definition of_int (n : Z) : Decimal := Fin (n <? 0) (Z.abs_N n) 0.

(** *** [Decimal(str)]

    The text is stripped and its underscores are removed, then it has to
    match, wholly and ignoring case,
    [[-+]? ( digits with an optional fraction and exponent | Inf(inity)? | s?NaN digits* )]. *)

Definition starts_number (s : string) : bool :=
  match s with
  | String c t =>
      PyStr.is_digit c ||
      (Ascii.eqb c "." && match t with String c' _ => PyStr.is_digit c' | _ => false end)
  | EmptyString => false
  end.

(** The optional sign at the start. *)
Definition split_sign (s : string) : bool * string :=
  match s with
  | String c t =>
      if Ascii.eqb c "-" then (true, t)
      else if Ascii.eqb c "+" then (false, t)
      else (false, s)
  | EmptyString => (false, s)
  end.

(** The constructor converts exactly or not at all: the exponent has to
    be at least [MIN_ETINY] and the adjusted exponent at most [MAX_EMAX]
    (the limits of the C implementation on a 64-bit platform). *)
Definition MAX_EMAX : Z := 999999999999999999.
Definition MIN_ETINY : Z := -1999999999999999997.

Definition exact (coeff : N) (e : Z) : bool :=
  (MIN_ETINY <=? e) && (adjusted coeff e <=? MAX_EMAX).

(** The exponent part: nothing, or [E], an optional sign and one digit at
    least, up to the end. *)
Definition parse_exponent (s : string) : option Z :=
  match s with
  | EmptyString => Some 0
  | String c t =>
      if Ascii.eqb (PyStr.lower_char c) "e" then
        let (neg, ds) := split_sign t in
        match PyStr.span_digits ds with
        | (String _ _ as digits, EmptyString) =>
            let v := Z.of_N (PyStr.int_of_digits digits) in
            Some (if neg then - v else v)
        | _ => None
        end
      else None
  end.

Definition parse_finite (sign : bool) (body : string) : option Decimal :=
  let (intpart, r1) := PyStr.span_digits body in
  let (fracpart, r2) :=
    match r1 with
    | String c t => if Ascii.eqb c "." then PyStr.span_digits t else (EmptyString, r1)
    | EmptyString => (EmptyString, r1)
    end in
  match parse_exponent r2 with
  | Some exp =>
      let coeff := PyStr.int_of_digits (intpart ^^ fracpart) in
      let e := exp - Z.of_nat (String.length fracpart) in
      if exact coeff e then Some (Fin sign coeff e) else None
  | None => None
  end.

Definition parse_nan (sign : bool) (body : string) : option Decimal :=
  let '(signal, r) :=
    match body with
    | String "s" t => (true, t)
    | _ => (false, body)
    end in
  match r with
  | String "n" (String "a" (String "n" t)) =>
      match PyStr.span_digits t with
      | (diag, EmptyString) => Some (NaN sign signal (PyStr.int_of_digits diag))
      | _ => None
      end
  | _ => None
  end.

Definition parse (s : string) : option Decimal :=
  let (sign, body) := split_sign s in
  if starts_number body then parse_finite sign body
  else
    let low := PyStr.lower body in
    if String.eqb low "inf" || String.eqb low "infinity" then Some (Inf sign)
    else parse_nan sign low.

(** [Decimal(value)] for a string; [None] is the InvalidOperation that the
    constructor raises on a text it cannot convert. *)
Definition of_string (value : string) : option Decimal :=
  parse (PyStr.replace "_" "" (PyStr.strip value)).

(** *** Arithmetic *)

Definition copy_negate (x : Decimal) : Decimal :=
  match x with
  | Fin s c e => Fin (negb s) c e
  | Inf s => Inf (negb s)
  | NaN s sig diag => NaN (negb s) sig diag
  end.

(** [_normalize(op1, op2, prec)]: bring two non-zero operands to one
    exponent; an operand too small to matter is replaced by a small one.
    The pairs are (coefficient, exponent). *)
Definition normalize (op1 op2 : N * Z) : (N * Z) * (N * Z) :=
  let swap := snd op1 <? snd op2 in
  let tmp := if swap then op2 else op1 in
  let other := if swap then op1 else op2 in
  let exp := snd tmp + Z.min (-1) (ndigits (fst tmp) - prec - 2) in
  let other' := if ndigits (fst other) + snd other - 1 <? exp then (1%N, exp) else other in
  let tmp' := ((fst tmp * pow10 (snd tmp - snd other'))%N, snd other') in
  if swap then (other', tmp') else (tmp', other').

(** [self + other] *)
Definition add (x y : Decimal) : result Decimal :=
  match check_nans x y with
  | Some ans => ans
  | None =>
      match x, y with
      | Inf s1, Inf s2 => if Bool.eqb s1 s2 then Ok x else Raise InvalidOperation
      | Inf _, _ => Ok x
      | _, Inf _ => Ok y
      | Fin s1 c1 e1, Fin s2 c2 e2 =>
          let exp := Z.min e1 e2 in
          if ((c1 =? 0) && (c2 =? 0))%N then fix_ (Fin (s1 && s2) 0 exp)
          else if (c1 =? 0)%N then
            fix_ (rescale s2 c2 e2 (Z.max exp (e2 - prec - 1)) context_rounding)
          else if (c2 =? 0)%N then
            fix_ (rescale s1 c1 e1 (Z.max exp (e1 - prec - 1)) context_rounding)
          else
            let '((i1, x1), (i2, _)) := normalize (c1, e1) (c2, e2) in
            if Bool.eqb s1 s2 then fix_ (Fin s1 (i1 + i2) x1)
            else if (i1 =? i2)%N then fix_ (Fin false 0 exp)
            else if (i1 <? i2)%N then fix_ (Fin s2 (i2 - i1) x1)
            else fix_ (Fin s1 (i1 - i2) x1)
      | _, _ => Raise InvalidOperation     (* not reached: NaNs are handled above *)
      end
  end.

(** [self - other] *)
Definition sub (x y : Decimal) : result Decimal :=
  match check_nans x y with
  | Some ans => ans
  | None => add x (copy_negate y)
  end.

(** The exact quotient is brought to the ideal exponent as far as its
    trailing zeros allow. *)
Fixpoint strip_to_ideal (fuel : nat) (coeff : N) (exp ideal : Z) : N * Z :=
  match fuel with
  | O => (coeff, exp)
  | S f =>
      if (exp <? ideal) && (coeff mod 10 =? 0)%N
      then strip_to_ideal f (coeff / 10)%N (exp + 1) ideal
      else (coeff, exp)
  end.

(** [self / other] *)
Definition truediv (x y : Decimal) : result Decimal :=
  match check_nans x y with
  | Some ans => ans
  | None =>
      match x, y with
      | Inf _, Inf _ => Raise InvalidOperation
      | Inf s1, Fin s2 _ _ => Ok (Inf (xorb s1 s2))
      | Fin s1 _ _, Inf s2 => Ok (Fin (xorb s1 s2) 0 Etiny)
      | Fin s1 c1 e1, Fin s2 c2 e2 =>
          let sign := xorb s1 s2 in
          if (c2 =? 0)%N then
            if (c1 =? 0)%N then Raise InvalidOperation else Raise DivisionByZero
          else if (c1 =? 0)%N then fix_ (Fin sign 0 (e1 - e2))
          else
            let shift := ndigits c2 - ndigits c1 + prec + 1 in
            let exp := e1 - e2 - shift in
            let num := if 0 <=? shift then (c1 * pow10 shift)%N else c1 in
            let den := if 0 <=? shift then c2 else (c2 * pow10 (- shift))%N in
            let coeff := (num / den)%N in
            let remainder := (num mod den)%N in
            if negb (remainder =? 0)%N then
              fix_ (Fin sign (if (coeff mod 5 =? 0)%N then coeff + 1 else coeff)%N exp)
            else
              let (coeff', exp') :=
                strip_to_ideal (Z.to_nat (e1 - e2 - exp)) coeff exp (e1 - e2) in
              fix_ (Fin sign coeff' exp')
      | _, _ => Raise InvalidOperation     (* not reached: NaNs are handled above *)
      end
  end.

(** *** Text *)

(** ["%+d" % n] *)
Definition str_signed (n : Z) : string :=
  ((if n <? 0 then "-" else "+") ^^ PyStr.str_N (Z.abs_N n)).

(** [str(x)]: the scientific string of the library, capitals on. *)
Definition to_str (x : Decimal) : string :=
  match x with
  | Inf s => if s then "-Infinity" else "Infinity"
  | NaN s sig diag =>
      ((if s then "-" else "") ^^ (if sig then "sNaN" else "NaN") ^^
       (if (diag =? 0)%N then "" else PyStr.str_N diag))
  | Fin s c e =>
      let digits := PyStr.str_N c in
      let len := Z.of_nat (String.length digits) in
      let leftdigits := e + len in
      let dotplace := if (e <=? 0) && (-6 <? leftdigits) then leftdigits else 1 in
      let intpart :=
        if dotplace <=? 0 then "0"
        else if len <=? dotplace
             then (digits ^^ PyStr.repeat_char "0" (Z.to_nat (dotplace - len)))
             else PyStr.take (Z.to_nat dotplace) digits in
      let fracpart :=
        if dotplace <=? 0
        then ("." ^^ PyStr.repeat_char "0" (Z.to_nat (- dotplace)) ^^ digits)
        else if len <=? dotplace then ""
             else ("." ^^ PyStr.drop (Z.to_nat dotplace) digits) in
      let exp :=
        if leftdigits =? dotplace then ""
        else ("E" ^^ str_signed (leftdigits - dotplace)) in
      ((if s then "-" else "") ^^ intpart ^^ fracpart ^^ exp)
  end.

(** [_insert_thousands_sep] with groups of three and a comma. *)
Fixpoint group3 (fuel : nat) (digits : string) : string :=
  match fuel with
  | O => digits
  | S f =>
      let len := String.length digits in
      if (len <=? 3)%nat then digits
      else (group3 f (PyStr.take (len - 3) digits) ^^ "," ^^
            PyStr.drop (len - 3) digits)
  end.

(** [format(x, ",.2f")]: the value is rescaled to two places with the
    rounding of the context, then written with its sign, the grouped
    integer part, a point and the two places. *)
Definition format_comma_2f (x : Decimal) : string :=
  match x with
  | Inf s => ((if s then "-" else "") ^^ "Infinity")
  | NaN s sig diag => ((if s then "-" else "") ^^ to_str (NaN false sig diag))
  | Fin s c e =>
      match rescale s c e (-2) context_rounding with
      | Fin s' c' _ =>
          let digits := PyStr.str_N c' in
          let len := Z.of_nat (String.length digits) in
          let dotplace := len - 2 in
          let intpart :=
            if dotplace <? 0 then "0"
            else match PyStr.take (Z.to_nat dotplace) digits with
                 | EmptyString => "0"
                 | i => i
                 end in
          let fracpart :=
            if dotplace <? 0
            then (PyStr.repeat_char "0" (Z.to_nat (- dotplace)) ^^ digits)
            else PyStr.drop (Z.to_nat dotplace) digits in
          ((if s' then "-" else "") ^^ group3 (String.length intpart) intpart ^^
           "." ^^ fracpart)
      | other => to_str other
      end
  end.

End Dec.

(** ** datetime.date *)

Module Cal.

Record date : Type := mkdate { year : Z; month : Z; day : Z }.

Definition MINYEAR : Z := 1.
Definition MAXYEAR : Z := 9999.

Definition is_leap (y : Z) : bool :=
  (y mod 4 =? 0) && (negb (y mod 100 =? 0) || (y mod 400 =? 0)).

(** The tables [_DAYS_IN_MONTH] and [_DAYS_BEFORE_MONTH] of the library. *)
Definition DAYS_IN_MONTH (m : Z) : Z :=
  match m with
  | 1 => 31 | 2 => 28 | 3 => 31 | 4 => 30 | 5 => 31 | 6 => 30
  | 7 => 31 | 8 => 31 | 9 => 30 | 10 => 31 | 11 => 30 | 12 => 31
  | _ => -1
  end.

Definition DAYS_BEFORE_MONTH (m : Z) : Z :=
  match m with
  | 1 => 0 | 2 => 31 | 3 => 59 | 4 => 90 | 5 => 120 | 6 => 151
  | 7 => 181 | 8 => 212 | 9 => 243 | 10 => 273 | 11 => 304 | 12 => 334
  | _ => -1
  end.

Definition days_in_month (y m : Z) : Z :=
  if (m =? 2) && is_leap y then 29 else DAYS_IN_MONTH m.

Definition days_before_month (y m : Z) : Z :=
  DAYS_BEFORE_MONTH m + (if (2 <? m) && is_leap y then 1 else 0).

Definition days_before_year (y : Z) : Z :=
  let y' := y - 1 in y' * 365 + y' / 4 - y' / 100 + y' / 400.

Definition ymd2ord (y m d : Z) : Z :=
  days_before_year y + days_before_month y m + d.

Definition DI400Y : Z := 146097.
Definition DI100Y : Z := 36524.
Definition DI4Y : Z := 1461.
Definition MAXORDINAL : Z := 3652059.

(** [_ord2ymd]: the date of an ordinal, through the cycles of 400, 100,
    4 and 1 years. *)
Definition ord2ymd (n : Z) : date :=
  let n := n - 1 in
  let n400 := n / DI400Y in
  let n := n mod DI400Y in
  let y := n400 * 400 + 1 in
  let n100 := n / DI100Y in
  let n := n mod DI100Y in
  let n4 := n / DI4Y in
  let n := n mod DI4Y in
  let n1 := n / 365 in
  let n := n mod 365 in
  let y := y + n100 * 100 + n4 * 4 + n1 in
  if (n1 =? 4) || (n100 =? 4) then mkdate (y - 1) 12 31
  else
    let leapyear := (n1 =? 3) && (negb (n4 =? 24) || (n100 =? 3)) in
    let m := Z.shiftr (n + 50) 5 in
    let preceding := DAYS_BEFORE_MONTH m + (if (2 <? m) && leapyear then 1 else 0) in
    if n <? preceding then
      let m' := m - 1 in
      let preceding' :=
        preceding - (DAYS_IN_MONTH m' + (if (m' =? 2) && leapyear then 1 else 0)) in
      mkdate y m' (n - preceding' + 1)
    else mkdate y m (n - preceding + 1).

(** [_check_date_fields]: what the constructor accepts. *)
Definition valid (dt : date) : bool :=
  (MINYEAR <=? year dt) && (year dt <=? MAXYEAR) &&
  (1 <=? month dt) && (month dt <=? 12) &&
  (1 <=? day dt) && (day dt <=? days_in_month (year dt) (month dt)).

(** [date(y, m, d)] *)
Definition make (y m d : Z) : result date :=
  if valid (mkdate y m d) then Ok (mkdate y m d) else Raise ValueError.

(** [dt.replace(year=..., month=..., day=...)]; an absent argument keeps
    the field. *)
Definition replace (dt : date) (y m d : option Z) : result date :=
  make (match y with Some v => v | None => year dt end)
       (match m with Some v => v | None => month dt end)
       (match d with Some v => v | None => day dt end).

Definition toordinal (dt : date) : Z := ymd2ord (year dt) (month dt) (day dt).

(** [dt - timedelta(days=n)] *)
Definition sub_days (dt : date) (n : Z) : result date :=
  let o := toordinal dt - n in
  if (0 <? o) && (o <=? MAXORDINAL) then Ok (ord2ymd o) else Raise OverflowError.

(** [(a - b).days] *)
Definition diff_days (a b : date) : Z := toordinal a - toordinal b.

(** [a <= b]: dates compare as the tuples (year, month, day). *)
Definition leb (a b : date) : bool :=
  (year a <? year b) ||
  ((year a =? year b) &&
   ((month a <? month b) || ((month a =? month b) && (day a <=? day b)))).

(** Zero-padded decimal text, ["%0<w>d" % n] for [n >= 0]. *)
Definition zfill (w : nat) (n : Z) : string :=
  let s := PyStr.str_N (Z.to_N n) in
  PyStr.repeat_char "0" (w - String.length s) ^^ s.

(** [dt.strftime("%Y-%m")]: the C library writes the year as it is, without
    padding (["999-01"] in the year 999), and the month with two digits. *)
Definition strftime_Ym (dt : date) : string :=
  PyStr.str_N (Z.to_N (year dt)) ^^ "-" ^^ zfill 2 (month dt).

(** [dt.isoformat()] *)
Definition isoformat (dt : date) : string :=
  zfill 4 (year dt) ^^ "-" ^^ zfill 2 (month dt) ^^ "-" ^^ zfill 2 (day dt).

(** *** [datetime.strptime(s, "%Y-%m-%d").date()]

    The format compiles to the regular expression
    [(\d\d\d\d)-(1[0-2]|0[1-9]|[1-9])-(3[0-1]|[1-2]\d|0[1-9]|[1-9]| [1-9])],
    which has to match the whole text; the fields then have to form a
    date.  Every failure is a ValueError. *)

Definition dig (c : ascii) : Z := Z.of_N (PyStr.digit_val c).

Definition in_range (c lo hi : ascii) : bool :=
  ((nat_of_ascii lo <=? nat_of_ascii c) && (nat_of_ascii c <=? nat_of_ascii hi))%nat.

Definition match_year (s : string) : option (Z * string) :=
  match s with
  | String a (String b (String c (String e r))) =>
      if PyStr.is_digit a && PyStr.is_digit b && PyStr.is_digit c && PyStr.is_digit e
      then Some (1000 * dig a + 100 * dig b + 10 * dig c + dig e, r)
      else None
  | _ => None
  end.

(** The month and the hyphen after it: the alternatives in their order. *)
Definition match_month_hyphen (s : string) : option (Z * string) :=
  let two :=
    match s with
    | String a (String b (String "-" r)) =>
        if (Ascii.eqb a "1" && in_range b "0" "2") ||
           (Ascii.eqb a "0" && in_range b "1" "9")
        then Some (10 * dig a + dig b, r) else None
    | _ => None
    end in
  match two with
  | Some res => Some res
  | None =>
      match s with
      | String a (String "-" r) =>
          if in_range a "1" "9" then Some (dig a, r) else None
      | _ => None
      end
  end.

(** The day, up to the end of the text. *)
Definition match_day (s : string) : option Z :=
  match s with
  | String a (String b EmptyString) =>
      if (Ascii.eqb a "3" && in_range b "0" "1") ||
         (in_range a "1" "2" && PyStr.is_digit b) ||
         (Ascii.eqb a "0" && in_range b "1" "9")
      then Some (10 * dig a + dig b)
      else if Ascii.eqb a " " && in_range b "1" "9" then Some (dig b)
      else None
  | String a EmptyString => if in_range a "1" "9" then Some (dig a) else None
  | _ => None
  end.

Definition strptime_Ymd (s : string) : result date :=
  match match_year s with
  | Some (y, String "-" r1) =>
      match match_month_hyphen r1 with
      | Some (m, r2) =>
          match match_day r2 with
          | Some d => make y m d
          | None => Raise ValueError
          end
      | None => Raise ValueError
      end
  | _ => Raise ValueError
  end.

End Cal.

(** ** control_gastos.py *)

Import Dec.

(** [Decimal("0.01")] and [Decimal("0.00")] *)
Definition cent : Decimal := Fin false 1 (-2).
Definition zero_00 : Decimal := Fin false 0 (-2).
Definition zero : Decimal := Fin false 0 0.

(** *** Helpers for money and dates *)

(** [d(value)] on the text [str(value)]: the InvalidOperation of the
    constructor becomes a ValueError; the [quantize] is outside the [try]. *)
Definition d (value : string) : result Decimal :=
  match of_string value with
  | None => Raise ValueError
  | Some dec => quantize dec cent ROUND_HALF_UP
  end.

(** [d(x)] for a Decimal [x], which goes through [str(x)]. *)
Definition d_Decimal (x : Decimal) : result Decimal := d (to_str x).

Definition parse_date (s : string) : result Cal.date :=
  Cal.strptime_Ymd (PyStr.strip s).

Definition month_start (dt : Cal.date) : result Cal.date :=
  Cal.replace dt None None (Some 1).

Definition month_end (dt : Cal.date) : result Cal.date :=
  first_next <-
    (if Cal.month dt =? 12
     then Cal.replace dt (Some (Cal.year dt + 1)) (Some 1) (Some 1)
     else Cal.replace dt None (Some (Cal.month dt + 1)) (Some 1)) ;;
  Cal.sub_days first_next 1.

Definition days_remaining_in_month (today : Cal.date) : result Z :=
  end_ <- month_end today ;;
  Ok (Cal.diff_days end_ today + 1).

Definition fmt_money (x : Decimal) : string := "$" ^^ format_comma_2f x.

(** *** Data model: the rows are the dicts that [asdict] builds. *)

Record Expense : Type := mkExpense {
  e_amount : string; e_category : string; e_dt : string; e_note : string }.

Record Income : Type := mkIncome {
  i_person : string; i_amount : string; i_month : string }.

Record ExtraIncome : Type := mkExtraIncome {
  x_person : string; x_amount : string; x_dt : string; x_note : string }.

Record State : Type := mkState {
  categories : list string;
  people : list string;
  monthly_incomes : list Income;
  extra_incomes : list ExtraIncome;
  expenses : list Expense }.

Definition default_state : State := mkState [] [] [] [] [].

(** *** Operations *)

(** [ensure_unique_add(lst, item)]: the answer and the list afterwards. *)
Definition ensure_unique_add (lst : list string) (item : string) : bool * list string :=
  let item := PyStr.strip item in
  if String.eqb item "" then (false, lst)
  else if PyStr.mem item lst then (false, lst)
  else (true, PyStr.sort_by PyStr.lower (lst ++ [item])).

(** The loop of [set_monthly_income]: the first row of the person and the
    month gets the amount and the function returns; [None] when the loop
    ends without a match. *)
Fixpoint overwrite_first (incomes : list Income) (person amount month_key : string)
  : option (list Income) :=
  match incomes with
  | [] => None
  | row :: rest =>
      if String.eqb (i_person row) person && String.eqb (i_month row) month_key
      then Some (mkIncome (i_person row) amount (i_month row) :: rest)
      else option_map (cons row) (overwrite_first rest person amount month_key)
  end.

Definition set_incomes (st : State) (l : list Income) : State :=
  mkState (categories st) (people st) l (extra_incomes st) (expenses st).

Definition set_monthly_income (st : State) (person : string) (amount : Decimal)
    (month_key : string) : State :=
  let incomes := monthly_incomes st in
  match overwrite_first incomes person (to_str amount) month_key with
  | Some incomes' => set_incomes st incomes'
  | None => set_incomes st (incomes ++ [mkIncome person (to_str amount) month_key])
  end.

Definition add_extra_income (st : State) (person : string) (amount : Decimal)
    (dt : Cal.date) (note : string) : State :=
  mkState (categories st) (people st) (monthly_incomes st)
    (extra_incomes st ++
       [mkExtraIncome person (to_str amount) (Cal.isoformat dt) (PyStr.strip note)])
    (expenses st).

Definition add_expense (st : State) (amount : Decimal) (category : string)
    (dt : Cal.date) (note : string) : State :=
  mkState (categories st) (people st) (monthly_incomes st) (extra_incomes st)
    (expenses st ++
       [mkExpense (to_str amount) category (Cal.isoformat dt) (PyStr.strip note)]).

(** The three loops of [totals_for_month], one accumulator each; the two
    programs differ in the function [d] that they call. *)
Section Sums.
Variable to_decimal : string -> result Decimal.

Definition sum_base (month_key : string) (rows : list Income) : result Decimal :=
  for_each (fun acc row =>
              if String.eqb (i_month row) month_key
              then a <- to_decimal (i_amount row) ;; add acc a
              else Ok acc) rows zero.

Definition sum_window {A : Type} (dt_of amount_of : A -> string)
    (start end_ : Cal.date) (rows : list A) : result Decimal :=
  for_each (fun acc row =>
              dt <- parse_date (dt_of row) ;;
              if Cal.leb start dt && Cal.leb dt end_
              then a <- to_decimal (amount_of row) ;; add acc a
              else Ok acc) rows zero.
End Sums.

Definition totals_for_month (st : State) (today : Cal.date)
  : result (Decimal * Decimal * Decimal) :=
  let month_key := Cal.strftime_Ym today in
  start <- month_start today ;;
  end_ <- month_end today ;;
  base_income <- sum_base d month_key (monthly_incomes st) ;;
  extra_income <- sum_window d x_dt x_amount start end_ (extra_incomes st) ;;
  expenses_ <- sum_window d e_dt e_amount start end_ (expenses st) ;;
  b <- quantize base_income cent context_rounding ;;
  x <- quantize extra_income cent context_rounding ;;
  e <- quantize expenses_ cent context_rounding ;;
  Ok (b, x, e).

(** The expression that gives [per_day] from [remaining] and [days_left]
    (the same in [remaining_and_per_day] and in [App.refresh_summary]). *)
Definition per_day_of (remaining : Decimal) (days_left : Z) : result Decimal :=
  if 0 <? days_left
  then q <- truediv remaining (of_int days_left) ;; quantize q cent context_rounding
  else Ok zero_00.

Definition remaining_and_per_day (st : State) (today : Cal.date)
  : result (Decimal * Decimal * Z) :=
  t <- totals_for_month st today ;;
  let '(base_income, extra_income, expenses_) := t in
  total_income <- add base_income extra_income ;;
  diff <- sub total_income expenses_ ;;
  remaining <- quantize diff cent context_rounding ;;
  days_left <- days_remaining_in_month today ;;
  per_day <- per_day_of remaining days_left ;;
  Ok (remaining, per_day, days_left).

(** The reading of an amount in [input_decimal], without the prompt loop. *)
Definition input_decimal_read (s : string) : result Decimal :=
  d (PyStr.replace "," "." (PyStr.strip s)).

(** ** control_gastos_app.py: what differs from the console program *)

Module App.

(** [d(x)]: a comma is replaced by a point before the conversion. *)
Definition d (x : string) : result Decimal :=
  match of_string (PyStr.replace "," "." x) with
  | None => Raise ValueError
  | Some dec => quantize dec cent ROUND_HALF_UP
  end.

(** [ensure_unique_add]: one test for both rejections. *)
Definition ensure_unique_add (lst : list string) (item : string) : bool * list string :=
  let item := PyStr.strip item in
  if String.eqb item "" || PyStr.mem item lst then (false, lst)
  else (true, PyStr.sort_by PyStr.lower (lst ++ [item])).

(** [totals_for_month]: the sums as they are, not quantized. *)
Definition totals_for_month (st : State) (today : Cal.date)
  : result (Decimal * Decimal * Decimal) :=
  let month_key := Cal.strftime_Ym today in
  start <- month_start today ;;
  end_ <- month_end today ;;
  base <- sum_base d month_key (monthly_incomes st) ;;
  extra <- sum_window d x_dt x_amount start end_ (extra_incomes st) ;;
  exp <- sum_window d e_dt e_amount start end_ (expenses st) ;;
  Ok (base, extra, exp).

Definition money (x : Decimal) : string := "$" ^^ format_comma_2f x.

(** The figures of [App.refresh_summary]: remaining, per day, days left. *)
Definition refresh_summary (st : State) (today : Cal.date)
  : result (Decimal * Decimal * Z) :=
  t <- totals_for_month st today ;;
  let '(base, extra, exp) := t in
  total_inc <- add base extra ;;
  diff <- sub total_inc exp ;;
  remaining <- quantize diff cent context_rounding ;;
  days_left <- days_remaining_in_month today ;;
  per_day <- per_day_of remaining days_left ;;
  Ok (remaining, per_day, days_left).

End App.

(** ** Definitions used by the statements *)

(** The ledger of the end-to-end example, and its day. *)
Definition example_state : State :=
  mkState [] []
    [mkIncome "Ana" "50000.00" "2026-01"]
    [mkExtraIncome "Ana" "2000.00" "2026-01-10" ""]
    [mkExpense "15000.00" "Comida" "2026-01-05" "";
     mkExpense "5000.00" "Comida" "2025-12-20" ""].

Definition example_today : Cal.date := Cal.mkdate 2026 1 15.

(** A ledger whose remaining balance is one cent, two days before the end
    of a month. *)
Definition one_cent_state : State :=
  mkState [] ["Ana"] [mkIncome "Ana" "0.01" "2026-01"] [] [].

Definition jan_30 : Cal.date := Cal.mkdate 2026 1 30.

(** A ledger in which the text NaN was entered as an amount. *)
Definition nan_state : State :=
  mkState [] ["Ana"] [mkIncome "Ana" "NaN" "2026-01"] [] [].

(** The last day that [datetime.date] has. *)
Definition date_max : Cal.date := Cal.mkdate 9999 12 31.

(** The rows of a person and a month. *)
Definition same_key (person month_key : string) (row : Income) : bool :=
  String.eqb (i_person row) person && String.eqb (i_month row) month_key.

Definition rows_of (person month_key : string) (incomes : list Income) : list Income :=
  filter (same_key person month_key) incomes.

(** The invariant of the monthly incomes: at most one row for each person
    and month. *)
Definition one_per_key (incomes : list Income) : Prop :=
  forall person month_key, (List.length (rows_of person month_key incomes) <= 1)%nat.

(** The list of monthly incomes after [set_monthly_income]. *)
Definition upsert (l : list Income) (p a m : string) : list Income :=
  match overwrite_first l p a m with
  | Some l' => l'
  | None => l ++ [mkIncome p a m]
  end.

(** A row with another amount. *)
Definition with_amount (amount : string) (row : Income) : Income :=
  mkIncome (i_person row) amount (i_month row).

(** The order of the categories and of the people: by lower-cased name. *)
Definition key_le (key : string -> string) (a b : string) : Prop :=
  String.leb (key a) (key b) = true.

Definition lower_le : string -> string -> Prop := key_le PyStr.lower.

(** A text with no space at its start or at its end. *)
Fixpoint ends_with_space (s : string) : bool :=
  match s with
  | String c EmptyString => PyStr.is_space c
  | String _ t => ends_with_space t
  | EmptyString => false
  end.

Definition starts_with_space (s : string) : bool :=
  match s with
  | String c _ => PyStr.is_space c
  | EmptyString => false
  end.

Definition trimmed (s : string) : bool :=
  negb (starts_with_space s) && negb (ends_with_space s).

(** The coefficient that [_rescale] to exponent -2 gives. *)
Definition coeff_two_places (r : rounding) (c : N) (e : Z) : N :=
  if -2 <=? e then (c * pow10 (e + 2))%N
  else
    let q := (c / pow10 (-2 - e))%N in
    if round_up r c (-2 - e) then (q + 1)%N else q.

(** The characters of a written amount: digits, the sign and the point. *)
Definition amount_char (c : ascii) : bool :=
  PyStr.is_digit c || Ascii.eqb c "-" || Ascii.eqb c ".".

(** Every character of a text satisfies [p]. *)
Fixpoint all_chars (p : ascii -> bool) (s : string) : bool :=
  match s with
  | String c t => p c && all_chars p t
  | EmptyString => true
  end.

(** One cycle of 400 years, and the months. *)
Definition cycle_years : list Z := map Z.of_nat (seq 1 400).
Definition all_months : list Z := map Z.of_nat (seq 1 12).

Definition date_eqb (a b : Cal.date) : bool :=
  (Cal.year a =? Cal.year b) && (Cal.month a =? Cal.month b) && (Cal.day a =? Cal.day b).

(** The ordinal of the first day of the month after month [m] of year [y]. *)
Definition first_next_ord (y m : Z) : Z :=
  if m =? 12 then Cal.ymd2ord (y + 1) 1 1 else Cal.ymd2ord y (m + 1) 1.

(** The day before it is the day that the calendar table has for the month. *)
Definition last_day_agrees (y m : Z) : bool :=
  date_eqb (Cal.ord2ymd (first_next_ord y m - 1))
           (Cal.mkdate y m (Cal.days_in_month y m)).

Definition cycle_check : bool :=
  forallb (fun y => forallb (last_day_agrees y) all_months) cycle_years.

(** A date some years later. *)
Definition shift_years (k : Z) (dt : Cal.date) : Cal.date :=
  Cal.mkdate (Cal.year dt + k) (Cal.month dt) (Cal.day dt).

(** The last day of a month by the rule of the Gregorian calendar. *)
Definition gregorian_last_day (y m : Z) : Z :=
  if (m =? 2) then
    if (y mod 400 =? 0) then 29
    else if (y mod 100 =? 0) then 28
    else if (y mod 4 =? 0) then 29 else 28
  else if (m =? 4) || (m =? 6) || (m =? 9) || (m =? 11) then 30
  else 31.

(** ** Definitions used by the further properties *)

(** The text of a year is four digits that read as the year. *)
Definition year_text_check (y : Z) : bool :=
  match Cal.zfill 4 y with
  | String a (String b (String c (String e EmptyString))) =>
      PyStr.is_digit a && PyStr.is_digit b && PyStr.is_digit c && PyStr.is_digit e &&
      (1000 * Cal.dig a + 100 * Cal.dig b + 10 * Cal.dig c + Cal.dig e =? y)
  | _ => false
  end.

Definition all_years : list Z := map Z.of_nat (seq 1 (Z.to_nat 9999)).
Definition all_days : list Z := map Z.of_nat (seq 1 31).

(** The text of a month, a hyphen and the text of a day read as the month
    and the day. *)
Definition month_day_text_check (m d : Z) : bool :=
  match Cal.match_month_hyphen (Cal.zfill 2 m ^^ "-" ^^ Cal.zfill 2 d) with
  | Some (m', r) =>
      (m' =? m) &&
      match Cal.match_day r with
      | Some d' => d' =? d
      | None => false
      end
  | None => false
  end.

(** A value that [d] can return: a number with two places and at most 28
    digits, or a quiet NaN with a payload of at most 28 digits. *)
Definition two_place_amount (x : Decimal) : Prop :=
  match x with
  | Fin _ c e => e = -2 /\ ndigits c <= 28
  | NaN _ signaling diag => signaling = false /\ ndigits diag <= 28
  | Inf _ => False
  end.

(** The characters of the text of a NaN. *)
Definition nan_char (c : ascii) : bool :=
  PyStr.is_digit c || Ascii.eqb c "-" || Ascii.eqb c "N" || Ascii.eqb c "a".

(** An integer part written with thousands separators: one to three digits,
    then groups of a comma and three digits. *)
Inductive thousands : string -> Prop :=
| thousands_first (ds : string) :
    ds <> "" -> (String.length ds <= 3)%nat -> all_chars PyStr.is_digit ds = true ->
    thousands ds
| thousands_group (t : string) (a b c : ascii) :
    thousands t ->
    PyStr.is_digit a = true -> PyStr.is_digit b = true -> PyStr.is_digit c = true ->
    thousands (t ^^ String "," (String a (String b (String c "")))).

(** A name that the lists of categories and people can hold: not empty,
    no space at either end. *)
Definition name_ok (s : string) : Prop := s <> "" /\ trimmed s = true.

(** The invariant of such a list: no name twice, in the order of the
    lower-cased names, every name well formed. *)
Definition names_inv (lst : list string) : Prop :=
  NoDup lst /\ Sorted lower_le lst /\ Forall name_ok lst.

(** Amounts as whole cents. *)
Definition cents (x : Decimal) : Z :=
  match x with
  | Fin s c _ => if s then - Z.of_N c else Z.of_N c
  | _ => 0
  end.

Definition amount_of_cents (z : Z) : Decimal := Fin (z <? 0) (Z.abs_N z) (-2).

(** The cents of a stored amount text, when [d] reads it as a number. *)
Definition cents_of_text (t : string) : option Z :=
  match d t with
  | Ok (Fin s c e) => Some (cents (Fin s c e))
  | _ => None
  end.

Definition text_cents (t : string) : Z :=
  match cents_of_text t with
  | Some z => z
  | None => 0
  end.

Definition total_cents (texts : list string) : Z :=
  fold_right (fun t acc => text_cents t + acc) 0 texts.

Definition total_abs (texts : list string) : Z :=
  fold_right (fun t acc => Z.abs (text_cents t) + acc) 0 texts.

(** 10^28 cents: what 28 digits cannot hold. *)
Definition cent_limit : Z := 10000000000000000000000000000.

(** The loop of a sum over the amount texts that it reads. *)
Definition sum_amounts (texts : list string) : result Decimal :=
  for_each (fun acc t => a <- d t ;; add acc a) texts zero.

(** The text of a date is of the month of [today]. *)
Definition in_month (today : Cal.date) (text : string) : bool :=
  match parse_date text with
  | Ok dt => (Cal.year dt =? Cal.year today) && (Cal.month dt =? Cal.month today)
  | Raise _ => false
  end.

(** The amount texts that the three sums of a month read. *)
Definition base_texts (st : State) (today : Cal.date) : list string :=
  map i_amount
    (filter (fun row => String.eqb (i_month row) (Cal.strftime_Ym today)) (monthly_incomes st)).

Definition extra_texts (st : State) (today : Cal.date) : list string :=
  map x_amount (filter (fun row => in_month today (x_dt row)) (extra_incomes st)).

Definition expense_texts (st : State) (today : Cal.date) : list string :=
  map e_amount (filter (fun row => in_month today (e_dt row)) (expenses st)).

(** What a sum leaves in its accumulator: [Decimal("0")] when it read no
    amount, the total in cents otherwise. *)
Definition sum_value (texts : list string) : Decimal :=
  match texts with
  | [] => zero
  | _ :: _ => amount_of_cents (total_cents texts)
  end.

(** [str(n)] for an [int]. *)
Definition str_int (n : Z) : string :=
  (if n <? 0 then "-" else "") ^^ PyStr.str_N (Z.abs_N n).

(** [show_dashboard(state)] on the day [today]: the texts that the lines of
    the summary show, in the order of the lines (the month, the base and
    the extra incomes, their total, the expenses, what is left, the days
    left and the amount per day). *)
Definition show_dashboard (st : State) (today : Cal.date) : result (list string) :=
  t <- totals_for_month st today ;;
  let '(base_income, extra_income, expenses_) := t in
  s <- add base_income extra_income ;;
  total_income <- quantize s cent context_rounding ;;
  r <- remaining_and_per_day st today ;;
  let '(remaining, per_day, days_left) := r in
  Ok [Cal.strftime_Ym today; fmt_money base_income; fmt_money extra_income;
      fmt_money total_income; fmt_money expenses_; fmt_money remaining;
      str_int days_left; fmt_money per_day].

(** The month of [today] can be summed exactly: the date texts of the
    ledger are readable, the amounts of the month are read by [d] as
    numbers, and they add up, in absolute value, to less than 10^28 cents. *)
Definition month_readable (st : State) (today : Cal.date) : Prop :=
  Forall (fun row => exists dt, parse_date (x_dt row) = Ok dt) (extra_incomes st) /\
  Forall (fun row => exists dt, parse_date (e_dt row) = Ok dt) (expenses st) /\
  Forall (fun t => cents_of_text t <> None)
         (base_texts st today ++ extra_texts st today ++ expense_texts st today) /\
  total_abs (base_texts st today ++ extra_texts st today ++ expense_texts st today)
    < cent_limit.

(** The cents left in the month: incomes minus expenses. *)
Definition cents_left (st : State) (today : Cal.date) : Z :=
  total_cents (base_texts st today) + total_cents (extra_texts st today)
  - total_cents (expense_texts st today).

(** The days left in the month, today included. *)
Definition days_left_of (today : Cal.date) : Z :=
  Cal.days_in_month (Cal.year today) (Cal.month today) - Cal.day today + 1.

(** ** The console of control_gastos.py

    [input()] takes the next of the lines that are typed; when no line is
    left it raises EOFError, which the program does not catch.  A function
    that reads is a function of the lines still to read; it returns a value
    and the lines it left, or raises.  What the functions print is left
    out, and so is the file that [save_state] writes: the ledger is the one
    in memory. *)

Inductive console (A : Type) : Type :=
| Returns (a : A) (rest : list string)
| Raises (e : exn) (rest : list string)
| EndOfInput.

Arguments Returns {A} a rest.
Arguments Raises {A} e rest.
Arguments EndOfInput {A}.

Definition io (A : Type) : Type := list string -> console A.

Definition ret {A : Type} (a : A) : io A := fun lines => Returns a lines.

Definition io_bind {A B : Type} (c : io A) (k : A -> io B) : io B :=
  fun lines =>
    match c lines with
    | Returns a rest => k a rest
    | Raises e rest => Raises e rest
    | EndOfInput => EndOfInput
    end.

Notation "x <~ c ;; k" := (io_bind c (fun x => k))
  (at level 61, c at next level, right associativity).

(** [input(prompt)] *)
Definition input : io string :=
  fun lines =>
    match lines with
    | [] => EndOfInput
    | line :: rest => Returns line rest
    end.

(** A call that can raise. *)
Definition lift {A : Type} (r : result A) : io A :=
  fun lines =>
    match r with
    | Ok a => Returns a lines
    | Raise e => Raises e lines
    end.

(** [str.isdigit] on the code points below 256: the ten digits and the
    superscripts two, three and one. *)
Definition isdigit_char (c : ascii) : bool :=
  let n := nat_of_ascii c in
  PyStr.is_digit c || (n =? 178)%nat || (n =? 179)%nat || (n =? 185)%nat.

Definition isdigit (s : string) : bool :=
  negb (String.eqb s "") && all_chars isdigit_char s.

(** [int(s)] for a text that [isdigit] accepts: a superscript is not a
    decimal digit, and a text of more than 4300 digits is refused. *)
Definition int_max_str_digits : nat := 4300.

Definition int_of_text (s : string) : result Z :=
  if all_chars PyStr.is_digit s && (String.length s <=? int_max_str_digits)%nat
  then Ok (Z.of_N (PyStr.int_of_digits s))
  else Raise ValueError.

(** The loop of [pick_from_list]. *)
Fixpoint pick_loop (options : list string) (lines : list string)
  : console (option string) :=
  match lines with
  | [] => EndOfInput
  | line :: rest =>
      let s := PyStr.strip line in
      if String.eqb s "" then Returns None rest
      else if isdigit s then
        match int_of_text s with
        | Raise e => Raises e rest
        | Ok idx =>
            if (1 <=? idx) && (idx <=? Z.of_nat (List.length options))
            then Returns (Some (nth (Z.to_nat (idx - 1)) options "")) rest
            else pick_loop options rest
        end
      else pick_loop options rest
  end.

Definition pick_from_list (options : list string) : io (option string) :=
  fun lines =>
    match options with
    | [] => Returns None lines
    | _ :: _ => pick_loop options lines
    end.

(** [input_decimal]: a ValueError of [d] asks again, anything else that
    [d] raises goes on to the caller. *)
Fixpoint input_decimal (lines : list string) : console Decimal :=
  match lines with
  | [] => EndOfInput
  | line :: rest =>
      match d (PyStr.replace "," "." (PyStr.strip line)) with
      | Ok x => Returns x rest
      | Raise ValueError => input_decimal rest
      | Raise e => Raises e rest
      end
  end.

Fixpoint input_date (default : option Cal.date) (lines : list string)
  : console Cal.date :=
  match lines with
  | [] => EndOfInput
  | line :: rest =>
      let s := PyStr.strip line in
      match (if String.eqb s "" then default else None) with
      | Some dt => Returns dt rest
      | None =>
          match parse_date s with
          | Ok dt => Returns dt rest
          | Raise ValueError => input_date default rest
          | Raise e => Raises e rest
          end
      end
  end.

Definition set_categories (st : State) (l : list string) : State :=
  mkState l (people st) (monthly_incomes st) (extra_incomes st) (expenses st).

Definition set_people (st : State) (l : list string) : State :=
  mkState (categories st) l (monthly_incomes st) (extra_incomes st) (expenses st).

(** [if not person: continue]: nothing picked, or an empty name. *)
Definition picked (choice : option string) : option string :=
  match choice with
  | Some "" => None
  | other => other
  end.

(** One turn of the loop of [menu], on the day [today]: the ledger after
    the turn, or [None] when the choice is to leave. *)
Definition menu_step (today : Cal.date) (st : State) : io (option State) :=
  line <~ input ;;
  let choice := PyStr.strip line in
  if String.eqb choice "1" then
    _ <~ lift (show_dashboard st today) ;;
    ret (Some st)
  else if String.eqb choice "2" then
    line <~ input ;;
    let name := PyStr.strip line in
    ret (Some (set_categories st (snd (ensure_unique_add (categories st) name))))
  else if String.eqb choice "3" then ret (Some st)
  else if String.eqb choice "4" then
    line <~ input ;;
    let name := PyStr.strip line in
    ret (Some (set_people st (snd (ensure_unique_add (people st) name))))
  else if String.eqb choice "5" then ret (Some st)
  else if String.eqb choice "6" then
    choice <~ pick_from_list (people st) ;;
    match picked choice with
    | None => ret (Some st)
    | Some person =>
        let month_key := Cal.strftime_Ym today in
        amount <~ input_decimal ;;
        ret (Some (set_monthly_income st person amount month_key))
    end
  else if String.eqb choice "7" then
    choice <~ pick_from_list (people st) ;;
    match picked choice with
    | None => ret (Some st)
    | Some person =>
        amount <~ input_decimal ;;
        dt <~ input_date (Some today) ;;
        note <~ input ;;
        ret (Some (add_extra_income st person amount dt note))
    end
  else if String.eqb choice "8" then
    choice <~ pick_from_list (categories st) ;;
    match picked choice with
    | None => ret (Some st)
    | Some category =>
        amount <~ input_decimal ;;
        dt <~ input_date (Some today) ;;
        note <~ input ;;
        ret (Some (add_expense st amount category dt note))
    end
  else if String.eqb choice "9" then ret None
  else ret (Some st).


(** What the ledgers that the menu builds keep. *)
Definition stored_amount (t : string) : Prop :=
  exists x, two_place_amount x /\ t = to_str x.

Definition stored_date (t : string) : Prop :=
  exists dt, Cal.valid dt = true /\ t = Cal.isoformat dt.

Definition ledger_ok (st : State) : Prop :=
  names_inv (categories st) /\
  names_inv (people st) /\
  one_per_key (monthly_incomes st) /\
  Forall (fun row => In (i_person row) (people st) /\ stored_amount (i_amount row))
         (monthly_incomes st) /\
  Forall (fun row => In (x_person row) (people st) /\ stored_amount (x_amount row) /\
                     stored_date (x_dt row))
         (extra_incomes st) /\
  Forall (fun row => In (e_category row) (categories st) /\ stored_amount (e_amount row) /\
                     stored_date (e_dt row))
         (expenses st).

(** The failures of the decimal arithmetic, apart from a division by zero. *)
Definition decimal_failure (e : exn) : Prop := e = InvalidOperation \/ e = Overflow.

(** Two monthly incomes of 28 digits each: their sum has 29. *)
Definition large_incomes_state : State :=
  mkState [] ["Ana"; "Luis"]
    [mkIncome "Ana" "99999999999999999999999999.99" "2026-01";
     mkIncome "Luis" "99999999999999999999999999.99" "2026-01"]
    [] [].

(** ** The handlers of the form of control_gastos_app.py

    A handler is a function of the ledger and of the texts of the fields it
    reads; [today] is the day on which the form was opened.  What it does
    to the widgets is left out. *)

Module Form.

Inductive handled : Type :=
| Saved (st : State)              (* the handler ran to its end: the ledger, as written to the file *)
| Warned                          (* a warning is shown, the ledger is as it was *)
| Failed (e : exn) (st : State).  (* an exception leaves the handler; the ledger at that point *)

(** The end of the three handlers that save a row: [refresh_summary]. *)
Definition refreshed (st : State) (today : Cal.date) : handled :=
  match App.refresh_summary st today with
  | Ok _ => Saved st
  | Raise e => Failed e st
  end.

Definition add_category (st : State) (ent_cat : string) : handled :=
  let (added, lst) := App.ensure_unique_add (categories st) ent_cat in
  if added then Saved (set_categories st lst) else Warned.

Definition add_person (st : State) (ent_person : string) : handled :=
  let (added, lst) := App.ensure_unique_add (people st) ent_person in
  if added then Saved (set_people st lst) else Warned.

(** Only the ValueError of [d] is caught. *)
Definition save_monthly_income (st : State) (today : Cal.date)
    (cmb_inc_person ent_inc_amount : string) : handled :=
  let person := PyStr.strip cmb_inc_person in
  let amt_s := PyStr.strip ent_inc_amount in
  if String.eqb person "" then Warned
  else
    match App.d amt_s with
    | Raise ValueError => Warned
    | Raise e => Failed e st
    | Ok amt =>
        let month_key := Cal.strftime_Ym today in
        refreshed (set_monthly_income st person amt month_key) today
    end.

(** [except Exception]: whatever [d] and [parse_date] raise is caught. *)
Definition save_extra_income (st : State) (today : Cal.date)
    (cmb_extra_person ent_extra_amount ent_extra_date ent_extra_note : string) : handled :=
  let person := PyStr.strip cmb_extra_person in
  if String.eqb person "" then Warned
  else
    match (amt <- App.d (PyStr.strip ent_extra_amount) ;;
           dt <- parse_date (PyStr.strip ent_extra_date) ;;
           Ok (amt, dt)) with
    | Raise _ => Warned
    | Ok (amt, dt) =>
        let note := PyStr.strip ent_extra_note in
        refreshed (add_extra_income st person amt dt note) today
    end.

Definition save_expense (st : State) (today : Cal.date)
    (cmb_exp_cat ent_exp_amount ent_exp_date ent_exp_note : string) : handled :=
  let cat := PyStr.strip cmb_exp_cat in
  if String.eqb cat "" then Warned
  else
    match (amt <- App.d (PyStr.strip ent_exp_amount) ;;
           dt <- parse_date (PyStr.strip ent_exp_date) ;;
           Ok (amt, dt)) with
    | Raise _ => Warned
    | Ok (amt, dt) =>
        let note := PyStr.strip ent_exp_note in
        refreshed (add_expense st amt cat dt note) today
    end.

(** The ledger that a handler leaves, when it changed it. *)
Definition ledger_after (h : handled) : option State :=
  match h with
  | Saved st => Some st
  | Failed _ st => Some st
  | Warned => None
  end.

End Form.

(** The quotient of two naturals, rounded to the nearest and at a tie to
    the even neighbour. *)
Definition round_half_even_div (c n : N) : N :=
  let q := (c / n)%N in
  let r := (c mod n)%N in
  if (2 * r <? n)%N then q
  else if (n <? 2 * r)%N then (q + 1)%N
  else if N.even q then q else (q + 1)%N.

(** The amount per day for a balance of [r] cents and [n] days: the
    quotient in cents, rounded half to even, with the sign of the balance. *)
Definition per_day_amount (r n : Z) : Decimal :=
  Fin (r <? 0) (round_half_even_div (Z.abs_N r) (Z.to_N n)) (-2).

(** The ledger of the example with its names listed. *)
Definition household_state : State :=
  mkState ["Comida"; "Luz"] ["Ana"; "Luis"]
    [mkIncome "Ana" "50000.00" "2026-01"]
    [mkExtraIncome "Ana" "2000.00" "2026-01-10" ""]
    [mkExpense "15000.00" "Comida" "2026-01-05" "";
     mkExpense "5000.00" "Comida" "2025-12-20" ""].

(** * Proofs *)

(** ** The calendar *)

Lemma cycle_check_true : cycle_check = true.
Proof. vm_compute. reflexivity. Qed.

Lemma ymd2ord_period (y m d k : Z) :
  Cal.ymd2ord (y + 400 * k) m d = Cal.ymd2ord y m d + Cal.DI400Y * k.
Proof.
  unfold Cal.ymd2ord, Cal.days_before_year, Cal.days_before_month, Cal.is_leap, Cal.DI400Y.
  replace ((y + 400 * k) mod 4) with (y mod 4)
    by (replace (y + 400 * k) with (y + (100 * k) * 4) by ring; now rewrite Z.mod_add).
  replace ((y + 400 * k) mod 100) with (y mod 100)
    by (replace (y + 400 * k) with (y + (4 * k) * 100) by ring; now rewrite Z.mod_add).
  replace ((y + 400 * k) mod 400) with (y mod 400)
    by (replace (y + 400 * k) with (y + k * 400) by ring; now rewrite Z.mod_add).
  replace ((y + 400 * k - 1) / 4) with ((y - 1) / 4 + 100 * k)
    by (replace (y + 400 * k - 1) with (y - 1 + (100 * k) * 4) by ring; now rewrite Z.div_add).
  replace ((y + 400 * k - 1) / 100) with ((y - 1) / 100 + 4 * k)
    by (replace (y + 400 * k - 1) with (y - 1 + (4 * k) * 100) by ring; now rewrite Z.div_add).
  replace ((y + 400 * k - 1) / 400) with ((y - 1) / 400 + k)
    by (replace (y + 400 * k - 1) with (y - 1 + k * 400) by ring; now rewrite Z.div_add).
  lia.
Qed.

Lemma ord2ymd_period (n k : Z) :
  Cal.ord2ymd (n + Cal.DI400Y * k) = shift_years (400 * k) (Cal.ord2ymd n).
Proof.
  unfold Cal.ord2ymd, shift_years.
  replace (n + Cal.DI400Y * k - 1) with (n - 1 + k * Cal.DI400Y) by ring.
  rewrite Z.div_add, Z.mod_add by (unfold Cal.DI400Y; lia).
  cbv zeta.
  repeat match goal with
         | |- context [if ?c then _ else _] => destruct c
         end; cbn [Cal.year Cal.month Cal.day]; f_equal; lia.
Qed.

Lemma is_leap_period (y k : Z) : Cal.is_leap (y + 400 * k) = Cal.is_leap y.
Proof.
  unfold Cal.is_leap.
  replace ((y + 400 * k) mod 4) with (y mod 4)
    by (replace (y + 400 * k) with (y + (100 * k) * 4) by ring; now rewrite Z.mod_add).
  replace ((y + 400 * k) mod 100) with (y mod 100)
    by (replace (y + 400 * k) with (y + (4 * k) * 100) by ring; now rewrite Z.mod_add).
  replace ((y + 400 * k) mod 400) with (y mod 400)
    by (replace (y + 400 * k) with (y + k * 400) by ring; now rewrite Z.mod_add).
  reflexivity.
Qed.

Lemma first_next_ord_period (y m k : Z) :
  first_next_ord (y + 400 * k) m = first_next_ord y m + Cal.DI400Y * k.
Proof.
  unfold first_next_ord. destruct (m =? 12).
  - replace (y + 400 * k + 1) with (y + 1 + 400 * k) by ring. apply ymd2ord_period.
  - apply ymd2ord_period.
Qed.

Lemma date_eqb_eq (a b : Cal.date) : date_eqb a b = true -> a = b.
Proof.
  destruct a, b. unfold date_eqb. cbn [Cal.year Cal.month Cal.day].
  rewrite !andb_true_iff, !Z.eqb_eq. intros [[-> ->] ->]. reflexivity.
Qed.

Lemma in_range_list (lo len : nat) (z : Z) :
  Z.of_nat lo <= z < Z.of_nat lo + Z.of_nat len -> In z (map Z.of_nat (seq lo len)).
Proof.
  intros H. apply in_map_iff. exists (Z.to_nat z). split; [lia|].
  apply in_seq. lia.
Qed.

(** The day before the first day of the next month is the last day that
    the table has for the month, in every year. *)
Lemma last_day_arith (y m : Z) :
  1 <= m <= 12 ->
  Cal.ord2ymd (first_next_ord y m - 1) = Cal.mkdate y m (Cal.days_in_month y m).
Proof.
  intros Hm.
  set (y0 := (y - 1) mod 400 + 1).
  set (k := (y - 1) / 400).
  assert (Hy : y = y0 + 400 * k).
  { unfold y0, k. pose proof (Z.div_mod (y - 1) 400). lia. }
  assert (Hy0 : 1 <= y0 <= 400).
  { unfold y0. pose proof (Z.mod_pos_bound (y - 1) 400). lia. }
  pose proof cycle_check_true as C. unfold cycle_check in C.
  rewrite forallb_forall in C.
  specialize (C y0 (in_range_list 1 400 y0 ltac:(lia))).
  rewrite forallb_forall in C.
  specialize (C m (in_range_list 1 12 m ltac:(lia))).
  apply date_eqb_eq in C.
  rewrite Hy, first_next_ord_period.
  replace (first_next_ord y0 m + Cal.DI400Y * k - 1)
    with (first_next_ord y0 m - 1 + Cal.DI400Y * k) by ring.
  rewrite ord2ymd_period, C. unfold shift_years, Cal.days_in_month.
  cbn [Cal.year Cal.month Cal.day]. rewrite is_leap_period. reflexivity.
Qed.

Lemma days_in_month_gregorian (y m : Z) :
  1 <= m <= 12 -> Cal.days_in_month y m = gregorian_last_day y m.
Proof.
  intros Hm. unfold Cal.days_in_month, gregorian_last_day, Cal.is_leap.
  assert (m = 1 \/ m = 2 \/ m = 3 \/ m = 4 \/ m = 5 \/ m = 6 \/ m = 7 \/ m = 8 \/
          m = 9 \/ m = 10 \/ m = 11 \/ m = 12) as Hc by lia.
  repeat (destruct Hc as [-> | Hc]); try subst m; try reflexivity.
  change (2 =? 2) with true. cbn [andb Cal.DAYS_IN_MONTH].
  destruct (Z.eqb_spec (y mod 400) 0) as [H400 | H400];
    destruct (Z.eqb_spec (y mod 100) 0) as [H100 | H100];
    destruct (Z.eqb_spec (y mod 4) 0) as [H4 | H4];
    cbn [andb orb negb]; try reflexivity; exfalso;
    Z.div_mod_to_equations; lia.
Qed.

Lemma days_in_month_bounds (y m : Z) :
  1 <= m <= 12 -> 28 <= Cal.days_in_month y m <= 31.
Proof.
  intros Hm. unfold Cal.days_in_month.
  assert (m = 1 \/ m = 2 \/ m = 3 \/ m = 4 \/ m = 5 \/ m = 6 \/ m = 7 \/ m = 8 \/
          m = 9 \/ m = 10 \/ m = 11 \/ m = 12) as Hc by lia.
  repeat (destruct Hc as [-> | Hc]); try subst m;
    cbn; try lia; destruct (Cal.is_leap y); cbn; lia.
Qed.

Lemma valid_fields (dt : Cal.date) :
  Cal.valid dt = true ->
  1 <= Cal.year dt <= 9999 /\ 1 <= Cal.month dt <= 12 /\
  1 <= Cal.day dt <= Cal.days_in_month (Cal.year dt) (Cal.month dt).
Proof.
  unfold Cal.valid, Cal.MINYEAR, Cal.MAXYEAR.
  rewrite !andb_true_iff, !Z.leb_le. lia.
Qed.

Lemma valid_intro (y m d : Z) :
  1 <= y <= 9999 -> 1 <= m <= 12 -> 1 <= d <= Cal.days_in_month y m ->
  Cal.valid (Cal.mkdate y m d) = true.
Proof.
  intros. unfold Cal.valid, Cal.MINYEAR, Cal.MAXYEAR. cbn [Cal.year Cal.month Cal.day].
  rewrite !andb_true_iff, !Z.leb_le. lia.
Qed.

Lemma days_before_month_bounds (y m : Z) :
  1 <= m <= 12 -> 0 <= Cal.days_before_month y m <= 335.
Proof.
  intros Hm. unfold Cal.days_before_month.
  assert (m = 1 \/ m = 2 \/ m = 3 \/ m = 4 \/ m = 5 \/ m = 6 \/ m = 7 \/ m = 8 \/
          m = 9 \/ m = 10 \/ m = 11 \/ m = 12) as Hc by lia.
  repeat (destruct Hc as [-> | Hc]); try subst m;
    cbn; try lia; destruct (Cal.is_leap y); cbn; lia.
Qed.

Lemma days_before_year_bounds (y : Z) :
  1 <= y <= 9999 -> 0 <= Cal.days_before_year y <= 3651694.
Proof.
  intros Hy. unfold Cal.days_before_year. cbv zeta.
  pose proof (Z.div_mod (y - 1) 4). pose proof (Z.mod_pos_bound (y - 1) 4).
  pose proof (Z.div_mod (y - 1) 100). pose proof (Z.mod_pos_bound (y - 1) 100).
  pose proof (Z.div_mod (y - 1) 400). pose proof (Z.mod_pos_bound (y - 1) 400).
  lia.
Qed.

(** The first day of the next month is a date with an ordinal in range,
    unless the month is December 9999. *)
Lemma first_next_ord_bounds (y m : Z) :
  1 <= y <= 9999 -> 1 <= m <= 12 -> ~ (y = 9999 /\ m = 12) ->
  1 < first_next_ord y m <= Cal.MAXORDINAL + 1.
Proof.
  intros Hy Hm Hne. unfold first_next_ord, Cal.ymd2ord, Cal.MAXORDINAL.
  destruct (Z.eqb_spec m 12) as [-> | Hm12].
  - pose proof (days_before_year_bounds (y + 1) ltac:(lia)).
    pose proof (days_before_year_bounds y ltac:(lia)).
    assert (Cal.days_before_month (y + 1) 1 = 0) as -> by reflexivity.
    assert (365 <= Cal.days_before_year (y + 1)).
    { unfold Cal.days_before_year. cbv zeta.
      pose proof (Z.div_mod (y + 1 - 1) 4). pose proof (Z.mod_pos_bound (y + 1 - 1) 4).
      pose proof (Z.div_mod (y + 1 - 1) 100). pose proof (Z.mod_pos_bound (y + 1 - 1) 100).
      pose proof (Z.div_mod (y + 1 - 1) 400). pose proof (Z.mod_pos_bound (y + 1 - 1) 400).
      lia. }
    lia.
  - pose proof (days_before_year_bounds y Hy).
    pose proof (days_before_month_bounds y (m + 1) ltac:(lia)).
    assert (31 <= Cal.days_before_month y (m + 1)).
    { unfold Cal.days_before_month.
      assert (m = 1 \/ m = 2 \/ m = 3 \/ m = 4 \/ m = 5 \/ m = 6 \/ m = 7 \/ m = 8 \/
              m = 9 \/ m = 10 \/ m = 11) as Hc by lia.
      repeat (destruct Hc as [-> | Hc]); try subst m;
        cbn; try lia; destruct (Cal.is_leap y); cbn; lia. }
    lia.
Qed.

(** What [month_end] returns. *)
Lemma month_end_spec (dt : Cal.date) :
  Cal.valid dt = true ->
  ~ (Cal.year dt = 9999 /\ Cal.month dt = 12) ->
  month_end dt =
    Ok (Cal.mkdate (Cal.year dt) (Cal.month dt)
          (Cal.days_in_month (Cal.year dt) (Cal.month dt))).
Proof.
  intros Hv Hne. destruct (valid_fields dt Hv) as (Hy & Hm & Hd).
  destruct dt as [y m d]. cbn [Cal.year Cal.month Cal.day] in *.
  pose proof (first_next_ord_bounds y m Hy Hm Hne) as Hb.
  pose proof (last_day_arith y m Hm) as Hl.
  unfold month_end, Cal.replace, Cal.make. cbn [Cal.year Cal.month Cal.day].
  unfold first_next_ord in Hb, Hl.
  destruct (Z.eqb_spec m 12) as [-> | Hm12].
  - rewrite (valid_intro (y + 1) 1 1) by (cbn; lia).
    cbn [bind]. unfold Cal.sub_days, Cal.toordinal. cbn [Cal.year Cal.month Cal.day].
    replace ((0 <? Cal.ymd2ord (y + 1) 1 1 - 1) &&
             (Cal.ymd2ord (y + 1) 1 1 - 1 <=? Cal.MAXORDINAL)) with true
      by (symmetry; rewrite andb_true_iff, Z.ltb_lt, Z.leb_le; lia).
    rewrite Hl. reflexivity.
  - rewrite (valid_intro y (m + 1) 1)
      by (try lia; pose proof (days_in_month_bounds y (m + 1) ltac:(lia)); lia).
    cbn [bind]. unfold Cal.sub_days, Cal.toordinal. cbn [Cal.year Cal.month Cal.day].
    replace ((0 <? Cal.ymd2ord y (m + 1) 1 - 1) &&
             (Cal.ymd2ord y (m + 1) 1 - 1 <=? Cal.MAXORDINAL)) with true
      by (symmetry; rewrite andb_true_iff, Z.ltb_lt, Z.leb_le; lia).
    rewrite Hl. reflexivity.
Qed.

(** In December 9999 the first day of the next month is not a date. *)
Lemma month_end_december_9999 (dt : Cal.date) :
  Cal.year dt = 9999 -> Cal.month dt = 12 -> month_end dt = Raise ValueError.
Proof.
  intros Hy Hm. unfold month_end. rewrite Hm, Hy. reflexivity.
Qed.

(** ** The lists of categories and people *)

Lemma mem_In (item : string) (lst : list string) :
  PyStr.mem item lst = true <-> In item lst.
Proof.
  unfold PyStr.mem. rewrite existsb_exists. split.
  - intros [x [Hin Heq]]. apply String.eqb_eq in Heq. now subst.
  - intros Hin. exists item. split; [exact Hin | apply String.eqb_refl].
Qed.

Lemma ltb_false_leb (a b : string) : String.ltb a b = false -> String.leb b a = true.
Proof.
  unfold String.ltb, String.leb. rewrite (String.compare_antisym a b).
  destruct (String.compare b a); cbn; congruence.
Qed.

Lemma ltb_true_leb (a b : string) : String.ltb a b = true -> String.leb a b = true.
Proof.
  unfold String.ltb, String.leb. destruct (String.compare a b); congruence.
Qed.

Section SortBy.
Variable key : string -> string.

Lemma insert_by_perm (x : string) (l : list string) :
  Permutation (PyStr.insert_by key x l) (x :: l).
Proof.
  induction l as [| y t IH]; cbn.
  - apply Permutation_refl.
  - destruct (String.ltb (key x) (key y)).
    + apply Permutation_refl.
    + apply perm_trans with (y :: x :: t).
      * apply perm_skip, IH.
      * apply perm_swap.
Qed.

Lemma insert_by_hd (x a : string) (l : list string) :
  (key_le key) a x -> HdRel (key_le key) a l -> HdRel (key_le key) a (PyStr.insert_by key x l).
Proof.
  intros Hax Hl. destruct l as [| y t]; cbn.
  - constructor. exact Hax.
  - destruct (String.ltb (key x) (key y)); constructor.
    + exact Hax.
    + inversion Hl; assumption.
Qed.

Lemma insert_by_sorted (x : string) (l : list string) :
  Sorted (key_le key) l -> Sorted (key_le key) (PyStr.insert_by key x l).
Proof.
  induction 1 as [| y t Hs IH Hhd]; cbn.
  - repeat constructor.
  - destruct (String.ltb (key x) (key y)) eqn:E.
    + constructor.
      * constructor; assumption.
      * constructor. apply ltb_true_leb, E.
    + constructor.
      * exact IH.
      * apply insert_by_hd; [apply ltb_false_leb, E | exact Hhd].
Qed.

Lemma fold_insert_perm (l acc : list string) :
  Permutation (fold_left (fun a x => PyStr.insert_by key x a) l acc) (acc ++ l).
Proof.
  revert acc. induction l as [| x t IH]; intros acc; cbn.
  - rewrite app_nil_r. apply Permutation_refl.
  - eapply perm_trans; [apply IH |].
    apply perm_trans with (((x :: acc) ++ t)%list).
    + apply Permutation_app_tail, insert_by_perm.
    + cbn. apply Permutation_middle.
Qed.

Lemma fold_insert_sorted (l acc : list string) :
  Sorted (key_le key) acc ->
  Sorted (key_le key) (fold_left (fun a x => PyStr.insert_by key x a) l acc).
Proof.
  revert acc. induction l as [| x t IH]; intros acc Hs; cbn.
  - exact Hs.
  - apply IH, insert_by_sorted, Hs.
Qed.

Lemma sort_by_perm (l : list string) : Permutation (PyStr.sort_by key l) l.
Proof. apply (fold_insert_perm l []). Qed.

Lemma sort_by_sorted (l : list string) : Sorted (key_le key) (PyStr.sort_by key l).
Proof. apply fold_insert_sorted. constructor. Qed.
End SortBy.

(** The two programs have the same [ensure_unique_add]. *)
Lemma app_ensure_unique_add_same (lst : list string) (item : string) :
  App.ensure_unique_add lst item = ensure_unique_add lst item.
Proof.
  unfold App.ensure_unique_add, ensure_unique_add.
  destruct (String.eqb (PyStr.strip item) ""); reflexivity.
Qed.

(** The answer is false exactly on an empty or present item. *)
Lemma ensure_unique_add_false_iff (lst : list string) (item : string) :
  fst (ensure_unique_add lst item) = false <->
  PyStr.strip item = "" \/ In (PyStr.strip item) lst.
Proof.
  unfold ensure_unique_add.
  destruct (String.eqb_spec (PyStr.strip item) "") as [He | He].
  - cbn. tauto.
  - destruct (PyStr.mem (PyStr.strip item) lst) eqn:Hm; cbn.
    + apply mem_In in Hm. tauto.
    + split; [discriminate |]. intros [H | H]; [contradiction |].
      apply mem_In in H. congruence.
Qed.

Lemma ensure_unique_add_false_same (lst : list string) (item : string) :
  fst (ensure_unique_add lst item) = false ->
  snd (ensure_unique_add lst item) = lst.
Proof.
  unfold ensure_unique_add.
  destruct (String.eqb (PyStr.strip item) ""); [reflexivity |].
  destruct (PyStr.mem (PyStr.strip item) lst); [reflexivity | discriminate].
Qed.

Lemma ensure_unique_add_true_list (lst : list string) (item : string) :
  fst (ensure_unique_add lst item) = true ->
  snd (ensure_unique_add lst item) =
    PyStr.sort_by PyStr.lower (lst ++ [PyStr.strip item]).
Proof.
  unfold ensure_unique_add.
  destruct (String.eqb (PyStr.strip item) ""); [discriminate |].
  destruct (PyStr.mem (PyStr.strip item) lst); [discriminate | reflexivity].
Qed.

(** What [strip] leaves has no space at either end. *)
Lemma lstrip_first (s : string) :
  match PyStr.lstrip s with
  | String c _ => PyStr.is_space c = false
  | EmptyString => True
  end.
Proof.
  induction s as [| c t IH]; cbn; [exact I |].
  destruct (PyStr.is_space c) eqn:E; [exact IH | exact E].
Qed.

Lemma rstrip_first (c : ascii) (t : string) :
  PyStr.is_space c = false -> exists t', PyStr.rstrip (String c t) = String c t'.
Proof.
  intros Hc. cbn. destruct (PyStr.rstrip t).
  - rewrite Hc. eexists; reflexivity.
  - eexists; reflexivity.
Qed.

Lemma rstrip_last (s : string) :
  ends_with_space (PyStr.rstrip s) = false.
Proof.
  induction s as [| c t IH]; cbn; [reflexivity |].
  destruct (PyStr.rstrip t) as [| c' t'] eqn:E.
  - destruct (PyStr.is_space c) eqn:Hc; cbn; [reflexivity | exact Hc].
  - exact IH.
Qed.

Lemma strip_trimmed (s : string) : trimmed (PyStr.strip s) = true.
Proof.
  unfold trimmed, PyStr.strip. rewrite rstrip_last.
  pose proof (lstrip_first s) as H.
  destruct (PyStr.lstrip s) as [| c t]; [reflexivity |].
  destruct (rstrip_first c t H) as [t' ->]. cbn. rewrite H. reflexivity.
Qed.

(** ** The monthly incomes *)

Lemma same_key_with_amount (p m a : string) (row : Income) :
  same_key p m (with_amount a row) = same_key p m row.
Proof. reflexivity. Qed.

Lemma same_key_eq (p m : string) (row : Income) :
  same_key p m row = true -> i_person row = p /\ i_month row = m.
Proof.
  unfold same_key. rewrite andb_true_iff, !String.eqb_eq. tauto.
Qed.

Lemma same_key_new (p m a : string) : same_key p m (mkIncome p a m) = true.
Proof. unfold same_key. cbn. now rewrite !String.eqb_refl. Qed.

Lemma one_per_key_tail (row : Income) (rest : list Income) :
  one_per_key (row :: rest) -> one_per_key rest.
Proof.
  intros H p m. specialize (H p m). unfold rows_of in *. cbn in H.
  destruct (same_key p m row); cbn in H; lia.
Qed.

Lemma one_per_key_head (p m : string) (row : Income) (rest : list Income) :
  one_per_key (row :: rest) -> same_key p m row = true -> rows_of p m rest = [].
Proof.
  intros H Hk. specialize (H p m). unfold rows_of in *. cbn in H.
  rewrite Hk in H. cbn in H.
  destruct (filter (same_key p m) rest); [reflexivity | cbn in H; lia].
Qed.

(** No row of the key: the rows stay as they are under the overwriting map. *)
Lemma map_overwrite_none (p m a : string) (l : list Income) :
  rows_of p m l = [] ->
  map (fun row => if same_key p m row then with_amount a row else row) l = l.
Proof.
  unfold rows_of. induction l as [| row rest IH]; cbn; [reflexivity |].
  destruct (same_key p m row); [discriminate |].
  intros H. now rewrite IH.
Qed.

(** The loop ends without a match exactly when the key has no row. *)
Lemma overwrite_first_cons (row : Income) (rest : list Income) (p a m : string) :
  overwrite_first (row :: rest) p a m =
    if same_key p m row then Some (with_amount a row :: rest)
    else option_map (cons row) (overwrite_first rest p a m).
Proof. reflexivity. Qed.

Lemma overwrite_first_None (l : list Income) (p a m : string) :
  overwrite_first l p a m = None <-> rows_of p m l = [].
Proof.
  unfold rows_of. induction l as [| row rest IH]; [cbn; tauto |].
  rewrite overwrite_first_cons. cbn [filter].
  destruct (same_key p m row).
  - split; discriminate.
  - destruct (overwrite_first rest p a m); cbn [option_map].
    + split; [discriminate |]. intros H. apply IH in H. discriminate.
    + tauto.
Qed.

(** Under the invariant the loop overwrites the row of the key where it is. *)
Lemma overwrite_first_Some (l l' : list Income) (p a m : string) :
  one_per_key l ->
  overwrite_first l p a m = Some l' ->
  l' = map (fun row => if same_key p m row then with_amount a row else row) l.
Proof.
  revert l'. induction l as [| row rest IH]; intros l' Hinv; [discriminate |].
  rewrite overwrite_first_cons. cbn [map].
  destruct (same_key p m row) eqn:Hk.
  - intros [= <-].
    now rewrite (map_overwrite_none p m a rest (one_per_key_head p m row rest Hinv Hk)).
  - destruct (overwrite_first rest p a m) as [l'' |] eqn:Ho; cbn [option_map]; [| discriminate].
    intros [= <-]. f_equal. apply IH; [eapply one_per_key_tail; eassumption | reflexivity].
Qed.

Lemma rows_of_map_overwrite (p m a p' m' : string) (l : list Income) :
  rows_of p' m' (map (fun row => if same_key p m row then with_amount a row else row) l)
  = map (fun row => if same_key p m row then with_amount a row else row) (rows_of p' m' l).
Proof.
  unfold rows_of. induction l as [| row rest IH]; cbn; [reflexivity |].
  assert (E : same_key p' m' (if same_key p m row then with_amount a row else row)
              = same_key p' m' row) by (destruct (same_key p m row); reflexivity).
  rewrite E. destruct (same_key p' m' row); cbn; now rewrite IH.
Qed.

Lemma monthly_incomes_set (st : State) (p : string) (amount : Decimal) (m : string) :
  monthly_incomes (set_monthly_income st p amount m)
  = upsert (monthly_incomes st) p (to_str amount) m.
Proof.
  unfold set_monthly_income, upsert.
  destruct (overwrite_first (monthly_incomes st) p (to_str amount) m); reflexivity.
Qed.

Lemma upsert_invariant (l : list Income) (p a m : string) :
  one_per_key l -> one_per_key (upsert l p a m).
Proof.
  intros Hinv. unfold upsert.
  destruct (overwrite_first l p a m) as [l' |] eqn:Ho.
  - rewrite (overwrite_first_Some l l' p a m Hinv Ho).
    intros p' m'. rewrite rows_of_map_overwrite, length_map. apply Hinv.
  - apply overwrite_first_None in Ho.
    intros p' m'. unfold rows_of in *. rewrite filter_app, length_app. cbn.
    destruct (same_key p' m' (mkIncome p a m)) eqn:Hk.
    + apply same_key_eq in Hk. cbn in Hk. destruct Hk as [<- <-].
      rewrite Ho. cbn. lia.
    + specialize (Hinv p' m'). unfold rows_of in Hinv. cbn. lia.
Qed.

Lemma upsert_rows (l : list Income) (p a m : string) :
  one_per_key l -> rows_of p m (upsert l p a m) = [mkIncome p a m].
Proof.
  intros Hinv. unfold upsert.
  destruct (overwrite_first l p a m) as [l' |] eqn:Ho.
  - rewrite (overwrite_first_Some l l' p a m Hinv Ho), rows_of_map_overwrite.
    assert (Hne : rows_of p m l <> []).
    { intros E. apply overwrite_first_None with (a := a) in E. congruence. }
    specialize (Hinv p m).
    assert (Hall : Forall (fun row => same_key p m row = true) (rows_of p m l)).
    { apply Forall_forall. intros row Hin. apply filter_In in Hin. tauto. }
    destruct (rows_of p m l) as [| row [| row' rest]]; [contradiction | | cbn in Hinv; lia].
    inversion Hall as [| ? ? Hk _]; subst. cbn. rewrite Hk.
    apply same_key_eq in Hk. destruct Hk as [<- <-]. reflexivity.
  - apply overwrite_first_None in Ho. unfold rows_of in *.
    rewrite filter_app, Ho. cbn. fold (same_key p m (mkIncome p a m)).
    now rewrite same_key_new.
Qed.

Lemma upsert_length_present (l : list Income) (p a m : string) :
  rows_of p m l <> [] -> List.length (upsert l p a m) = List.length l.
Proof.
  intros Hne. unfold upsert.
  destruct (overwrite_first l p a m) as [l' |] eqn:Ho.
  - clear Hne. revert l' Ho. induction l as [| row rest IH]; intros l'; [discriminate |].
    rewrite overwrite_first_cons.
    destruct (same_key p m row).
    + intros [= <-]. reflexivity.
    + destruct (overwrite_first rest p a m) as [l'' |]; cbn [option_map]; [| discriminate].
      intros [= <-]. cbn [List.length]. f_equal. now apply IH.
  - apply overwrite_first_None in Ho. contradiction.
Qed.

(** ** Digit strings *)

Lemma append_assoc (a b c : string) : (a ^^ b) ^^ c = a ^^ (b ^^ c).
Proof. induction a as [| x a IH]; cbn; [reflexivity | now rewrite IH]. Qed.

Lemma append_nil_r (a : string) : a ^^ "" = a.
Proof. induction a as [| x a IH]; cbn; [reflexivity | now rewrite IH]. Qed.

Lemma length_append (a b : string) :
  String.length (a ^^ b) = (String.length a + String.length b)%nat.
Proof. induction a as [| x a IH]; cbn; [reflexivity | now rewrite IH]. Qed.

Lemma all_chars_append (p : ascii -> bool) (a b : string) :
  all_chars p (a ^^ b) = all_chars p a && all_chars p b.
Proof.
  induction a as [| x a IH]; cbn; [reflexivity |].
  now rewrite IH, andb_assoc.
Qed.

Lemma all_chars_impl (p q : ascii -> bool) (s : string) :
  (forall c, p c = true -> q c = true) ->
  all_chars p s = true -> all_chars q s = true.
Proof.
  intros Hpq. induction s as [| x s IH]; cbn; [reflexivity |].
  rewrite !andb_true_iff. intros [Hx Hs]. split; [apply Hpq, Hx | apply IH, Hs].
Qed.

Lemma small_cases (n : N) :
  (n < 10)%N ->
  n = 0%N \/ n = 1%N \/ n = 2%N \/ n = 3%N \/ n = 4%N \/
  n = 5%N \/ n = 6%N \/ n = 7%N \/ n = 8%N \/ n = 9%N.
Proof. lia. Qed.

Lemma digit_val_char (n : N) : (n < 10)%N -> PyStr.digit_val (PyStr.digit_char n) = n.
Proof.
  intros H. destruct (small_cases n H) as [-> | [-> | [-> | [-> | [-> | [-> | [-> | [-> | [-> | ->]]]]]]]]];
    reflexivity.
Qed.

Lemma is_digit_char (n : N) : (n < 10)%N -> PyStr.is_digit (PyStr.digit_char n) = true.
Proof.
  intros H. destruct (small_cases n H) as [-> | [-> | [-> | [-> | [-> | [-> | [-> | [-> | [-> | ->]]]]]]]]];
    reflexivity.
Qed.

Lemma str_N_aux_acc (f : nat) (n : N) (acc : string) :
  PyStr.str_N_aux f n acc = PyStr.str_N_aux f n "" ^^ acc.
Proof.
  revert n acc. induction f as [| f IH]; intros n acc; cbn; [reflexivity |].
  destruct (n <? 10)%N; [reflexivity |].
  rewrite (IH _ (String _ acc)), (IH _ (String _ "")), append_assoc. reflexivity.
Qed.

(** The two equations of the decimal text, for enough fuel. *)
Lemma str_N_aux_small (f : nat) (n : N) :
  (n < 10)%N ->
  PyStr.str_N_aux (S f) n "" = String (PyStr.digit_char n) "".
Proof. intros H. cbn. apply N.ltb_lt in H. now rewrite H. Qed.

Lemma str_N_aux_big (f : nat) (n : N) :
  (10 <= n)%N ->
  PyStr.str_N_aux (S f) n "" =
    PyStr.str_N_aux f (n / 10) "" ^^ String (PyStr.digit_char (n mod 10)) "".
Proof.
  intros H. cbn. apply N.ltb_ge in H. rewrite H. apply str_N_aux_acc.
Qed.

Lemma int_of_digits_from_append (a b : string) (acc : N) :
  PyStr.int_of_digits_from acc (a ^^ b)
  = PyStr.int_of_digits_from (PyStr.int_of_digits_from acc a) b.
Proof.
  revert acc. induction a as [| x a IH]; intros acc; cbn; [reflexivity | apply IH].
Qed.

Lemma pow2_succ (f : nat) : (2 ^ N.of_nat (S f) = 2 * 2 ^ N.of_nat f)%N.
Proof. rewrite Nat2N.inj_succ, N.pow_succ_r'. reflexivity. Qed.

Lemma str_N_aux_value (f : nat) (n : N) :
  (n < 2 ^ N.of_nat f)%N ->
  PyStr.int_of_digits (PyStr.str_N_aux f n "") = n.
Proof.
  revert n. induction f as [| f IH]; intros n Hn.
  - cbn in *. lia.
  - rewrite pow2_succ in Hn.
    destruct (N.lt_ge_cases n 10) as [Hs | Hb].
    + rewrite str_N_aux_small by exact Hs. unfold PyStr.int_of_digits.
      cbn [PyStr.int_of_digits_from]. rewrite digit_val_char by exact Hs. lia.
    + rewrite str_N_aux_big by exact Hb.
      unfold PyStr.int_of_digits in *.
      rewrite int_of_digits_from_append, IH.
      * cbn [PyStr.int_of_digits_from]. rewrite digit_val_char by (apply N.mod_lt; lia).
        pose proof (N.div_mod n 10 ltac:(lia)). lia.
      * apply N.Div0.div_lt_upper_bound. lia.
Qed.

Lemma str_N_fuel (n : N) : (n < 2 ^ N.of_nat (S (N.to_nat (N.log2 n))))%N.
Proof.
  rewrite Nat2N.inj_succ, N2Nat.id.
  destruct n as [| p]; [reflexivity |].
  apply N.log2_spec. reflexivity.
Qed.

(** Reading the decimal text of a number gives the number. *)
Lemma int_of_digits_str_N (n : N) : PyStr.int_of_digits (PyStr.str_N n) = n.
Proof. apply str_N_aux_value, str_N_fuel. Qed.

Lemma str_N_aux_digits (f : nat) (n : N) :
  all_chars PyStr.is_digit (PyStr.str_N_aux f n "") = true.
Proof.
  revert n. induction f as [| f IH]; intros n; [reflexivity |].
  destruct (N.lt_ge_cases n 10) as [Hs | Hb].
  - rewrite str_N_aux_small by exact Hs. cbn [all_chars]. now rewrite is_digit_char.
  - rewrite str_N_aux_big by exact Hb. rewrite all_chars_append, IH. cbn [all_chars andb].
    rewrite is_digit_char by (apply N.mod_lt; lia). reflexivity.
Qed.

Lemma str_N_digits (n : N) : all_chars PyStr.is_digit (PyStr.str_N n) = true.
Proof. apply str_N_aux_digits. Qed.

Lemma str_N_aux_length_pos (f : nat) (n : N) :
  (1 <= String.length (PyStr.str_N_aux (S f) n ""))%nat.
Proof.
  destruct (N.lt_ge_cases n 10) as [Hs | Hb].
  - rewrite str_N_aux_small by exact Hs. cbn. lia.
  - rewrite str_N_aux_big by exact Hb. rewrite length_append. cbn. lia.
Qed.

Lemma ndigits_pos (n : N) : 1 <= ndigits n.
Proof. unfold ndigits, PyStr.str_N. pose proof (str_N_aux_length_pos (N.to_nat (N.log2 n)) n). lia. Qed.

(** A number has fewer digits than a power of ten above it... *)
Lemma str_N_aux_length_le (f : nat) (n : N) (k : nat) :
  (1 <= k)%nat -> (n < 10 ^ N.of_nat k)%N ->
  (String.length (PyStr.str_N_aux f n "") <= k)%nat.
Proof.
  revert n k. induction f as [| f IH]; intros n k Hk Hn; [cbn; lia |].
  destruct (N.lt_ge_cases n 10) as [Hs | Hb].
  - rewrite str_N_aux_small by exact Hs. cbn. lia.
  - rewrite str_N_aux_big by exact Hb. rewrite length_append. cbn.
    destruct k as [| k]; [lia |].
    destruct k as [| k]; [cbn in Hn; lia |].
    assert (n / 10 < 10 ^ N.of_nat (S k))%N.
    { rewrite (Nat2N.inj_succ (S k)), N.pow_succ_r' in Hn.
      apply N.Div0.div_lt_upper_bound. exact Hn. }
    specialize (IH (n / 10)%N (S k) ltac:(lia) H). lia.
Qed.

(** ... and is below the power of ten of its number of digits. *)
Lemma str_N_aux_length_lt (f : nat) (n : N) :
  (n < 2 ^ N.of_nat f)%N ->
  (n < 10 ^ N.of_nat (String.length (PyStr.str_N_aux f n "")))%N.
Proof.
  revert n. induction f as [| f IH]; intros n Hn.
  - cbn in *. lia.
  - rewrite pow2_succ in Hn.
    destruct (N.lt_ge_cases n 10) as [Hs | Hb].
    + rewrite str_N_aux_small by exact Hs. cbn. exact Hs.
    + rewrite str_N_aux_big by exact Hb. rewrite length_append. cbn [String.length].
      replace (String.length (PyStr.str_N_aux f (n / 10) "") + 1)%nat
        with (S (String.length (PyStr.str_N_aux f (n / 10) ""))) by lia.
      rewrite Nat2N.inj_succ, N.pow_succ_r'.
      assert (n / 10 < 2 ^ N.of_nat f)%N as Hq
        by (apply N.Div0.div_lt_upper_bound; lia).
      specialize (IH _ Hq).
      pose proof (N.div_mod n 10 ltac:(lia)). pose proof (N.mod_lt n 10 ltac:(lia)). lia.
Qed.

Lemma pow10_of_nat (k : nat) : pow10 (Z.of_nat k) = (10 ^ N.of_nat k)%N.
Proof. unfold pow10. f_equal. lia. Qed.

Lemma ndigits_le (n : N) (k : Z) : 1 <= k -> (n < pow10 k)%N -> ndigits n <= k.
Proof.
  intros Hk Hn. unfold ndigits, PyStr.str_N.
  replace k with (Z.of_nat (Z.to_nat k)) in Hn by lia.
  rewrite pow10_of_nat in Hn.
  pose proof (str_N_aux_length_le (S (N.to_nat (N.log2 n))) n (Z.to_nat k) ltac:(lia) Hn).
  lia.
Qed.

Lemma ndigits_lt (n : N) : (n < pow10 (ndigits n))%N.
Proof.
  unfold ndigits. rewrite pow10_of_nat. apply str_N_aux_length_lt, str_N_fuel.
Qed.

(** ** Rounding to two places *)

Lemma pow10_pos (k : Z) : (0 < pow10 k)%N.
Proof. unfold pow10. apply N.neq_0_lt_0, N.pow_nonzero. discriminate. Qed.

Lemma pow10_add (a b : Z) : 0 <= a -> 0 <= b -> pow10 (a + b) = (pow10 a * pow10 b)%N.
Proof.
  intros Ha Hb. unfold pow10. rewrite Z2N.inj_add by assumption. apply N.pow_add_r.
Qed.

Lemma pow10_le (a b : Z) : a <= b -> (pow10 a <= pow10 b)%N.
Proof.
  intros H. unfold pow10. apply N.pow_le_mono_r; [discriminate | lia].
Qed.

(** [_fix] leaves a number of at most 28 digits and exponent -2 as it is. *)
Lemma fix_two_places (s : bool) (c : N) :
  ndigits c <= 28 -> fix_ (Fin s c (-2)) = Ok (Fin s c (-2)).
Proof.
  intros Hn. unfold fix_.
  destruct (N.eqb_spec c 0) as [-> | Hc]; [reflexivity |].
  unfold Etop, Etiny, Emax, Emin, prec.
  pose proof (ndigits_pos c).
  replace (999999 - 28 + 1 <? ndigits c + -2 - 28) with false by (symmetry; apply Z.ltb_ge; lia).
  replace (-2 <? Z.max (ndigits c + -2 - 28) (-999999 - 28 + 1)) with false
    by (symmetry; apply Z.ltb_ge; lia).
  reflexivity.
Qed.

Lemma rescale_two_places (r : rounding) (s : bool) (c : N) (e : Z) :
  rescale s c e (-2) r = Fin s (coeff_two_places r c e) (-2).
Proof.
  unfold rescale, coeff_two_places.
  destruct (N.eqb_spec c 0) as [-> | Hc].
  - destruct (-2 <=? e); [reflexivity |].
    unfold round_up. rewrite N.Div0.div_0_l, N.Div0.mod_0_l.
    pose proof (pow10_pos (-2 - e)) as Hp.
    destruct r; cbn [N.mul N.even andb].
    + replace (pow10 (-2 - e) <=? 0)%N with false by (symmetry; apply N.leb_gt, Hp).
      reflexivity.
    + replace (pow10 (-2 - e) =? 0)%N with false by (symmetry; apply N.eqb_neq; lia).
      replace (pow10 (-2 - e) <=? 0)%N with false by (symmetry; apply N.leb_gt, Hp).
      reflexivity.
  - destruct (-2 <=? e); [| reflexivity].
    replace (e - -2) with (e + 2) by lia. reflexivity.
Qed.

(** Half up: the result is the nearest multiple of a cent, and the upper
    one of the two when the value is half-way. *)
Lemma coeff_half_up_nearest (c : N) (e : Z) :
  e < -2 ->
  let p := pow10 (-2 - e) in
  let c' := coeff_two_places ROUND_HALF_UP c e in
  (2 * c < 2 * c' * p + p /\ 2 * c' * p <= 2 * c + p)%N.
Proof.
  intros He p c'. subst c'. unfold coeff_two_places, round_up.
  replace (-2 <=? e) with false by (symmetry; apply Z.leb_gt; lia).
  fold p. cbv zeta.
  pose proof (pow10_pos (-2 - e)) as Hp. fold p in Hp.
  pose proof (N.div_mod c p ltac:(lia)) as Hdm.
  pose proof (N.mod_lt c p ltac:(lia)) as Hlt.
  set (q := (c / p)%N) in *. set (m := (c mod p)%N) in *.
  assert (Hqp : (p * q = q * p)%N) by apply N.mul_comm.
  destruct (N.leb_spec p (2 * m)) as [Hup | Hdn]; nia.
Qed.

Lemma str_N_aux_length_ge (f : nat) (n : N) :
  (n < 2 ^ N.of_nat f)%N -> n <> 0%N ->
  (10 ^ N.of_nat (String.length (PyStr.str_N_aux f n "") - 1) <= n)%N.
Proof.
  revert n. induction f as [| f IH]; intros n Hn Hz.
  - cbn in *. lia.
  - rewrite pow2_succ in Hn.
    destruct (N.lt_ge_cases n 10) as [Hs | Hb].
    + rewrite str_N_aux_small by exact Hs. cbn. lia.
    + rewrite str_N_aux_big by exact Hb. rewrite length_append. cbn [String.length].
      assert (Hq : (n / 10 < 2 ^ N.of_nat f)%N) by (apply N.Div0.div_lt_upper_bound; lia).
      assert (Hq0 : (n / 10 <> 0)%N).
      { intros E. pose proof (N.div_mod n 10 ltac:(lia)).
        pose proof (N.mod_lt n 10 ltac:(lia)). lia. }
      specialize (IH _ Hq Hq0).
      destruct f as [| f]; [cbn in Hq; lia |].
      pose proof (str_N_aux_length_pos f (n / 10)) as Hpos.
      replace (String.length (PyStr.str_N_aux (S f) (n / 10) "") + 1 - 1)%nat
        with (S (String.length (PyStr.str_N_aux (S f) (n / 10) "") - 1)) by lia.
      rewrite Nat2N.inj_succ, N.pow_succ_r'.
      apply N.le_trans with (10 * (n / 10))%N.
      * apply N.mul_le_mono_l. exact IH.
      * apply N.Div0.mul_div_le.
Qed.

Lemma ndigits_ge (n : N) : n <> 0%N -> (pow10 (ndigits n - 1) <= n)%N.
Proof.
  intros Hn. pose proof (ndigits_pos n) as Hp. unfold ndigits in *.
  replace (Z.of_nat (String.length (PyStr.str_N n)) - 1)
    with (Z.of_nat (String.length (PyStr.str_N n) - 1)) by lia.
  rewrite pow10_of_nat. apply str_N_aux_length_ge; [apply str_N_fuel | exact Hn].
Qed.

Lemma ndigits_gt (n : N) (k : Z) : 0 <= k -> (pow10 k <= n)%N -> k < ndigits n.
Proof.
  intros Hk Hn. pose proof (ndigits_lt n) as Hlt.
  destruct (Z.lt_ge_cases k (ndigits n)) as [H | H]; [exact H |].
  pose proof (pow10_le (ndigits n) k H). lia.
Qed.

(** A rounded coefficient below 10^28 comes from a number below 10^26. *)
Lemma coeff_two_places_fits (r : rounding) (c : N) (e : Z) :
  c <> 0%N -> (coeff_two_places r c e < pow10 28)%N -> ndigits c + e <= 26.
Proof.
  intros Hc Hsmall. pose proof (ndigits_ge c Hc) as Hge. pose proof (ndigits_pos c) as Hp.
  destruct (Z.le_gt_cases (ndigits c + e) 26) as [H | H]; [exact H | exfalso].
  unfold coeff_two_places in Hsmall.
  destruct (Z.leb_spec (-2) e) as [He | He].
  - assert (pow10 28 <= c * pow10 (e + 2))%N; [| lia].
    apply N.le_trans with (pow10 (ndigits c - 1) * pow10 (e + 2))%N.
    + rewrite <- pow10_add by lia. apply pow10_le. lia.
    + apply N.mul_le_mono_r, Hge.
  - set (k := -2 - e) in *.
    assert (pow10 28 <= c / pow10 k)%N; [| destruct (round_up r c k); lia].
    apply N.le_trans with (pow10 (ndigits c - 1 - k)); [apply pow10_le; lia |].
    apply N.div_le_lower_bound.
    + pose proof (pow10_pos k). lia.
    + rewrite <- pow10_add by lia. replace (k + (ndigits c - 1 - k)) with (ndigits c - 1) by lia.
      exact Hge.
Qed.

(** [quantize] to two places, in full: it returns exactly when the rounded
    coefficient has at most 28 digits. *)
Lemma quantize_two_places_fits (r : rounding) (s : bool) (c : N) (e : Z) :
  (coeff_two_places r c e < pow10 28)%N ->
  quantize (Fin s c e) cent r = Ok (Fin s (coeff_two_places r c e) (-2)).
Proof.
  intros Hsmall. pose proof (ndigits_pos c) as Hp.
  assert (Hnd : ndigits (coeff_two_places r c e) <= 28) by (apply ndigits_le; [lia | exact Hsmall]).
  unfold quantize, cent. cbn [check_nans].
  change (negb ((Etiny <=? -2) && (-2 <=? Emax))) with false. cbv iota.
  destruct (N.eqb_spec c 0) as [-> | Hc].
  - pose proof (rescale_two_places r s 0 e) as Hr. unfold rescale in Hr.
    cbn [N.eqb] in Hr. injection Hr as Hr. rewrite <- Hr. reflexivity.
  - pose proof (coeff_two_places_fits r c e Hc Hsmall) as H26.
    unfold adjusted, Emax, prec.
    replace (999999 <? e + ndigits c - 1) with false by (symmetry; apply Z.ltb_ge; lia).
    replace (28 <? e + ndigits c - 1 - -2 + 1) with false by (symmetry; apply Z.ltb_ge; lia).
    rewrite rescale_two_places.
    replace (999999 <? -2 + ndigits (coeff_two_places r c e) - 1) with false
      by (symmetry; apply Z.ltb_ge; lia).
    replace (28 <? ndigits (coeff_two_places r c e)) with false
      by (symmetry; apply Z.ltb_ge; lia).
    apply fix_two_places, Hnd.
Qed.

Lemma quantize_two_places_too_big (r : rounding) (s : bool) (c : N) (e : Z) :
  (pow10 28 <= coeff_two_places r c e)%N ->
  quantize (Fin s c e) cent r = Raise InvalidOperation.
Proof.
  intros Hbig.
  pose proof (ndigits_gt _ 28 ltac:(lia) Hbig) as Hnd.
  unfold quantize, cent. cbn [check_nans].
  change (negb ((Etiny <=? -2) && (-2 <=? Emax))) with false. cbv iota.
  destruct (N.eqb_spec c 0) as [-> | Hc].
  - exfalso. pose proof (rescale_two_places r s 0 e) as Hr. unfold rescale in Hr.
    cbn [N.eqb] in Hr. injection Hr as Hr. rewrite <- Hr in Hbig.
    assert (0 < pow10 28)%N by apply pow10_pos. lia.
  - destruct (Emax <? adjusted c e); [reflexivity |].
    destruct (prec <? adjusted c e - -2 + 1); [reflexivity |].
    rewrite rescale_two_places.
    destruct (Emax <? adjusted (coeff_two_places r c e) (-2)); [reflexivity |].
    replace (prec <? ndigits (coeff_two_places r c e)) with true
      by (symmetry; apply Z.ltb_lt; unfold prec; lia).
    reflexivity.
Qed.

(** ** Reading a written amount *)

Lemma lstrip_no_space (s : string) :
  starts_with_space s = false -> PyStr.lstrip s = s.
Proof. destruct s as [| c t]; cbn; [reflexivity |]. now intros ->. Qed.

Lemma rstrip_no_space (s : string) :
  all_chars (fun c => negb (PyStr.is_space c)) s = true -> PyStr.rstrip s = s.
Proof.
  induction s as [| c t IH]; cbn; [reflexivity |].
  rewrite andb_true_iff, negb_true_iff. intros [Hc Ht].
  rewrite (IH Ht). destruct t; [now rewrite Hc | reflexivity].
Qed.

Lemma strip_no_space (s : string) :
  all_chars (fun c => negb (PyStr.is_space c)) s = true -> PyStr.strip s = s.
Proof.
  intros H. unfold PyStr.strip. rewrite lstrip_no_space.
  - apply rstrip_no_space, H.
  - destruct s as [| c t]; [reflexivity |]. cbn in *.
    apply andb_true_iff in H. destruct H as [H _]. now apply negb_true_iff in H.
Qed.

Lemma replace_absent (old : ascii) (new s : string) :
  all_chars (fun c => negb (Ascii.eqb c old)) s = true -> PyStr.replace old new s = s.
Proof.
  induction s as [| c t IH]; cbn; [reflexivity |].
  rewrite andb_true_iff, negb_true_iff. intros [Hc Ht]. now rewrite Hc, IH.
Qed.

Lemma amount_char_no_space (c : ascii) :
  amount_char c = true -> negb (PyStr.is_space c) = true.
Proof. destruct c as [[] [] [] [] [] [] [] []]; cbn; intros H; try reflexivity; discriminate H. Qed.

Lemma amount_char_no_underscore (c : ascii) :
  amount_char c = true -> negb (Ascii.eqb c "_") = true.
Proof. destruct c as [[] [] [] [] [] [] [] []]; cbn; intros H; try reflexivity; discriminate H. Qed.

Lemma digit_amount_char (c : ascii) : PyStr.is_digit c = true -> amount_char c = true.
Proof. unfold amount_char. now intros ->. Qed.

Lemma digit_not_sign (c : ascii) :
  PyStr.is_digit c = true -> Ascii.eqb c "-" = false /\ Ascii.eqb c "+" = false.
Proof. destruct c as [[] [] [] [] [] [] [] []]; cbn; intros H; try discriminate H; split; reflexivity. Qed.

Lemma span_digits_all (ds : string) :
  all_chars PyStr.is_digit ds = true -> PyStr.span_digits ds = (ds, "").
Proof.
  induction ds as [| c t IH]; cbn; [reflexivity |].
  rewrite andb_true_iff. intros [Hc Ht]. now rewrite Hc, (IH Ht).
Qed.

Lemma span_digits_point (ds rest : string) :
  all_chars PyStr.is_digit ds = true ->
  PyStr.span_digits (ds ^^ String "." rest) = (ds, String "." rest).
Proof.
  induction ds as [| c t IH]; cbn; [reflexivity |].
  rewrite andb_true_iff. intros [Hc Ht]. now rewrite Hc, (IH Ht).
Qed.

Lemma take_drop (n : nat) (s : string) : PyStr.take n s ^^ PyStr.drop n s = s.
Proof.
  revert s. induction n as [| n IH]; intros s; [reflexivity |].
  destruct s as [| c t]; cbn; [reflexivity | now rewrite IH].
Qed.

Lemma length_take (n : nat) (s : string) :
  (n <= String.length s)%nat -> String.length (PyStr.take n s) = n.
Proof.
  revert s. induction n as [| n IH]; intros s H; [reflexivity |].
  destruct s as [| c t]; cbn in *; [lia | rewrite IH; lia].
Qed.

Lemma length_drop (n : nat) (s : string) :
  String.length (PyStr.drop n s) = (String.length s - n)%nat.
Proof.
  revert s. induction n as [| n IH]; intros s; [cbn; lia |].
  destruct s as [| c t]; cbn; [reflexivity | apply IH].
Qed.

Lemma all_chars_take (p : ascii -> bool) (n : nat) (s : string) :
  all_chars p s = true -> all_chars p (PyStr.take n s) = true.
Proof.
  revert s. induction n as [| n IH]; intros s H; [reflexivity |].
  destruct s as [| c t]; cbn in *; [reflexivity |].
  apply andb_true_iff in H. destruct H as [Hc Ht]. now rewrite Hc, IH.
Qed.

Lemma all_chars_drop (p : ascii -> bool) (n : nat) (s : string) :
  all_chars p s = true -> all_chars p (PyStr.drop n s) = true.
Proof.
  revert s. induction n as [| n IH]; intros s H; [exact H |].
  destruct s as [| c t]; cbn in *; [reflexivity |].
  apply andb_true_iff in H. destruct H as [Hc Ht]. now apply IH.
Qed.

Lemma all_chars_zeros (n : nat) : all_chars PyStr.is_digit (PyStr.repeat_char "0" n) = true.
Proof. induction n as [| n IH]; cbn; [reflexivity | exact IH]. Qed.

Lemma length_repeat_char (c : ascii) (n : nat) : String.length (PyStr.repeat_char c n) = n.
Proof. induction n as [| n IH]; cbn; [reflexivity | now rewrite IH]. Qed.

Lemma int_of_digits_from_zeros (n : nat) (s : string) :
  PyStr.int_of_digits_from 0 (PyStr.repeat_char "0" n ^^ s) = PyStr.int_of_digits_from 0 s.
Proof. induction n as [| n IH]; cbn; [reflexivity | exact IH]. Qed.

Lemma amount_char_no_comma (c : ascii) :
  amount_char c = true -> negb (Ascii.eqb c ",") = true.
Proof. destruct c as [[] [] [] [] [] [] [] []]; cbn; intros H; try reflexivity; discriminate H. Qed.

Lemma amount_text_chars (s : bool) (intpart fracpart : string) :
  all_chars PyStr.is_digit intpart = true ->
  all_chars PyStr.is_digit fracpart = true ->
  all_chars amount_char ((if s then "-" else "") ^^ intpart ^^ String "." fracpart) = true.
Proof.
  intros Hi Hf.
  assert (Hbody : all_chars amount_char (intpart ^^ String "." fracpart) = true).
  { rewrite all_chars_append. cbn [all_chars].
    rewrite (all_chars_impl _ _ intpart digit_amount_char Hi).
    rewrite (all_chars_impl _ _ fracpart digit_amount_char Hf). reflexivity. }
  destruct s; cbn; exact Hbody.
Qed.

(** A sign, digits, a point and two digits read back as the number they
    write. *)
Lemma of_string_plain (s : bool) (intpart fracpart : string) :
  intpart <> "" ->
  all_chars PyStr.is_digit intpart = true ->
  all_chars PyStr.is_digit fracpart = true ->
  String.length fracpart = 2%nat ->
  ndigits (PyStr.int_of_digits (intpart ^^ fracpart)) <= 28 ->
  of_string ((if s then "-" else "") ^^ intpart ^^ String "." fracpart)
  = Some (Fin s (PyStr.int_of_digits (intpart ^^ fracpart)) (-2)).
Proof.
  intros Hne Hi Hf Hlen Hnd.
  pose proof (amount_text_chars s intpart fracpart Hi Hf) as Htext.
  set (body := intpart ^^ String "." fracpart) in *.
  unfold of_string.
  rewrite strip_no_space by (eapply all_chars_impl; [apply amount_char_no_space | exact Htext]).
  rewrite replace_absent
    by (eapply all_chars_impl; [apply amount_char_no_underscore | exact Htext]).
  destruct intpart as [| c0 rest]; [contradiction |].
  cbn [all_chars] in Hi. apply andb_true_iff in Hi. destruct Hi as [Hc0 Hrest].
  destruct (digit_not_sign c0 Hc0) as [Hm Hp].
  assert (Hsplit : split_sign ((if s then "-" else "") ^^ body) = (s, body)).
  { destruct s; [reflexivity |]. unfold body. cbn. now rewrite Hm, Hp. }
  unfold parse. rewrite Hsplit.
  assert (Hstart : starts_number body = true) by (unfold body; cbn; now rewrite Hc0).
  rewrite Hstart. unfold parse_finite, body.
  rewrite span_digits_point by (cbn [all_chars]; now rewrite Hc0, Hrest).
  rewrite Ascii.eqb_refl, (span_digits_all fracpart Hf).
  cbn [parse_exponent]. cbv zeta. rewrite Hlen. change (0 - Z.of_nat 2) with (-2).
  pose proof (ndigits_pos (PyStr.int_of_digits (String c0 rest ^^ fracpart))) as Hpos.
  unfold exact, adjusted, MIN_ETINY, MAX_EMAX.
  replace (-2 + ndigits (PyStr.int_of_digits (String c0 rest ^^ fracpart)) - 1
           <=? 999999999999999999) with true by (symmetry; apply Z.leb_le; lia).
  reflexivity.
Qed.

(** The text of a number with two places: the digits before the last two,
    a point, and the last two digits, with zeros where digits are missing. *)
Lemma to_str_two_places (s : bool) (c : N) :
  exists intpart fracpart,
    to_str (Fin s c (-2)) = (if s then "-" else "") ^^ intpart ^^ String "." fracpart /\
    intpart <> "" /\
    all_chars PyStr.is_digit intpart = true /\
    all_chars PyStr.is_digit fracpart = true /\
    String.length fracpart = 2%nat /\
    PyStr.int_of_digits (intpart ^^ fracpart) = c.
Proof.
  pose proof (int_of_digits_str_N c) as Hval.
  pose proof (str_N_digits c) as Hdig.
  pose proof (ndigits_pos c) as Hpos. unfold ndigits in Hpos.
  unfold to_str.
  set (digits := PyStr.str_N c) in *.
  set (len := Z.of_nat (String.length digits)) in *.
  assert (Hlen : len = Z.of_nat (String.length digits)) by reflexivity.
  clearbody len. cbv zeta.
  replace ((-2 <=? 0) && (-6 <? -2 + len)) with true
    by (symmetry; apply andb_true_iff; split; [reflexivity | apply Z.ltb_lt; lia]).
  rewrite Z.eqb_refl, !append_nil_r.
  destruct (Z.leb_spec (-2 + len) 0) as [Hsmall | Hbig].
  - exists "0", (PyStr.repeat_char "0" (Z.to_nat (- (-2 + len))) ^^ digits).
    split; [reflexivity |].
    split; [discriminate |].
    split; [reflexivity |].
    split; [rewrite all_chars_append, all_chars_zeros; exact Hdig |].
    split; [rewrite length_append, length_repeat_char; lia |].
    unfold PyStr.int_of_digits in *. cbn [String.append PyStr.int_of_digits_from].
    change (0 * 10 + PyStr.digit_val "0")%N with 0%N.
    rewrite int_of_digits_from_zeros. exact Hval.
  - replace (len <=? -2 + len) with false by (symmetry; apply Z.leb_gt; lia).
    exists (PyStr.take (Z.to_nat (-2 + len)) digits), (PyStr.drop (Z.to_nat (-2 + len)) digits).
    split; [reflexivity |].
    split.
    { intros E. pose proof (length_take (Z.to_nat (-2 + len)) digits ltac:(lia)) as Hl.
      rewrite E in Hl. cbn [String.length] in Hl. lia. }
    split; [apply all_chars_take, Hdig |].
    split; [apply all_chars_drop, Hdig |].
    split; [rewrite length_drop; lia |].
    rewrite take_drop. exact Hval.
Qed.

(** An amount with two places and at most 28 digits is read back from the
    text that is stored for it. *)
Lemma d_to_str_two_places (s : bool) (c : N) :
  ndigits c <= 28 -> d (to_str (Fin s c (-2))) = Ok (Fin s c (-2)).
Proof.
  intros Hn.
  destruct (to_str_two_places s c) as (i & f & Htxt & Hne & Hi & Hf & Hlen & Hval).
  unfold d. rewrite Htxt, (of_string_plain s i f Hne Hi Hf Hlen) by (rewrite Hval; exact Hn).
  rewrite Hval.
  assert (Hc : coeff_two_places ROUND_HALF_UP c (-2) = c).
  { unfold coeff_two_places. cbn. apply N.mul_1_r. }
  rewrite quantize_two_places_fits; rewrite Hc; [reflexivity |].
  apply N.lt_le_trans with (pow10 (ndigits c)); [apply ndigits_lt | apply pow10_le, Hn].
Qed.




Lemma app_d_to_str_two_places (s : bool) (c : N) :
  App.d (to_str (Fin s c (-2))) = d (to_str (Fin s c (-2))).
Proof.
  destruct (to_str_two_places s c) as (i & f & Htxt & _ & Hi & Hf & _).
  unfold App.d, d. rewrite Htxt.
  rewrite replace_absent; [reflexivity |].
  eapply all_chars_impl; [apply amount_char_no_comma | apply amount_text_chars; assumption].
Qed.

(** The guard of [per_day]: without days left the figure is 0.00. *)
Lemma per_day_of_guard (remaining : Decimal) (days_left : Z) :
  days_left <= 0 -> per_day_of remaining days_left = Ok zero_00.
Proof.
  intros H. unfold per_day_of.
  replace (0 <? days_left) with false by (symmetry; apply Z.ltb_ge, H). reflexivity.
Qed.

(** * The claims *)

(** C1: the end-to-end example.  On 2026-01-15 the ledger of the example
    has base income 50000.00, extra income 2000.00 and expenses 15000.00
    (the expense of 2025-12-20 is outside the window of the month), so
    37000.00 remain, for 17 days, 2176.47 a day. *)
Theorem example_month_summary :
  totals_for_month example_state example_today
    = Ok (Fin false 5000000 (-2), Fin false 200000 (-2), Fin false 1500000 (-2)) /\
  remaining_and_per_day example_state example_today
    = Ok (Fin false 3700000 (-2), Fin false 217647 (-2), 17) /\
  (to_str (Fin false 5000000 (-2)), to_str (Fin false 200000 (-2)),
   to_str (Fin false 1500000 (-2)), to_str (Fin false 3700000 (-2)),
   to_str (Fin false 217647 (-2)))
    = ("50000.00", "2000.00", "15000.00", "37000.00", "2176.47") /\
  sum_window d e_dt e_amount (Cal.mkdate 2026 1 1) (Cal.mkdate 2026 1 31)
    [mkExpense "5000.00" "Comida" "2025-12-20" ""] = Ok zero.
Proof. repeat split; vm_compute; reflexivity. Qed.

(** C2: [set_monthly_income] keeps the invariant of one row for each person
    and month.  A row of the person and the month is overwritten where it
    is, the others and the order stay; without one, a single row is added
    at the end.  Afterwards the pair has exactly one row, with the amount
    given, and so after a second call with another amount, which adds no
    row.  The other parts of the state are not touched. *)
Theorem set_monthly_income_upsert
    (st : State) (person month_key : string) (amount amount2 : Decimal) :
  one_per_key (monthly_incomes st) ->
  let st1 := set_monthly_income st person amount month_key in
  let st2 := set_monthly_income st1 person amount2 month_key in
  one_per_key (monthly_incomes st1) /\
  (rows_of person month_key (monthly_incomes st) <> [] ->
   monthly_incomes st1 =
     map (fun row => if same_key person month_key row
                     then with_amount (to_str amount) row else row)
         (monthly_incomes st)) /\
  (rows_of person month_key (monthly_incomes st) = [] ->
   monthly_incomes st1 =
     (monthly_incomes st ++ [mkIncome person (to_str amount) month_key])%list) /\
  rows_of person month_key (monthly_incomes st1)
    = [mkIncome person (to_str amount) month_key] /\
  one_per_key (monthly_incomes st2) /\
  rows_of person month_key (monthly_incomes st2)
    = [mkIncome person (to_str amount2) month_key] /\
  List.length (monthly_incomes st2) = List.length (monthly_incomes st1) /\
  (categories st1, people st1, extra_incomes st1, expenses st1)
    = (categories st, people st, extra_incomes st, expenses st).
Proof.
  intros Hinv st1 st2. subst st1 st2.
  rewrite !monthly_incomes_set.
  pose proof (upsert_invariant (monthly_incomes st) person (to_str amount) month_key Hinv)
    as Hinv1.
  pose proof (upsert_rows (monthly_incomes st) person (to_str amount) month_key Hinv)
    as Hrows1.
  repeat split.
  - exact Hinv1.
  - intros Hne. unfold upsert.
    destruct (overwrite_first (monthly_incomes st) person (to_str amount) month_key)
      as [l' |] eqn:Ho.
    + now apply overwrite_first_Some.
    + apply overwrite_first_None in Ho. contradiction.
  - intros He. unfold upsert.
    apply overwrite_first_None with (a := to_str amount) in He. now rewrite He.
  - exact Hrows1.
  - now apply upsert_invariant.
  - now apply upsert_rows.
  - apply upsert_length_present. rewrite Hrows1. discriminate.
  - unfold set_monthly_income.
    destruct (overwrite_first (monthly_incomes st) person (to_str amount) month_key);
      reflexivity.
Qed.

Lemma set_monthly_income_upsert_witness :
  rows_of "Ana" "2026-01"
    (monthly_incomes
       (set_monthly_income
          (set_monthly_income example_state "Ana" (Fin false 100000 (-2)) "2026-01")
          "Ana" (Fin false 250050 (-2)) "2026-01"))
  = [mkIncome "Ana" "2500.50" "2026-01"].
Proof.
  assert (Hinv : one_per_key (monthly_incomes example_state)).
  { intros p m. unfold rows_of. cbn [monthly_incomes example_state filter].
    destruct (same_key p m _); cbn; lia. }
  exact (proj1 (proj2 (proj2 (proj2 (proj2 (proj2
    (set_monthly_income_upsert example_state "Ana" "2026-01"
       (Fin false 100000 (-2)) (Fin false 250050 (-2)) Hinv))))))).
Defined.

(** C3, counterexample: after "Comida", the item " comida " is accepted and
    the list has two entries. *)
Lemma ensure_unique_add_other_case_accepted :
  ensure_unique_add [] "Comida" = (true, ["Comida"]) /\
  ensure_unique_add ["Comida"] " comida " = (true, ["Comida"; "comida"]) /\
  ~ (fst (ensure_unique_add ["Comida"] " comida ") = false /\
     List.length (snd (ensure_unique_add ["Comida"] " comida ")) = 1%nat).
Proof.
  split; [reflexivity | split; [reflexivity |]].
  intros [H _]. discriminate H.
Qed.

(** C3, as amended: [ensure_unique_add] trims the item; the answer is false
    exactly when the trimmed item is empty or is an entry of the list, the
    comparison being exact (capitals matter); otherwise the trimmed item is
    added and the list is sorted by lower-cased name, and the answer is
    true.  With "Comida" and then " Comida " the answers are true and false
    and the list has one entry; " comida " is another entry.  The form has
    the same function. *)
Theorem ensure_unique_add_contract (lst : list string) (item : string) :
  let item' := PyStr.strip item in
  let r := fst (ensure_unique_add lst item) in
  let lst' := snd (ensure_unique_add lst item) in
  trimmed item' = true /\
  (r = false <-> item' = "" \/ In item' lst) /\
  (r = false -> lst' = lst) /\
  (r = true ->
   Permutation lst' (lst ++ [item']) /\ Sorted lower_le lst' /\
   List.length lst' = S (List.length lst)) /\
  App.ensure_unique_add lst item = ensure_unique_add lst item /\
  ensure_unique_add [] "Comida" = (true, ["Comida"]) /\
  ensure_unique_add ["Comida"] " Comida " = (false, ["Comida"]) /\
  ensure_unique_add ["Comida"] " comida " = (true, ["Comida"; "comida"]).
Proof.
  intros item' r lst'. subst item' r lst'.
  split; [apply strip_trimmed |].
  split; [apply ensure_unique_add_false_iff |].
  split; [apply ensure_unique_add_false_same |].
  split; [| split; [apply app_ensure_unique_add_same | repeat split]].
  intros Ht. rewrite (ensure_unique_add_true_list lst item Ht).
  pose proof (sort_by_perm PyStr.lower (lst ++ [PyStr.strip item])) as Hp.
  split; [exact Hp | split].
  - apply sort_by_sorted.
  - rewrite (Permutation_length Hp), length_app. cbn. lia.
Qed.

Lemma ensure_unique_add_contract_witness :
  snd (ensure_unique_add ["Comida"] " Comida ") = ["Comida"].
Proof.
  apply (proj1 (proj2 (proj2 (ensure_unique_add_contract ["Comida"] " Comida ")))).
  reflexivity.
Defined.

(** C4, counterexample: 1e26 is a number, and [d] raises on it, because
    its two-place form needs more than the 28 digits of the context. *)
Lemma d_raises_beyond_precision :
  of_string "1e26" = Some (Fin false 1 26) /\
  d "1e26" = Raise InvalidOperation /\
  ~ (exists r, d "1e26" = Ok r).
Proof.
  split; [reflexivity | split; [vm_compute; reflexivity |]].
  intros [r Hr]. vm_compute in Hr. discriminate Hr.
Qed.

(** C4, as amended: on the text of a finite number, [d] returns when the
    coefficient of the two-place result has at most 28 digits, and raises
    InvalidOperation otherwise.  The result has the sign of the number and
    exponent -2; it is the number itself when that has at most two places,
    and else the nearest multiple of 0.01, the one of larger magnitude when
    two are equally near (half up, away from zero): 0.005 gives 0.01, 1.005
    gives 1.01 and -0.005 gives -0.01. *)
Theorem d_rounds_half_up (value : string) (s : bool) (c : N) (e : Z) :
  of_string value = Some (Fin s c e) ->
  let c' := coeff_two_places ROUND_HALF_UP c e in
  let p := pow10 (-2 - e) in
  ((c' < pow10 28)%N -> d value = Ok (Fin s c' (-2))) /\
  ((pow10 28 <= c')%N -> d value = Raise InvalidOperation) /\
  (-2 <= e -> c' = (c * pow10 (e + 2))%N) /\
  (e < -2 -> (2 * c < 2 * c' * p + p /\ 2 * c' * p <= 2 * c + p)%N) /\
  d "0.005" = Ok (Fin false 1 (-2)) /\
  d "1.005" = Ok (Fin false 101 (-2)) /\
  d "-0.005" = Ok (Fin true 1 (-2)).
Proof.
  intros Hv c' p. subst c' p.
  split; [| split; [| split; [| split]]].
  - intros H. unfold d. rewrite Hv. now apply quantize_two_places_fits.
  - intros H. unfold d. rewrite Hv. now apply quantize_two_places_too_big.
  - intros He. unfold coeff_two_places.
    replace (-2 <=? e) with true by (symmetry; apply Z.leb_le, He). reflexivity.
  - intros He. apply coeff_half_up_nearest, He.
  - repeat split; vm_compute; reflexivity.
Qed.

Lemma d_rounds_half_up_witness :
  d "2.675" = Ok (Fin false 268 (-2)).
Proof.
  apply (proj1 (d_rounds_half_up "2.675" false 2675 (-3) eq_refl)).
  vm_compute. reflexivity.
Defined.

(** C5, counterexample: 9999-12-31 is a date, and [month_end] raises on it
    (the first day of the next month is not a date). *)
Lemma month_end_date_max_raises :
  Cal.valid date_max = true /\
  month_end date_max = Raise ValueError /\
  ~ (exists e, month_end date_max = Ok e).
Proof.
  split; [reflexivity | split; [reflexivity |]].
  intros [e He]. discriminate He.
Qed.

(** C5, as amended: for every date outside December 9999, [month_end] gives
    the last day of the month of that year: same year and month, the day
    the Gregorian rule gives (28 to 31, 29 for a leap-year February), a
    date whose next day number is not one; the result is the same from the
    first day of the month; a date in December stays in its year.  For
    every date in December 9999 [month_end] raises ValueError. *)
Theorem month_end_last_day (dt : Cal.date) :
  Cal.valid dt = true ->
  (~ (Cal.year dt = 9999 /\ Cal.month dt = 12) ->
   exists e,
      month_end dt = Ok e /\
      Cal.year e = Cal.year dt /\ Cal.month e = Cal.month dt /\
      Cal.day e = gregorian_last_day (Cal.year dt) (Cal.month dt) /\
      In (Cal.day e) [28; 29; 30; 31] /\
      Cal.valid e = true /\
      Cal.valid (Cal.mkdate (Cal.year e) (Cal.month e) (Cal.day e + 1)) = false /\
      (exists s, month_start dt = Ok s /\ month_end s = Ok e) /\
      (Cal.month dt = 12 -> e = Cal.mkdate (Cal.year dt) 12 31)) /\
  (Cal.year dt = 9999 /\ Cal.month dt = 12 ->
   month_end dt = Raise ValueError /\ forall e, month_end dt <> Ok e) /\
  month_end (Cal.mkdate 2024 2 10) = Ok (Cal.mkdate 2024 2 29) /\
  month_end (Cal.mkdate 2023 2 10) = Ok (Cal.mkdate 2023 2 28).
Proof.
  intros Hv. split; [| split; [| split; reflexivity]].
  - intros Hne.
    destruct (valid_fields dt Hv) as (Hy & Hm & Hd).
    pose proof (days_in_month_bounds (Cal.year dt) (Cal.month dt) Hm) as Hb.
    pose proof (days_in_month_gregorian (Cal.year dt) (Cal.month dt) Hm) as Hg.
    eexists. split; [apply month_end_spec; assumption |].
    cbn [Cal.year Cal.month Cal.day].
    repeat split.
    + exact Hg.
    + cbn [In]. lia.
    + apply valid_intro; lia.
    + unfold Cal.valid. cbn [Cal.year Cal.month Cal.day].
      rewrite !andb_false_iff, Z.leb_gt. right. lia.
    + exists (Cal.mkdate (Cal.year dt) (Cal.month dt) 1). split.
      * unfold month_start, Cal.replace, Cal.make.
        rewrite valid_intro by lia. reflexivity.
      * apply (month_end_spec (Cal.mkdate (Cal.year dt) (Cal.month dt) 1)).
        -- apply valid_intro; lia.
        -- exact Hne.
    + intros H12. rewrite H12. reflexivity.
  - intros [Hy Hm]. rewrite (month_end_december_9999 dt Hy Hm).
    split; [reflexivity | discriminate].
Qed.

Lemma month_end_last_day_witness :
  (exists e, month_end (Cal.mkdate 2024 2 10) = Ok e /\ Cal.day e = 29) /\
  month_end (Cal.mkdate 9999 12 5) = Raise ValueError.
Proof.
  split.
  - destruct (month_end_last_day (Cal.mkdate 2024 2 10) eq_refl) as [H _].
    destruct H as [e H].
    + cbn. intros [H _]. discriminate H.
    + exists e. destruct H as (He & _ & _ & Hd & _). split; [exact He | exact Hd].
  - apply (proj1 (proj2 (month_end_last_day (Cal.mkdate 9999 12 5) eq_refl))).
    split; reflexivity.
Defined.

(** C6, counterexample: on 9999-12-31 there is no number of remaining days,
    [days_remaining_in_month] raises. *)
Lemma days_remaining_date_max_raises :
  Cal.valid date_max = true /\
  days_remaining_in_month date_max = Raise ValueError /\
  ~ (exists n, days_remaining_in_month date_max = Ok n /\ 1 <= n).
Proof.
  split; [reflexivity | split; [reflexivity |]].
  intros [n [Hn _]]. discriminate Hn.
Qed.

(** C6, as amended: for every date outside December 9999,
    [days_remaining_in_month] is the days from the date to the end of its
    month plus one, which is at least 1, and it is 1 on the last day of the
    month.  For every date in December 9999 it raises ValueError, the one
    of [month_end]. *)
Theorem days_remaining_at_least_one (dt : Cal.date) :
  Cal.valid dt = true ->
  (~ (Cal.year dt = 9999 /\ Cal.month dt = 12) ->
   exists e n,
    month_end dt = Ok e /\
    days_remaining_in_month dt = Ok n /\
    n = Cal.diff_days e dt + 1 /\
    n = Cal.days_in_month (Cal.year dt) (Cal.month dt) - Cal.day dt + 1 /\
    1 <= n /\
    days_remaining_in_month e = Ok 1) /\
  (Cal.year dt = 9999 /\ Cal.month dt = 12 ->
   month_end dt = Raise ValueError /\
   days_remaining_in_month dt = Raise ValueError /\
   forall n, days_remaining_in_month dt <> Ok n).
Proof.
  intros Hv. split.
  - intros Hne.
    destruct (valid_fields dt Hv) as (Hy & Hm & Hd).
    pose proof (days_in_month_bounds (Cal.year dt) (Cal.month dt) Hm) as Hb.
    pose proof (month_end_spec dt Hv Hne) as He.
    set (e := Cal.mkdate (Cal.year dt) (Cal.month dt)
                (Cal.days_in_month (Cal.year dt) (Cal.month dt))) in *.
    assert (Hdiff : Cal.diff_days e dt =
                    Cal.days_in_month (Cal.year dt) (Cal.month dt) - Cal.day dt).
    { unfold Cal.diff_days, Cal.toordinal, Cal.ymd2ord, e.
      cbn [Cal.year Cal.month Cal.day]. lia. }
    exists e, (Cal.diff_days e dt + 1).
    split; [exact He |].
    split; [unfold days_remaining_in_month; rewrite He; reflexivity |].
    split; [reflexivity |].
    split; [lia |].
    split; [lia |].
    assert (Hve : Cal.valid e = true) by (apply valid_intro; lia).
    unfold days_remaining_in_month.
    rewrite (month_end_spec e Hve Hne). subst e.
    cbn [bind Cal.year Cal.month Cal.day].
    unfold Cal.diff_days. f_equal. lia.
  - intros [Hy Hm]. unfold days_remaining_in_month.
    rewrite (month_end_december_9999 dt Hy Hm). cbn [bind].
    split; [reflexivity | split; [reflexivity | discriminate]].
Qed.

Lemma days_remaining_at_least_one_witness :
  (exists e n, month_end example_today = Ok e /\
               days_remaining_in_month example_today = Ok n /\ n = 17) /\
  days_remaining_in_month (Cal.mkdate 9999 12 5) = Raise ValueError.
Proof.
  split.
  - destruct (days_remaining_at_least_one example_today eq_refl) as [H _].
    destruct H as (e & n & H).
    + cbn. intros [H _]. discriminate H.
    + exists e, n. destruct H as (He & Hn & _ & Hd & _).
      split; [exact He | split; [exact Hn | exact Hd]].
  - apply (proj2 (days_remaining_at_least_one (Cal.mkdate 9999 12 5) eq_refl)).
    split; reflexivity.
Defined.

(** C7: the per-day figure is not the half-up rounding of the quotient.
    With one cent remaining and two days left the quotient is 0.005; the
    program gives 0.00 (the [quantize] of the context rounds half to even)
    where [d] gives 0.01. *)
Theorem per_day_rounds_half_even :
  remaining_and_per_day one_cent_state jan_30
    = Ok (Fin false 1 (-2), Fin false 0 (-2), 2) /\
  App.refresh_summary one_cent_state jan_30
    = Ok (Fin false 1 (-2), Fin false 0 (-2), 2) /\
  truediv (Fin false 1 (-2)) (of_int 2) = Ok (Fin false 5 (-3)) /\
  per_day_of (Fin false 1 (-2)) 2 = Ok (Fin false 0 (-2)) /\
  d_Decimal (Fin false 5 (-3)) = Ok (Fin false 1 (-2)) /\
  per_day_of (Fin false 1 (-2)) 0 = Ok (Fin false 0 (-2)).
Proof. repeat split; vm_compute; reflexivity. Qed.




(** C9: the text NaN is not a number, and [d] returns the value NaN for it
    instead of raising ValueError, in both programs; the ledger then has
    NaN as its remaining balance.  (A comma is taken for the point in the
    form and in the console reading, and a text that the Decimal
    constructor refuses gives ValueError; Infinity gets past the
    constructor and fails in [quantize] with InvalidOperation.) *)
Theorem d_returns_nan :
  d "NaN" = Ok (NaN false false 0) /\
  App.d "NaN" = Ok (NaN false false 0) /\
  input_decimal_read "NaN" = Ok (NaN false false 0) /\
  remaining_and_per_day nan_state example_today
    = Ok (NaN false false 0, NaN false false 0, 17) /\
  d "Infinity" = Raise InvalidOperation /\
  App.d "12,50" = Ok (Fin false 1250 (-2)) /\
  input_decimal_read "12,50" = Ok (Fin false 1250 (-2)) /\
  d "12.50" = Ok (Fin false 1250 (-2)) /\
  d "12,50" = Raise ValueError /\
  d "abc" = Raise ValueError /\
  App.d "12;50" = Raise ValueError.
Proof. repeat split; vm_compute; reflexivity. Qed.

(** C10: when [ensure_unique_add] answers false, which it does when the
    trimmed item is empty or already an entry, the list it was given is the
    list afterwards; the same holds in the form. *)
Theorem ensure_unique_add_rejected_unchanged (lst : list string) (item : string) :
  fst (ensure_unique_add lst item) = false ->
  snd (ensure_unique_add lst item) = lst /\
  (PyStr.strip item = "" \/ In (PyStr.strip item) lst) /\
  App.ensure_unique_add lst item = (false, lst).
Proof.
  intros Hf.
  pose proof (ensure_unique_add_false_same lst item Hf) as Hs.
  split; [exact Hs |].
  split; [now apply ensure_unique_add_false_iff |].
  rewrite app_ensure_unique_add_same.
  destruct (ensure_unique_add lst item) as [r l]. cbn in *. now subst.
Qed.

Lemma ensure_unique_add_rejected_unchanged_witness :
  snd (ensure_unique_add ["Comida"; "Luz"] "  Luz ") = ["Comida"; "Luz"].
Proof.
  apply (ensure_unique_add_rejected_unchanged ["Comida"; "Luz"] "  Luz ").
  reflexivity.
Defined.

(** * Further properties *)

(** ** Stripped text *)

Lemma rstrip_no_trailing (s : string) :
  ends_with_space s = false -> PyStr.rstrip s = s.
Proof.
  induction s as [| c t IH]; [reflexivity |].
  cbn [ends_with_space PyStr.rstrip]. destruct t as [| c' t'].
  - intros ->. reflexivity.
  - intros H. rewrite (IH H). reflexivity.
Qed.

Lemma strip_of_trimmed (s : string) : trimmed s = true -> PyStr.strip s = s.
Proof.
  unfold trimmed. rewrite andb_true_iff, !negb_true_iff. intros [Hs He].
  unfold PyStr.strip. rewrite lstrip_no_space by exact Hs.
  apply rstrip_no_trailing, He.
Qed.

Lemma strip_idempotent (s : string) : PyStr.strip (PyStr.strip s) = PyStr.strip s.
Proof. apply strip_of_trimmed, strip_trimmed. Qed.


(** ** Dates as text *)

Lemma year_text_checked : forallb year_text_check all_years = true.
Proof. vm_compute. reflexivity. Qed.

Lemma month_day_text_checked :
  forallb (fun m => forallb (month_day_text_check m) all_days) all_months = true.
Proof. vm_compute. reflexivity. Qed.

Lemma zfill_digits (w : nat) (n : Z) : all_chars PyStr.is_digit (Cal.zfill w n) = true.
Proof.
  unfold Cal.zfill. rewrite all_chars_append, all_chars_zeros, str_N_digits. reflexivity.
Qed.

Lemma isoformat_chars (dt : Cal.date) : all_chars amount_char (Cal.isoformat dt) = true.
Proof.
  unfold Cal.isoformat. rewrite !all_chars_append. cbn [all_chars].
  rewrite !(all_chars_impl _ _ _ digit_amount_char (zfill_digits _ _)). reflexivity.
Qed.

Lemma strptime_isoformat (dt : Cal.date) :
  Cal.valid dt = true -> Cal.strptime_Ymd (Cal.isoformat dt) = Ok dt.
Proof.
  intros Hv. destruct (valid_fields dt Hv) as (Hy & Hm & Hd).
  pose proof (days_in_month_bounds (Cal.year dt) (Cal.month dt) Hm) as Hb.
  destruct dt as [y m d]. cbn [Cal.year Cal.month Cal.day] in *.
  pose proof year_text_checked as Cy. rewrite forallb_forall in Cy.
  specialize (Cy y (in_range_list 1 (Z.to_nat 9999) y ltac:(lia))).
  pose proof month_day_text_checked as Cm. rewrite forallb_forall in Cm.
  specialize (Cm m (in_range_list 1 12 m ltac:(lia))). rewrite forallb_forall in Cm.
  specialize (Cm d (in_range_list 1 31 d ltac:(lia))).
  unfold Cal.isoformat, Cal.strptime_Ymd. cbn [Cal.year Cal.month Cal.day].
  unfold year_text_check in Cy.
  destruct (Cal.zfill 4 y) as [| a [| b [| c [| e [| ? ?]]]]]; try discriminate Cy.
  rewrite !andb_true_iff in Cy. destruct Cy as [[[[Ha Hb'] Hc] He] Hval].
  apply Z.eqb_eq in Hval.
  cbn [String.append Cal.match_year]. rewrite Ha, Hb', Hc, He. cbn [andb].
  unfold month_day_text_check in Cm.
  change (Cal.zfill 2 m ^^ String "-" (Cal.zfill 2 d))
    with (Cal.zfill 2 m ^^ "-" ^^ Cal.zfill 2 d).
  destruct (Cal.match_month_hyphen (Cal.zfill 2 m ^^ "-" ^^ Cal.zfill 2 d))
    as [[m' r] |]; [| discriminate Cm].
  apply andb_true_iff in Cm. destruct Cm as [Hm' Hd'].
  apply Z.eqb_eq in Hm'.
  destruct (Cal.match_day r) as [d' |]; [| discriminate Hd'].
  apply Z.eqb_eq in Hd'. subst m' d'. rewrite Hval.
  unfold Cal.make. rewrite Hv. reflexivity.
Qed.

Lemma parse_date_iso_ok (dt : Cal.date) :
  Cal.valid dt = true -> parse_date (Cal.isoformat dt) = Ok dt.
Proof.
  intros Hv. unfold parse_date.
  rewrite strip_no_space
    by (eapply all_chars_impl; [apply amount_char_no_space | apply isoformat_chars]).
  apply strptime_isoformat, Hv.
Qed.

Lemma parse_date_valid (s : string) (dt : Cal.date) :
  parse_date s = Ok dt -> Cal.valid dt = true.
Proof.
  unfold parse_date, Cal.strptime_Ymd, Cal.make.
  destruct (Cal.match_year _) as [[y [| c r1]] |]; try discriminate.
  destruct c as [[] [] [] [] [] [] [] []]; try discriminate.
  destruct (Cal.match_month_hyphen r1) as [[m r2] |]; [| discriminate].
  destruct (Cal.match_day r2) as [dd |]; [| discriminate].
  destruct (Cal.valid (Cal.mkdate y m dd)) eqn:E; [| discriminate].
  intros [= <-]. exact E.
Qed.

(** X1: a date is read back from its ISO text, which is how the ledger
    stores the dates of expenses and extra incomes; and every date that
    [parse_date] returns is a date of the calendar, read the same with
    spaces around the text. *)
Theorem parse_date_isoformat (dt : Cal.date) (s : string) :
  Cal.valid dt = true ->
  parse_date (Cal.isoformat dt) = Ok dt /\
  parse_date (PyStr.strip s) = parse_date s /\
  (forall dt', parse_date s = Ok dt' ->
     Cal.valid dt' = true /\ parse_date (Cal.isoformat dt') = Ok dt').
Proof.
  intros Hv. split; [apply parse_date_iso_ok, Hv |].
  split; [unfold parse_date; now rewrite strip_idempotent |].
  intros dt' H. pose proof (parse_date_valid s dt' H) as Hv'.
  split; [exact Hv' | apply parse_date_iso_ok, Hv'].
Qed.

Lemma parse_date_isoformat_witness :
  parse_date (Cal.isoformat example_today) = Ok example_today.
Proof. exact (proj1 (parse_date_isoformat example_today "" eq_refl)). Defined.

(** ** The window of a month *)

(** X2: [month_start] gives the first day of the month of a date; with
    [month_end] it bounds a window that holds exactly the dates of that
    year and month, the date itself among them. *)
Theorem month_window (today x : Cal.date) :
  Cal.valid today = true ->
  ~ (Cal.year today = 9999 /\ Cal.month today = 12) ->
  Cal.valid x = true ->
  exists s e,
    month_start today = Ok s /\ month_end today = Ok e /\
    s = Cal.mkdate (Cal.year today) (Cal.month today) 1 /\
    month_start s = Ok s /\
    Cal.leb s today && Cal.leb today e = true /\
    (Cal.leb s x && Cal.leb x e = true <->
     Cal.year x = Cal.year today /\ Cal.month x = Cal.month today).
Proof.
  intros Hv Hne Hx.
  destruct (valid_fields today Hv) as (Hy & Hm & Hd).
  destruct (valid_fields x Hx) as (Hxy & Hxm & Hxd).
  pose proof (days_in_month_bounds (Cal.year today) (Cal.month today) Hm) as Hb.
  exists (Cal.mkdate (Cal.year today) (Cal.month today) 1),
         (Cal.mkdate (Cal.year today) (Cal.month today)
            (Cal.days_in_month (Cal.year today) (Cal.month today))).
  assert (Hs : forall dt, Cal.year dt = Cal.year today -> Cal.month dt = Cal.month today ->
               month_start dt = Ok (Cal.mkdate (Cal.year today) (Cal.month today) 1)).
  { intros dt Ey Em. unfold month_start, Cal.replace, Cal.make. rewrite Ey, Em.
    rewrite valid_intro by lia. reflexivity. }
  split; [apply Hs; reflexivity |].
  split; [apply month_end_spec; assumption |].
  split; [reflexivity |].
  split; [apply Hs; reflexivity |].
  unfold Cal.leb. cbn [Cal.year Cal.month Cal.day].
  split.
  - rewrite andb_true_iff, !orb_true_iff, !andb_true_iff, !orb_true_iff, !andb_true_iff,
      !Z.ltb_lt, !Z.eqb_eq, !Z.leb_le. lia.
  - rewrite andb_true_iff, !orb_true_iff, !andb_true_iff, !orb_true_iff, !andb_true_iff,
      !Z.ltb_lt, !Z.eqb_eq, !Z.leb_le.
    split; [lia |]. intros [Ey Em]. rewrite Ey, Em in Hxd. lia.
Qed.

Lemma month_window_witness :
  exists s e, month_start example_today = Ok s /\ month_end example_today = Ok e /\
              Cal.leb s (Cal.mkdate 2026 1 10) && Cal.leb (Cal.mkdate 2026 1 10) e = true.
Proof.
  destruct (month_window example_today (Cal.mkdate 2026 1 10)) as (s & e & Hs & He & _ & _ & _ & Hw).
  - reflexivity.
  - cbn. intros [H _]. discriminate H.
  - reflexivity.
  - exists s, e. split; [exact Hs | split; [exact He |]].
    apply Hw. split; reflexivity.
Defined.

(** ** What [d] returns *)

Lemma fix_nan_payload (s sig : bool) (diag : N) :
  exists diag', fix_nan s sig diag = NaN s sig diag' /\ ndigits diag' <= 28.
Proof.
  unfold fix_nan, prec. destruct (Z.ltb_spec 28 (ndigits diag)) as [H | H].
  - eexists. split; [reflexivity |].
    apply ndigits_le; [lia |]. apply N.mod_lt. pose proof (pow10_pos 28). lia.
  - eexists. split; [reflexivity | exact H].
Qed.

Lemma quantize_cent_shape (r : rounding) (x y : Decimal) :
  quantize x cent r = Ok y -> two_place_amount y.
Proof.
  destruct x as [s c e | s | s sig diag].
  - destruct (N.lt_ge_cases (coeff_two_places r c e) (pow10 28)) as [H | H].
    + rewrite (quantize_two_places_fits r s c e H). intros [= <-]. cbn.
      split; [reflexivity | apply ndigits_le; [lia | exact H]].
    + rewrite (quantize_two_places_too_big r s c e H). discriminate.
  - cbn. discriminate.
  - unfold quantize, cent. destruct sig; cbn [check_nans]; [discriminate |].
    destruct (fix_nan_payload s false diag) as (diag' & -> & Hd).
    intros [= <-]. cbn. split; [reflexivity | exact Hd].
Qed.

Lemma d_shape (value : string) (x : Decimal) : d value = Ok x -> two_place_amount x.
Proof.
  unfold d. destruct (of_string value); [apply quantize_cent_shape | discriminate].
Qed.

Lemma app_d_shape (value : string) (x : Decimal) : App.d value = Ok x -> two_place_amount x.
Proof.
  unfold App.d. destruct (of_string _); [apply quantize_cent_shape | discriminate].
Qed.

(** The text of a quiet NaN reads back as that NaN. *)
Lemma lower_digits (ds : string) :
  all_chars PyStr.is_digit ds = true -> PyStr.lower ds = ds.
Proof.
  induction ds as [| c t IH]; cbn; [reflexivity |].
  rewrite andb_true_iff. intros [Hc Ht]. rewrite (IH Ht). f_equal.
  revert Hc. destruct c as [[] [] [] [] [] [] [] []]; cbn; intros H; try reflexivity; discriminate H.
Qed.

Lemma nan_char_plain (c : ascii) :
  nan_char c = true ->
  negb (PyStr.is_space c) = true /\ negb (Ascii.eqb c "_") = true /\
  negb (Ascii.eqb c ",") = true.
Proof.
  destruct c as [[] [] [] [] [] [] [] []]; cbn; intros H; try discriminate H;
    repeat split.
Qed.

Lemma nan_text (s : bool) (diag : N) :
  exists ds,
    to_str (NaN s false diag) = (if s then "-" else "") ^^ "NaN" ^^ ds /\
    all_chars PyStr.is_digit ds = true /\
    PyStr.int_of_digits ds = diag.
Proof.
  unfold to_str. destruct (N.eqb_spec diag 0) as [-> | Hd].
  - exists "". repeat split.
  - exists (PyStr.str_N diag). split; [reflexivity |].
    split; [apply str_N_digits | apply int_of_digits_str_N].
Qed.

Lemma of_string_nan_text (s : bool) (ds : string) :
  all_chars PyStr.is_digit ds = true ->
  of_string ((if s then "-" else "") ^^ "NaN" ^^ ds)
  = Some (NaN s false (PyStr.int_of_digits ds)) /\
  PyStr.replace "," "." ((if s then "-" else "") ^^ "NaN" ^^ ds)
  = (if s then "-" else "") ^^ "NaN" ^^ ds.
Proof.
  intros Hds.
  assert (Hchars : all_chars nan_char ((if s then "-" else "") ^^ "NaN" ^^ ds) = true).
  { assert (H : all_chars nan_char ds = true).
    { eapply all_chars_impl; [| exact Hds]. intros c Hc. unfold nan_char. now rewrite Hc. }
    destruct s; cbn; exact H. }
  split.
  - unfold of_string.
    rewrite strip_no_space
      by (eapply all_chars_impl; [intros c Hc; apply (nan_char_plain c Hc) | exact Hchars]).
    rewrite replace_absent
      by (eapply all_chars_impl; [intros c Hc; apply (nan_char_plain c Hc) | exact Hchars]).
    assert (Hsplit : split_sign ((if s then "-" else "") ^^ "NaN" ^^ ds) = (s, "NaN" ^^ ds))
      by (destruct s; reflexivity).
    unfold parse. rewrite Hsplit.
    cbn [String.append starts_number PyStr.lower]. cbn [PyStr.is_digit].
    change (PyStr.lower_char "N") with "n"%char.
    change (PyStr.lower_char "a") with "a"%char.
    rewrite (lower_digits ds Hds).
    change (String.eqb (String "n" (String "a" (String "n" ds))) "inf") with false.
    change (String.eqb (String "n" (String "a" (String "n" ds))) "infinity") with false.
    cbn [orb]. unfold parse_nan. rewrite (span_digits_all ds Hds). reflexivity.
  - apply replace_absent.
    eapply all_chars_impl; [intros c Hc; apply (nan_char_plain c Hc) | exact Hchars].
Qed.

Lemma fix_nan_small (s sig : bool) (diag : N) :
  ndigits diag <= 28 -> fix_nan s sig diag = NaN s sig diag.
Proof.
  intros H. unfold fix_nan, prec.
  replace (28 <? ndigits diag) with false by (symmetry; apply Z.ltb_ge, H). reflexivity.
Qed.

(** An amount that [d] can return is read back from its text. *)
Lemma d_to_str_amount (x : Decimal) :
  two_place_amount x -> d (to_str x) = Ok x /\ App.d (to_str x) = Ok x.
Proof.
  intros Hx. destruct x as [s c e | s | s sig diag]; cbn in Hx; [| contradiction |].
  - destruct Hx as [-> Hn].
    rewrite app_d_to_str_two_places. split; apply d_to_str_two_places, Hn.
  - destruct Hx as [-> Hn].
    destruct (nan_text s diag) as (ds & Htxt & Hds & Hval).
    destruct (of_string_nan_text s ds Hds) as [Hparse Hrep].
    unfold App.d, d. rewrite Htxt, Hrep, Hparse, Hval.
    unfold quantize, cent. cbn [check_nans]. rewrite fix_nan_small by exact Hn.
    split; reflexivity.
Qed.

(** X3: [d] returns only amounts with two places and at most 28 digits, or
    a quiet NaN; such a value is read back unchanged from its [str] text,
    so an amount that was accepted once is stored and re-read without
    change, in both programs. *)
Theorem d_result_stable (value : string) (x : Decimal) :
  d value = Ok x \/ App.d value = Ok x ->
  two_place_amount x /\
  d (to_str x) = Ok x /\
  App.d (to_str x) = Ok x.
Proof.
  intros H.
  assert (Hx : two_place_amount x)
    by (destruct H as [H | H]; [eapply d_shape | eapply app_d_shape]; eassumption).
  split; [exact Hx | apply d_to_str_amount, Hx].
Qed.

Lemma d_result_stable_witness :
  d (to_str (Fin false 1250 (-2))) = Ok (Fin false 1250 (-2)).
Proof.
  apply (d_result_stable "12.5" (Fin false 1250 (-2))).
  left. vm_compute. reflexivity.
Defined.

(** ** The two readings of an amount *)

Lemma lstrip_replace (old n : ascii) (s : string) :
  PyStr.is_space old = false -> PyStr.is_space n = false ->
  PyStr.lstrip (PyStr.replace old (String n "") s)
  = PyStr.replace old (String n "") (PyStr.lstrip s).
Proof.
  intros Ho Hn. induction s as [| c t IH]; [reflexivity |].
  cbn [PyStr.replace PyStr.lstrip].
  destruct (Ascii.eqb_spec c old) as [-> | Hne].
  - rewrite Ho. cbn [String.append PyStr.lstrip PyStr.replace].
    rewrite Hn, Ascii.eqb_refl. reflexivity.
  - destruct (PyStr.is_space c) eqn:Hc; cbn [PyStr.lstrip PyStr.replace]; rewrite Hc.
    + exact IH.
    + apply Ascii.eqb_neq in Hne. now rewrite Hne.
Qed.

Lemma replace_empty (old n : ascii) (s : string) :
  PyStr.replace old (String n "") s = "" -> s = "".
Proof.
  destruct s as [| c t]; [reflexivity |]. cbn.
  destruct (Ascii.eqb c old); discriminate.
Qed.

Lemma rstrip_replace (old n : ascii) (s : string) :
  PyStr.is_space old = false -> PyStr.is_space n = false ->
  PyStr.rstrip (PyStr.replace old (String n "") s)
  = PyStr.replace old (String n "") (PyStr.rstrip s).
Proof.
  intros Ho Hn. induction s as [| c t IH]; [reflexivity |].
  cbn [PyStr.replace PyStr.rstrip].
  destruct (Ascii.eqb c old) eqn:Hco.
  - apply Ascii.eqb_eq in Hco. subst c.
    cbn [String.append PyStr.rstrip]. rewrite IH.
    destruct (PyStr.rstrip t) as [| c' t'] eqn:Er.
    + cbn [PyStr.replace]. rewrite Hn, Ho. cbn [PyStr.replace].
      now rewrite Ascii.eqb_refl.
    + destruct (PyStr.replace old (String n "") (String c' t')) eqn:E.
      * apply replace_empty in E. discriminate E.
      * rewrite <- E. cbn [PyStr.replace]. now rewrite Ascii.eqb_refl.
  - cbn [PyStr.rstrip]. rewrite IH.
    destruct (PyStr.rstrip t) as [| c' t'] eqn:Er.
    + cbn [PyStr.replace]. destruct (PyStr.is_space c); [reflexivity |].
      cbn [PyStr.replace]. now rewrite Hco.
    + destruct (PyStr.replace old (String n "") (String c' t')) eqn:E.
      * apply replace_empty in E. discriminate E.
      * rewrite <- E. cbn [PyStr.replace]. now rewrite Hco.
Qed.

Lemma strip_replace (old n : ascii) (s : string) :
  PyStr.is_space old = false -> PyStr.is_space n = false ->
  PyStr.strip (PyStr.replace old (String n "") s)
  = PyStr.replace old (String n "") (PyStr.strip s).
Proof.
  intros Ho Hn. unfold PyStr.strip.
  now rewrite lstrip_replace, rstrip_replace.
Qed.

Lemma of_string_strip (s : string) : of_string (PyStr.strip s) = of_string s.
Proof. unfold of_string. now rewrite strip_idempotent. Qed.

Lemma digit_not_comma (c : ascii) :
  PyStr.is_digit c = true -> negb (Ascii.eqb c ",") = true.
Proof. intros H. apply amount_char_no_comma, digit_amount_char, H. Qed.

(** ** No comma in what the constructor accepts *)

Lemma span_digits_split (s : string) :
  s = fst (PyStr.span_digits s) ^^ snd (PyStr.span_digits s) /\
  all_chars PyStr.is_digit (fst (PyStr.span_digits s)) = true.
Proof.
  induction s as [| c t IH]; [split; reflexivity |].
  cbn [PyStr.span_digits]. destruct (PyStr.is_digit c) eqn:Hc.
  - destruct (PyStr.span_digits t) as [ds r]. cbn [fst snd] in *.
    destruct IH as [E A]. split.
    + cbn [String.append]. now rewrite <- E.
    + cbn [all_chars]. now rewrite Hc, A.
  - split; reflexivity.
Qed.

Lemma digits_no_comma (s : string) :
  all_chars PyStr.is_digit s = true ->
  all_chars (fun c => negb (Ascii.eqb c ",")) s = true.
Proof.
  apply all_chars_impl. intros c H. now rewrite (digit_not_comma c H).
Qed.

Lemma span_digits_no_comma (s : string) :
  all_chars (fun c => negb (Ascii.eqb c ",")) s
  = all_chars (fun c => negb (Ascii.eqb c ",")) (snd (PyStr.span_digits s)).
Proof.
  destruct (span_digits_split s) as [E A].
  rewrite E at 1. rewrite all_chars_append, (digits_no_comma _ A). reflexivity.
Qed.

Lemma split_sign_no_comma (s : string) :
  all_chars (fun c => negb (Ascii.eqb c ",")) s
  = all_chars (fun c => negb (Ascii.eqb c ",")) (snd (split_sign s)).
Proof.
  destruct s as [| c t]; [reflexivity |]. unfold split_sign.
  destruct (Ascii.eqb_spec c "-") as [-> | _]; [reflexivity |].
  destruct (Ascii.eqb_spec c "+") as [-> | _]; reflexivity.
Qed.

Lemma lower_char_comma (c : ascii) :
  Ascii.eqb (PyStr.lower_char c) "," = Ascii.eqb c ",".
Proof. destruct c as [[] [] [] [] [] [] [] []]; reflexivity. Qed.

Lemma lower_no_comma (s : string) :
  all_chars (fun c => negb (Ascii.eqb c ",")) (PyStr.lower s)
  = all_chars (fun c => negb (Ascii.eqb c ",")) s.
Proof.
  induction s as [| c t IH]; [reflexivity |].
  cbn [PyStr.lower all_chars]. now rewrite lower_char_comma, IH.
Qed.

Lemma parse_exponent_no_comma (r : string) (e : Z) :
  parse_exponent r = Some e -> all_chars (fun c => negb (Ascii.eqb c ",")) r = true.
Proof.
  destruct r as [| c t]; [reflexivity |]. unfold parse_exponent.
  destruct (Ascii.eqb (PyStr.lower_char c) "e") eqn:Hc; [| discriminate].
  assert (Hn : Ascii.eqb c "," = false).
  { rewrite <- lower_char_comma. apply Ascii.eqb_eq in Hc. now rewrite Hc. }
  cbn [all_chars]. rewrite Hn. cbn [negb andb].
  rewrite (split_sign_no_comma t). destruct (split_sign t) as [neg ds]. cbn [snd].
  rewrite (span_digits_no_comma ds).
  destruct (PyStr.span_digits ds) as [digits rest]. cbn [snd].
  destruct digits; [discriminate |]. destruct rest; [reflexivity | discriminate].
Qed.

Lemma parse_finite_no_comma (sign : bool) (body : string) (x : Decimal) :
  parse_finite sign body = Some x ->
  all_chars (fun c => negb (Ascii.eqb c ",")) body = true.
Proof.
  unfold parse_finite. rewrite (span_digits_no_comma body).
  destruct (PyStr.span_digits body) as [intpart r1]. cbn [snd].
  assert (Hr : forall r2 fracpart,
             (match parse_exponent r2 with
              | Some exp =>
                  let coeff := PyStr.int_of_digits (intpart ^^ fracpart) in
                  let e := exp - Z.of_nat (String.length fracpart) in
                  if exact coeff e then Some (Fin sign coeff e) else None
              | None => None
              end = Some x) ->
             all_chars (fun c => negb (Ascii.eqb c ",")) r2 = true).
  { intros r2 fracpart H. destruct (parse_exponent r2) as [e |] eqn:E; [| discriminate].
    exact (parse_exponent_no_comma r2 e E). }
  destruct r1 as [| c t]; [apply Hr |].
  destruct (Ascii.eqb_spec c ".") as [-> | Hne].
  - cbn [all_chars]. cbn [Ascii.eqb Bool.eqb negb andb].
    rewrite (span_digits_no_comma t).
    destruct (PyStr.span_digits t) as [fracpart r2]. cbn [snd]. apply Hr.
  - apply Hr.
Qed.

Lemma parse_nan_no_comma (sign : bool) (body : string) (x : Decimal) :
  parse_nan sign body = Some x ->
  all_chars (fun c => negb (Ascii.eqb c ",")) body = true.
Proof.
  assert (Hr : forall (signal : bool) (r : string),
             match r with
             | String "n" (String "a" (String "n" t)) =>
                 match PyStr.span_digits t with
                 | (diag, EmptyString) => Some (NaN sign signal (PyStr.int_of_digits diag))
                 | _ => None
                 end
             | _ => None
             end = Some x ->
             all_chars (fun c => negb (Ascii.eqb c ",")) r = true).
  { intros signal r.
    destruct r as [| c1 [| c2 [| c3 t]]]; try discriminate;
      destruct c1 as [[] [] [] [] [] [] [] []]; try discriminate;
      destruct c2 as [[] [] [] [] [] [] [] []]; try discriminate;
      destruct c3 as [[] [] [] [] [] [] [] []]; try discriminate.
    cbn [all_chars]. cbn [Ascii.eqb Bool.eqb negb andb].
    rewrite (span_digits_no_comma t).
    destruct (PyStr.span_digits t) as [diag rest]. cbn [snd].
    destruct rest; [reflexivity | discriminate]. }
  unfold parse_nan.
  destruct body as [| c t]; [discriminate |].
  destruct (Ascii.eqb_spec c "s") as [-> | Hne].
  - cbn [all_chars]. cbn [Ascii.eqb Bool.eqb negb andb]. apply Hr.
  - replace (match String c t with
             | String "s" t0 => (true, t0)
             | _ => (false, String c t)
             end) with (false, String c t).
    + intros H. exact (Hr false (String c t) H).
    + destruct c as [[] [] [] [] [] [] [] []]; try reflexivity. now destruct Hne.
Qed.

Lemma parse_no_comma (s : string) (x : Decimal) :
  parse s = Some x -> all_chars (fun c => negb (Ascii.eqb c ",")) s = true.
Proof.
  unfold parse. rewrite (split_sign_no_comma s).
  destruct (split_sign s) as [sign body]. cbn [snd].
  destruct (starts_number body); [apply parse_finite_no_comma |].
  rewrite <- (lower_no_comma body).
  destruct (String.eqb_spec (PyStr.lower body) "inf") as [-> | _]; [reflexivity |].
  destruct (String.eqb_spec (PyStr.lower body) "infinity") as [-> | _]; [reflexivity |].
  cbn [orb]. apply parse_nan_no_comma.
Qed.

Lemma lstrip_keeps (p : ascii -> bool) (s : string) :
  (forall c, PyStr.is_space c = true -> p c = true) ->
  all_chars p (PyStr.lstrip s) = all_chars p s.
Proof.
  intros Hp. induction s as [| c t IH]; [reflexivity |].
  cbn [PyStr.lstrip]. destruct (PyStr.is_space c) eqn:Hc; [| reflexivity].
  cbn [all_chars]. now rewrite (Hp c Hc), IH.
Qed.

Lemma rstrip_keeps (p : ascii -> bool) (s : string) :
  (forall c, PyStr.is_space c = true -> p c = true) ->
  all_chars p (PyStr.rstrip s) = all_chars p s.
Proof.
  intros Hp. induction s as [| c t IH]; [reflexivity |].
  cbn [PyStr.rstrip]. destruct (PyStr.rstrip t) as [| c' t'] eqn:Er.
  - cbn [all_chars] in *. rewrite <- IH.
    destruct (PyStr.is_space c) eqn:Hc; cbn [all_chars].
    + now rewrite (Hp c Hc).
    + reflexivity.
  - cbn [all_chars] in *. now rewrite <- IH.
Qed.

Lemma strip_keeps (p : ascii -> bool) (s : string) :
  (forall c, PyStr.is_space c = true -> p c = true) ->
  all_chars p (PyStr.strip s) = all_chars p s.
Proof.
  intros Hp. unfold PyStr.strip. now rewrite rstrip_keeps, lstrip_keeps.
Qed.

Lemma replace_none_keeps (p : ascii -> bool) (old : ascii) (s : string) :
  p old = true -> all_chars p (PyStr.replace old "" s) = all_chars p s.
Proof.
  intros Hp. induction s as [| c t IH]; [reflexivity |].
  cbn [PyStr.replace]. destruct (Ascii.eqb_spec c old) as [-> | _].
  - cbn [String.append all_chars]. now rewrite Hp, IH.
  - cbn [all_chars]. now rewrite IH.
Qed.

Lemma space_not_comma (c : ascii) :
  PyStr.is_space c = true -> negb (Ascii.eqb c ",") = true.
Proof. destruct c as [[] [] [] [] [] [] [] []]; cbn; intros H; try reflexivity; discriminate H. Qed.

Lemma of_string_no_comma (t : string) (x : Decimal) :
  of_string t = Some x -> all_chars (fun c => negb (Ascii.eqb c ",")) t = true.
Proof.
  unfold of_string. intros H. apply parse_no_comma in H.
  rewrite (replace_none_keeps _ "_" _ eq_refl) in H.
  now rewrite (strip_keeps _ _ space_not_comma) in H.
Qed.

(** What the console's [d] converts, the form's [d] converts alike. *)
Lemma d_app_d (t : string) : of_string t <> None -> App.d t = d t.
Proof.
  intros H. destruct (of_string t) as [x |] eqn:E; [| contradiction].
  unfold App.d, d. now rewrite (replace_absent _ _ _ (of_string_no_comma t x E)).
Qed.

Lemma d_Ok_app_d (t : string) (x : Decimal) : d t = Ok x -> App.d t = Ok x.
Proof.
  intros H. rewrite d_app_d; [exact H |]. unfold d in H.
  destruct (of_string t); [discriminate | discriminate H].
Qed.

(** X4: the console and the form read an amount in the same way: what
    [input_decimal] makes of a line is what the form's [d] makes of it;
    spaces around the text make no difference; and the two [d] agree on
    every text without a comma and on every text that the console's [d]
    does not refuse with a ValueError. *)
Theorem amount_readings_agree (s : string) :
  input_decimal_read s = App.d s /\
  d (PyStr.strip s) = d s /\
  App.d (PyStr.strip s) = App.d s /\
  (all_chars (fun c => negb (Ascii.eqb c ",")) s = true -> App.d s = d s) /\
  (d s <> Raise ValueError -> App.d s = d s).
Proof.
  assert (Hr : of_string (PyStr.replace "," "." (PyStr.strip s))
               = of_string (PyStr.replace "," "." s)).
  { rewrite <- (strip_replace "," "." s eq_refl eq_refl). apply of_string_strip. }
  split; [unfold input_decimal_read, d, App.d; now rewrite Hr |].
  split; [unfold d; now rewrite of_string_strip |].
  split; [unfold App.d; now rewrite Hr |].
  split.
  - intros H. unfold App.d, d. now rewrite replace_absent.
  - intros H. apply d_app_d. intros E. apply H. unfold d. now rewrite E.
Qed.

Lemma amount_readings_agree_witness : App.d "Infinity" = d "Infinity".
Proof.
  apply (amount_readings_agree "Infinity"). vm_compute. discriminate.
Defined.

(** ** The display text of an amount *)

Lemma replace_append (old : ascii) (new a b : string) :
  PyStr.replace old new (a ^^ b) = PyStr.replace old new a ^^ PyStr.replace old new b.
Proof.
  induction a as [| c t IH]; [reflexivity |]. cbn.
  destruct (Ascii.eqb c old); rewrite IH; [now rewrite append_assoc | reflexivity].
Qed.

Lemma group3_plain (fuel : nat) (digits : string) :
  all_chars PyStr.is_digit digits = true ->
  PyStr.replace "," "" (group3 fuel digits) = digits.
Proof.
  revert digits. induction fuel as [| f IH]; intros digits Hd; cbn [group3].
  - apply replace_absent. eapply all_chars_impl; [apply digit_not_comma | exact Hd].
  - destruct (String.length digits <=? 3)%nat.
    + apply replace_absent. eapply all_chars_impl; [apply digit_not_comma | exact Hd].
    + rewrite replace_append. rewrite IH by (apply all_chars_take, Hd).
      cbn [String.append PyStr.replace]. change (Ascii.eqb "," ",") with true.
      cbn [String.append].
      rewrite replace_absent
        by (eapply all_chars_impl; [apply digit_not_comma | apply all_chars_drop, Hd]).
      apply take_drop.
Qed.

Lemma format_two_places (s : bool) (c : N) :
  PyStr.replace "," "" (format_comma_2f (Fin s c (-2))) = to_str (Fin s c (-2)).
Proof.
  pose proof (str_N_digits c) as Hdig.
  pose proof (ndigits_pos c) as Hpos. unfold ndigits in Hpos.
  assert (Hc : coeff_two_places context_rounding c (-2) = c).
  { unfold coeff_two_places. cbn. apply N.mul_1_r. }
  unfold format_comma_2f. rewrite rescale_two_places, Hc. unfold to_str.
  set (digits := PyStr.str_N c) in *.
  set (len := Z.of_nat (String.length digits)) in *.
  assert (Hlen : len = Z.of_nat (String.length digits)) by reflexivity.
  clearbody len. cbv zeta.
  replace ((-2 <=? 0) && (-6 <? -2 + len)) with true
    by (symmetry; apply andb_true_iff; split; [reflexivity | apply Z.ltb_lt; lia]).
  rewrite Z.eqb_refl, !append_nil_r.
  assert (Hsign : PyStr.replace "," "" (if s then "-" else "") = (if s then "-" else ""))
    by (destruct s; reflexivity).
  rewrite !replace_append, Hsign. f_equal.
  destruct (Z.ltb_spec (len - 2) 0) as [Hs | Hb].
  - replace (-2 + len <=? 0) with true by (symmetry; apply Z.leb_le; lia).
    replace (- (-2 + len)) with (- (len - 2)) by lia.
    cbn [String.length group3 Nat.leb String.append PyStr.replace].
    change (Ascii.eqb "0" ",") with false. change (Ascii.eqb "." ",") with false.
    cbn [String.append]. do 2 f_equal.
    apply replace_absent. eapply all_chars_impl; [apply digit_not_comma |].
    now rewrite all_chars_append, all_chars_zeros.
  - destruct (Z.leb_spec (-2 + len) 0) as [Hz | Hnz].
    + assert (Hl2 : len = 2) by lia. subst len.
      replace (Z.of_nat (String.length digits) - 2) with 0 by lia.
      replace (- (-2 + Z.of_nat (String.length digits))) with 0 by lia.
      cbn [Z.to_nat PyStr.take PyStr.drop PyStr.repeat_char String.append].
      destruct digits as [| c0 [| c1 [| ? ?]]]; cbn in Hl2; try lia.
      cbn [all_chars] in Hdig. rewrite !andb_true_iff in Hdig.
      destruct Hdig as (H0 & H1 & _).
      cbn [String.length group3 Nat.leb String.append PyStr.replace].
      change (Ascii.eqb "0" ",") with false. change (Ascii.eqb "." ",") with false.
      apply digit_not_comma, negb_true_iff in H0. apply digit_not_comma, negb_true_iff in H1.
      rewrite H0, H1. reflexivity.
    + replace (len <=? -2 + len) with false by (symmetry; apply Z.leb_gt; lia).
      replace (len - 2) with (-2 + len) by lia.
      assert (Htake : PyStr.take (Z.to_nat (-2 + len)) digits <> "").
      { intros E. pose proof (length_take (Z.to_nat (-2 + len)) digits ltac:(lia)) as Hl.
        rewrite E in Hl. cbn [String.length] in Hl. lia. }
      destruct (PyStr.take (Z.to_nat (-2 + len)) digits) as [| t0 tr] eqn:Et;
        [contradiction |].
      rewrite <- Et.
      rewrite group3_plain by (apply all_chars_take, Hdig).
      cbn [String.append PyStr.replace]. change (Ascii.eqb "." ",") with false.
      cbn [String.append]. do 2 f_equal.
      apply replace_absent. eapply all_chars_impl; [apply digit_not_comma |].
      apply all_chars_drop, Hdig.
Qed.

Lemma group3_thousands (fuel : nat) (digits : string) :
  digits <> "" -> all_chars PyStr.is_digit digits = true ->
  (String.length digits <= fuel)%nat ->
  thousands (group3 fuel digits).
Proof.
  revert digits. induction fuel as [| f IH]; intros digits Hne Hd Hf.
  - destruct digits; [contradiction | cbn in Hf; lia].
  - cbn [group3]. destruct (Nat.leb_spec (String.length digits) 3) as [Hs | Hl].
    + apply thousands_first; assumption.
    + pose proof (length_drop (String.length digits - 3) digits) as Ld.
      pose proof (all_chars_drop PyStr.is_digit (String.length digits - 3) digits Hd) as Hdd.
      pose proof (length_take (String.length digits - 3) digits ltac:(lia)) as Lt.
      destruct (PyStr.drop (String.length digits - 3) digits) as [| a [| b [| c [| x r]]]];
        cbn [String.length] in Ld; try lia.
      cbn [all_chars] in Hdd. rewrite !andb_true_iff in Hdd.
      destruct Hdd as (Ha & Hb & Hc & _).
      cbn [String.append]. apply thousands_group; try assumption.
      apply IH.
      * intros E. rewrite E in Lt. cbn in Lt. lia.
      * apply all_chars_take, Hd.
      * lia.
Qed.

(** The parts of the text that [format_comma_2f] writes for an amount of
    two places. *)
Lemma format_two_places_parts (s : bool) (c : N) :
  exists intpart frac,
    format_comma_2f (Fin s c (-2))
    = (if s then "-" else "") ^^ group3 (String.length intpart) intpart ^^ "." ^^ frac /\
    intpart <> "" /\
    all_chars PyStr.is_digit intpart = true /\
    all_chars PyStr.is_digit frac = true /\
    String.length frac = 2%nat.
Proof.
  pose proof (str_N_digits c) as Hdig.
  pose proof (ndigits_pos c) as Hpos. unfold ndigits in Hpos.
  assert (Hc : coeff_two_places context_rounding c (-2) = c).
  { unfold coeff_two_places. cbn. apply N.mul_1_r. }
  unfold format_comma_2f. rewrite rescale_two_places, Hc.
  set (digits := PyStr.str_N c) in *.
  set (len := Z.of_nat (String.length digits)) in *.
  assert (Hlen : len = Z.of_nat (String.length digits)) by reflexivity.
  clearbody len. cbv zeta.
  destruct (Z.ltb_spec (len - 2) 0) as [Hs | Hb].
  - exists "0", (PyStr.repeat_char "0" (Z.to_nat (- (len - 2))) ^^ digits).
    split; [reflexivity |]. split; [discriminate |]. split; [reflexivity |].
    split.
    + now rewrite all_chars_append, all_chars_zeros.
    + rewrite length_append, length_repeat_char. lia.
  - pose proof (length_drop (Z.to_nat (len - 2)) digits) as Ld.
    pose proof (all_chars_drop PyStr.is_digit (Z.to_nat (len - 2)) digits Hdig) as Hdd.
    destruct (PyStr.take (Z.to_nat (len - 2)) digits) as [| t0 tr] eqn:Et.
    + exists "0", (PyStr.drop (Z.to_nat (len - 2)) digits).
      split; [reflexivity |]. split; [discriminate |]. split; [reflexivity |].
      split; [exact Hdd | lia].
    + exists (String t0 tr), (PyStr.drop (Z.to_nat (len - 2)) digits).
      split; [reflexivity |]. split; [discriminate |].
      split; [rewrite <- Et; apply all_chars_take, Hdig |].
      split; [exact Hdd | lia].
Qed.

(** X5: the display text of an amount with two places is the currency sign,
    a minus sign for a negative amount, the integer part with a comma
    before every group of three digits counted from the point, the point
    and the two places; taking the commas out gives [str] of the amount,
    which [d] reads back. *)
Theorem fmt_money_is_grouped_str (s : bool) (c : N) :
  ndigits c <= 28 ->
  exists grouped frac,
    fmt_money (Fin s c (-2))
    = String "$" ((if s then "-" else "") ^^ grouped ^^ "." ^^ frac) /\
    App.money (Fin s c (-2)) = fmt_money (Fin s c (-2)) /\
    thousands grouped /\
    all_chars PyStr.is_digit frac = true /\ String.length frac = 2%nat /\
    PyStr.replace "," "" ((if s then "-" else "") ^^ grouped ^^ "." ^^ frac)
    = to_str (Fin s c (-2)) /\
    d (PyStr.replace "," "" ((if s then "-" else "") ^^ grouped ^^ "." ^^ frac))
    = Ok (Fin s c (-2)).
Proof.
  intros Hn.
  destruct (format_two_places_parts s c) as (intpart & frac & Hf & Hne & Hi & Hfr & Hl).
  exists (group3 (String.length intpart) intpart), frac.
  split; [unfold fmt_money; cbn [String.append]; now rewrite Hf |].
  split; [reflexivity |].
  split; [apply group3_thousands; [exact Hne | exact Hi | lia] |].
  split; [exact Hfr |]. split; [exact Hl |].
  rewrite <- Hf, format_two_places.
  split; [reflexivity | apply d_to_str_two_places, Hn].
Qed.

Lemma fmt_money_is_grouped_str_witness :
  exists grouped frac,
    fmt_money (Fin true 123456789 (-2)) = String "$" ("-" ^^ grouped ^^ "." ^^ frac) /\
    thousands grouped /\
    PyStr.replace "," "" ("-" ^^ grouped ^^ "." ^^ frac) = "-1234567.89".
Proof.
  destruct (fmt_money_is_grouped_str true 123456789 ltac:(vm_compute; discriminate))
    as (grouped & frac & H1 & _ & H2 & _ & _ & H3 & _).
  exists grouped, frac. split; [exact H1 | split; [exact H2 | exact H3]].
Defined.

(** ** The lists of names, continued *)

Lemma ensure_unique_add_true_fresh (lst : list string) (item : string) :
  fst (ensure_unique_add lst item) = true ->
  PyStr.strip item <> "" /\ ~ In (PyStr.strip item) lst.
Proof.
  intros Ht.
  destruct (ensure_unique_add_false_iff lst item) as [_ H].
  split; intros E; rewrite H in Ht; try discriminate Ht; auto.
Qed.

Lemma ensure_unique_add_false_pair (lst : list string) (item : string) :
  fst (ensure_unique_add lst item) = false -> ensure_unique_add lst item = (false, lst).
Proof.
  intros Hf. pose proof (ensure_unique_add_false_same lst item Hf) as Hs.
  destruct (ensure_unique_add lst item) as [r l]. cbn in *. now subst.
Qed.

Lemma ensure_unique_add_names (lst : list string) (item : string) :
  names_inv lst ->
  let r := fst (ensure_unique_add lst item) in
  let lst' := snd (ensure_unique_add lst item) in
  names_inv lst' /\
  (forall x, In x lst' <-> In x lst \/ (r = true /\ x = PyStr.strip item)) /\
  ensure_unique_add lst' item = (false, lst').
Proof.
  intros (Hnd & Hso & Hok) r lst'. subst r lst'.
  destruct (fst (ensure_unique_add lst item)) eqn:Hr.
  - destruct (ensure_unique_add_true_fresh lst item Hr) as [Hne Hfresh].
    rewrite (ensure_unique_add_true_list lst item Hr).
    pose proof (sort_by_perm PyStr.lower (lst ++ [PyStr.strip item])) as Hp.
    assert (Hin : forall x, In x (PyStr.sort_by PyStr.lower (lst ++ [PyStr.strip item]))
                            <-> In x lst \/ x = PyStr.strip item).
    { intros x. split.
      - intros H. apply (Permutation_in _ Hp), in_app_or in H.
        destruct H as [H | [H | []]]; auto.
      - intros H. apply (Permutation_in _ (Permutation_sym Hp)), in_or_app.
        destruct H as [H | H]; [left; exact H | right; left; auto]. }
    split; [| split].
    + split; [| split].
      * apply (Permutation_NoDup (Permutation_sym Hp)).
        apply NoDup_app; [exact Hnd | repeat constructor; intros [] | ].
        intros x Hx [Hx' | []]. subst x. contradiction.
      * apply sort_by_sorted.
      * apply Forall_forall. intros x Hx. apply Hin in Hx. destruct Hx as [Hx | ->].
        -- rewrite Forall_forall in Hok. apply Hok, Hx.
        -- split; [exact Hne | apply strip_trimmed].
    + intros x. rewrite Hin. intuition.
    + apply ensure_unique_add_false_pair, ensure_unique_add_false_iff.
      right. apply Hin. right. reflexivity.
  - pose proof (ensure_unique_add_false_same lst item Hr) as Hs. rewrite Hs.
    split; [| split].
    + repeat split; assumption.
    + intros x. split; [auto | intros [H | [H _]]; [exact H | discriminate H]].
    + apply ensure_unique_add_false_pair, Hr.
Qed.


(** X6: [ensure_unique_add] keeps the list free of duplicates, sorted by
    lower-cased name and made of trimmed, non-empty names; the list after
    the call holds the old entries and, when the answer is true, the
    trimmed item; a second call with the same item is always rejected. *)
Theorem ensure_unique_add_keeps_invariant (lst : list string) (item : string) :
  names_inv lst ->
  let r := fst (ensure_unique_add lst item) in
  let lst' := snd (ensure_unique_add lst item) in
  names_inv lst' /\
  (forall x, In x lst' <-> In x lst \/ (r = true /\ x = PyStr.strip item)) /\
  ensure_unique_add lst' item = (false, lst').
Proof. exact (ensure_unique_add_names lst item). Qed.

Lemma ensure_unique_add_keeps_invariant_witness :
  names_inv (snd (ensure_unique_add ["Comida"; "luz"] " Agua ")) /\
  snd (ensure_unique_add ["Comida"; "luz"] " Agua ") = ["Agua"; "Comida"; "luz"].
Proof.
  split; [| reflexivity].
  apply (ensure_unique_add_keeps_invariant ["Comida"; "luz"] " Agua ").
  split; [| split].
  - repeat constructor; cbn; intuition discriminate.
  - repeat constructor.
  - repeat constructor; discriminate.
Defined.

(** ** The monthly incomes, continued *)

Lemma same_key_other (p m p' m' : string) (row : Income) :
  ~ (p' = p /\ m' = m) -> same_key p m row = true -> same_key p' m' row = false.
Proof.
  intros Hne Hk. apply same_key_eq in Hk. destruct Hk as [Hp Hm].
  unfold same_key. rewrite Hp, Hm.
  destruct (String.eqb_spec p p') as [-> | Np]; [| reflexivity].
  destruct (String.eqb_spec m m') as [-> | Nm]; [| reflexivity].
  exfalso. apply Hne. split; reflexivity.
Qed.

Lemma overwrite_first_other (l l' : list Income) (p a m p' m' : string) :
  ~ (p' = p /\ m' = m) ->
  overwrite_first l p a m = Some l' -> rows_of p' m' l' = rows_of p' m' l.
Proof.
  intros Hne. revert l'. induction l as [| row rest IH]; intros l'; [discriminate |].
  rewrite overwrite_first_cons.
  destruct (same_key p m row) eqn:Hk.
  - intros [= <-]. unfold rows_of. cbn [filter].
    rewrite same_key_with_amount, (same_key_other p m p' m' row Hne Hk). reflexivity.
  - destruct (overwrite_first rest p a m) as [l'' |]; cbn [option_map]; [| discriminate].
    intros [= <-]. unfold rows_of in *. cbn [filter]. rewrite (IH l'' eq_refl). reflexivity.
Qed.

Lemma overwrite_first_rows (l l' : list Income) (p a m : string) :
  overwrite_first l p a m = Some l' ->
  rows_of p m l' = mkIncome p a m :: tl (rows_of p m l).
Proof.
  revert l'. induction l as [| row rest IH]; intros l'; [discriminate |].
  rewrite overwrite_first_cons.
  destruct (same_key p m row) eqn:Hk.
  - intros [= <-]. unfold rows_of. cbn [filter].
    rewrite same_key_with_amount, Hk. cbn [tl].
    apply same_key_eq in Hk. destruct Hk as [<- <-]. reflexivity.
  - destruct (overwrite_first rest p a m) as [l'' |]; cbn [option_map]; [| discriminate].
    intros [= <-]. unfold rows_of in *. cbn [filter]. rewrite Hk. apply IH. reflexivity.
Qed.

Lemma overwrite_first_again (l l' : list Income) (p a m : string) :
  overwrite_first l p a m = Some l' -> overwrite_first l' p a m = Some l'.
Proof.
  revert l'. induction l as [| row rest IH]; intros l'; [discriminate |].
  rewrite overwrite_first_cons.
  destruct (same_key p m row) eqn:Hk.
  - intros [= <-]. rewrite overwrite_first_cons, same_key_with_amount, Hk. reflexivity.
  - destruct (overwrite_first rest p a m) as [l'' |]; cbn [option_map]; [| discriminate].
    intros [= <-]. rewrite overwrite_first_cons, Hk, (IH l'' eq_refl). reflexivity.
Qed.

Lemma overwrite_first_appended (l : list Income) (p a m : string) :
  overwrite_first l p a m = None ->
  overwrite_first (l ++ [mkIncome p a m])%list p a m = Some (l ++ [mkIncome p a m])%list.
Proof.
  induction l as [| row rest IH].
  - intros _. cbn [app]. rewrite overwrite_first_cons, same_key_new. reflexivity.
  - rewrite overwrite_first_cons. cbn [app]. rewrite overwrite_first_cons.
    destruct (same_key p m row); [discriminate |].
    destruct (overwrite_first rest p a m); cbn [option_map]; [discriminate |].
    intros _. rewrite IH by reflexivity. reflexivity.
Qed.

Lemma upsert_again (l : list Income) (p a m : string) :
  upsert (upsert l p a m) p a m = upsert l p a m.
Proof.
  unfold upsert at 2 3. destruct (overwrite_first l p a m) as [l' |] eqn:Ho.
  - unfold upsert. now rewrite (overwrite_first_again l l' p a m Ho).
  - unfold upsert. now rewrite (overwrite_first_appended l p a m Ho).
Qed.

(** X7: [set_monthly_income] on any list of incomes, also one with several
    rows for a person and a month (only a file edited by hand has them):
    the first row of the pair gets the amount and the later ones stay, the
    rows of every other pair are untouched, and doing it again with the
    same arguments changes nothing. *)
Theorem set_monthly_income_first_row
    (st : State) (person month_key : string) (amount : Decimal) :
  let st' := set_monthly_income st person amount month_key in
  rows_of person month_key (monthly_incomes st')
    = mkIncome person (to_str amount) month_key
      :: tl (rows_of person month_key (monthly_incomes st)) /\
  (forall p' m', ~ (p' = person /\ m' = month_key) ->
     rows_of p' m' (monthly_incomes st') = rows_of p' m' (monthly_incomes st)) /\
  set_monthly_income st' person amount month_key = st'.
Proof.
  intros st'. subst st'.
  split; [| split].
  - rewrite monthly_incomes_set. unfold upsert.
    destruct (overwrite_first (monthly_incomes st) person (to_str amount) month_key)
      as [l' |] eqn:Ho.
    + now apply overwrite_first_rows.
    + apply overwrite_first_None in Ho. unfold rows_of in *.
      rewrite filter_app, Ho. cbn [filter app tl].
      now rewrite same_key_new.
  - intros p' m' Hne. rewrite monthly_incomes_set. unfold upsert.
    destruct (overwrite_first (monthly_incomes st) person (to_str amount) month_key)
      as [l' |] eqn:Ho.
    + now apply (overwrite_first_other _ _ person (to_str amount) month_key).
    + unfold rows_of. rewrite filter_app. cbn [filter].
      rewrite (same_key_other person month_key p' m' _ Hne (same_key_new _ _ _)).
      apply app_nil_r.
  - pose proof (upsert_again (monthly_incomes st) person (to_str amount) month_key) as Hu.
    unfold upsert in Hu. unfold set_monthly_income.
    destruct (overwrite_first (monthly_incomes st) person (to_str amount) month_key)
      as [l' |] eqn:Ho; cbn [monthly_incomes set_incomes].
    + rewrite (overwrite_first_again _ _ _ _ _ Ho). reflexivity.
    + rewrite (overwrite_first_appended _ _ _ _ Ho). reflexivity.
Qed.

(** ** Rows added to the ledger *)

(** X8: [add_expense] and [add_extra_income] add one row at the end and
    touch nothing else; for a date and an amount that [d] has returned, the
    row reads back as that date and that amount. *)
Theorem added_row_reads_back
    (st : State) (who : string) (amount : Decimal) (dt : Cal.date) (note : string) :
  Cal.valid dt = true ->
  two_place_amount amount ->
  (exists row,
      add_expense st amount who dt note
        = mkState (categories st) (people st) (monthly_incomes st) (extra_incomes st)
                  (expenses st ++ [row]) /\
      e_category row = who /\ e_note row = PyStr.strip note /\
      parse_date (e_dt row) = Ok dt /\ d (e_amount row) = Ok amount) /\
  (exists row,
      add_extra_income st who amount dt note
        = mkState (categories st) (people st) (monthly_incomes st)
                  (extra_incomes st ++ [row]) (expenses st) /\
      x_person row = who /\ x_note row = PyStr.strip note /\
      parse_date (x_dt row) = Ok dt /\ d (x_amount row) = Ok amount).
Proof.
  intros Hv Ha.
  pose proof (parse_date_iso_ok dt Hv) as Hd.
  destruct (d_to_str_amount amount Ha) as [Hamt _].
  split; eexists; (split; [reflexivity |]); cbn; repeat split; assumption.
Qed.

Lemma added_row_reads_back_witness :
  exists row,
    expenses (add_expense default_state (Fin false 1250 (-2)) "Comida" example_today " pan ")
      = [row] /\ parse_date (e_dt row) = Ok example_today /\
    d (e_amount row) = Ok (Fin false 1250 (-2)).
Proof.
  destruct (added_row_reads_back default_state "Comida" (Fin false 1250 (-2))
              example_today " pan ") as [(row & Hst & _ & _ & Hd & Ha) _].
  - reflexivity.
  - split; [reflexivity | vm_compute; discriminate].
  - exists row. split; [now rewrite Hst | split; assumption].
Defined.

(** ** The loops of the totals *)

Lemma bind_Ok_inv {A B : Type} (c : result A) (k : A -> result B) (r : B) :
  bind c k = Ok r -> exists a, c = Ok a /\ k a = Ok r.
Proof. destruct c as [a | e]; cbn; [eauto | discriminate]. Qed.

Lemma bind_ret {A : Type} (c : result A) : (x <- c ;; Ok x) = c.
Proof. destruct c; reflexivity. Qed.

Lemma for_each_app {A S : Type} (body : S -> A -> result S) (l1 l2 : list A) (s : S) :
  for_each body (l1 ++ l2) s = (s' <- for_each body l1 s ;; for_each body l2 s').
Proof.
  revert s. induction l1 as [| r rest IH]; intros s; cbn [app for_each]; [reflexivity |].
  destruct (body s r) as [s' | e]; cbn [bind]; [apply IH | reflexivity].
Qed.

Lemma for_each_ext {A S : Type} (f g : S -> A -> result S) (l : list A) (s : S) :
  (forall r, In r l -> forall a, f a r = g a r) -> for_each f l s = for_each g l s.
Proof.
  revert s. induction l as [| r rest IH]; intros s H; cbn [for_each]; [reflexivity |].
  rewrite (H r (or_introl eq_refl)).
  destruct (g s r) as [s' | e]; cbn [bind]; [| reflexivity].
  apply IH. intros r' Hr'. apply H. right. exact Hr'.
Qed.

Lemma for_each_skip {A S : Type} (body : S -> A -> result S) (l : list A) (s : S) :
  (forall r, In r l -> forall a, body a r = Ok a) -> for_each body l s = Ok s.
Proof.
  revert s. induction l as [| r rest IH]; intros s H; cbn [for_each]; [reflexivity |].
  rewrite (H r (or_introl eq_refl)). cbn [bind].
  apply IH. intros r' Hr'. apply H. right. exact Hr'.
Qed.

(** A row on which the body raises whatever the sum is makes the loop
    raise. *)
Lemma for_each_raises {A S : Type} (body : S -> A -> result S) (l : list A) (s : S) (row : A) :
  In row l -> (forall a r, body a row <> Ok r) -> forall r, for_each body l s <> Ok r.
Proof.
  intros Hin Hrow. revert s. induction l as [| x rest IH]; intros s r; [contradiction |].
  cbn [for_each]. intros H. apply bind_Ok_inv in H. destruct H as (s' & Hx & Hrest).
  destruct Hin as [-> | Hin]; [exact (Hrow _ _ Hx) | exact (IH Hin _ _ Hrest)].
Qed.

(** The window test of the two later loops, on the text of a date. *)
Lemma window_iff (today x : Cal.date) :
  Cal.valid today = true -> Cal.valid x = true ->
  let s := Cal.mkdate (Cal.year today) (Cal.month today) 1 in
  let e := Cal.mkdate (Cal.year today) (Cal.month today)
             (Cal.days_in_month (Cal.year today) (Cal.month today)) in
  Cal.leb s x && Cal.leb x e
  = (Cal.year x =? Cal.year today) && (Cal.month x =? Cal.month today).
Proof.
  intros Hv Hx s e. subst s e.
  destruct (valid_fields today Hv) as (Hy & Hm & Hd).
  destruct (valid_fields x Hx) as (Hxy & Hxm & Hxd).
  assert (Hday : Cal.year x = Cal.year today -> Cal.month x = Cal.month today ->
                 Cal.day x <= Cal.days_in_month (Cal.year today) (Cal.month today))
    by (intros E1 E2; rewrite <- E1, <- E2; lia).
  unfold Cal.leb. cbn [Cal.year Cal.month Cal.day].
  repeat match goal with
         | |- context [?a <? ?b] => destruct (Z.ltb_spec a b)
         | |- context [?a =? ?b] => destruct (Z.eqb_spec a b)
         | |- context [?a <=? ?b] => destruct (Z.leb_spec a b)
         end; cbn [andb orb]; try reflexivity; exfalso; lia.
Qed.

Lemma month_start_spec (dt : Cal.date) :
  Cal.valid dt = true ->
  month_start dt = Ok (Cal.mkdate (Cal.year dt) (Cal.month dt) 1).
Proof.
  intros Hv. destruct (valid_fields dt Hv) as (Hy & Hm & Hd).
  pose proof (days_in_month_bounds (Cal.year dt) (Cal.month dt) Hm).
  unfold month_start, Cal.replace, Cal.make. rewrite valid_intro by lia. reflexivity.
Qed.

(** A row dated in another month is passed over by the loop of a window. *)
Lemma sum_window_other_month {A : Type} (to_decimal : string -> result Decimal)
    (dt_of amount_of : A -> string) (today dt : Cal.date) (rows : list A) (row : A) :
  Cal.valid today = true -> Cal.valid dt = true ->
  ~ (Cal.year dt = Cal.year today /\ Cal.month dt = Cal.month today) ->
  parse_date (dt_of row) = Ok dt ->
  let s := Cal.mkdate (Cal.year today) (Cal.month today) 1 in
  let e := Cal.mkdate (Cal.year today) (Cal.month today)
             (Cal.days_in_month (Cal.year today) (Cal.month today)) in
  sum_window to_decimal dt_of amount_of s e (rows ++ [row])
  = sum_window to_decimal dt_of amount_of s e rows.
Proof.
  intros Hv Hd Hne Hp s e. unfold sum_window. rewrite for_each_app.
  cbn [for_each]. rewrite Hp. cbn [bind].
  subst s e. rewrite (window_iff today dt Hv Hd).
  replace ((Cal.year dt =? Cal.year today) && (Cal.month dt =? Cal.month today)) with false.
  - cbn [bind]. destruct (for_each _ rows zero); reflexivity.
  - destruct (Z.eqb_spec (Cal.year dt) (Cal.year today));
      destruct (Z.eqb_spec (Cal.month dt) (Cal.month today));
      cbn [andb]; try reflexivity.
    exfalso. apply Hne. split; assumption.
Qed.

Lemma sum_base_other_key (to_decimal : string -> result Decimal)
    (key p a m : string) (l : list Income) :
  m <> key -> sum_base to_decimal key (upsert l p a m) = sum_base to_decimal key l.
Proof.
  intros Hne. unfold sum_base, upsert.
  assert (Hm : String.eqb m key = false) by (apply String.eqb_neq, Hne).
  destruct (overwrite_first l p a m) as [l' |] eqn:Ho.
  - generalize zero. revert l' Ho.
    induction l as [| row rest IH]; intros l' Ho acc; [discriminate |].
    rewrite overwrite_first_cons in Ho.
    destruct (same_key p m row) eqn:Hk.
    + injection Ho as <-. apply same_key_eq in Hk. destruct Hk as [_ Hmonth].
      cbn [for_each with_amount i_month]. rewrite Hmonth, Hm. reflexivity.
    + destruct (overwrite_first rest p a m) as [l'' |]; cbn [option_map] in Ho; [| discriminate].
      injection Ho as <-. cbn [for_each].
      destruct (if String.eqb (i_month row) key then _ else _) as [acc' | e]; cbn [bind];
        [apply (IH l'' eq_refl) | reflexivity].
  - rewrite for_each_app. cbn [for_each i_month]. rewrite Hm. cbn [bind].
    destruct (for_each _ l zero); reflexivity.
Qed.

(** X9: rows of another month do not change the summary of this month.
    For valid dates, an expense or an extra income dated in another year or
    month, whatever its amount, and a monthly income set under a key other
    than the one [strftime] gives for the day of the summary, leave
    [totals_for_month] and [remaining_and_per_day] as they were, also when
    these raise. *)
Theorem other_months_ignored
    (st : State) (who : string) (amount : Decimal) (dt today : Cal.date) (note key : string) :
  Cal.valid today = true -> Cal.valid dt = true ->
  ~ (Cal.year dt = Cal.year today /\ Cal.month dt = Cal.month today) ->
  key <> Cal.strftime_Ym today ->
  totals_for_month (add_expense st amount who dt note) today = totals_for_month st today /\
  totals_for_month (add_extra_income st who amount dt note) today = totals_for_month st today /\
  totals_for_month (set_monthly_income st who amount key) today = totals_for_month st today /\
  remaining_and_per_day (add_expense st amount who dt note) today
    = remaining_and_per_day st today /\
  remaining_and_per_day (add_extra_income st who amount dt note) today
    = remaining_and_per_day st today /\
  remaining_and_per_day (set_monthly_income st who amount key) today
    = remaining_and_per_day st today.
Proof.
  intros Hv Hd Hne Hkey.
  assert (H1 : totals_for_month (add_expense st amount who dt note) today
               = totals_for_month st today).
  { unfold totals_for_month. rewrite (month_start_spec today Hv). cbn [bind].
    destruct (month_end today) as [e | ex] eqn:He; [| reflexivity]. cbn [bind].
    destruct (valid_fields today Hv) as (Hy & Hm & _).
    assert (Hn9 : ~ (Cal.year today = 9999 /\ Cal.month today = 12)).
    { intros [E1 E2]. unfold month_end, Cal.replace, Cal.make in He.
      rewrite E2 in He. cbn [Z.eqb Pos.eqb] in He.
      unfold Cal.valid in He. cbn [Cal.year] in He. rewrite E1 in He.
      cbn in He. discriminate He. }
    rewrite (month_end_spec today Hv Hn9) in He. injection He as <-.
    unfold add_expense. cbn [monthly_incomes extra_incomes expenses].
    rewrite (sum_window_other_month d e_dt e_amount today dt (expenses st) _ Hv Hd Hne)
      by (cbn [e_dt]; apply parse_date_iso_ok, Hd).
    reflexivity. }
  assert (H2 : totals_for_month (add_extra_income st who amount dt note) today
               = totals_for_month st today).
  { unfold totals_for_month. rewrite (month_start_spec today Hv). cbn [bind].
    destruct (month_end today) as [e | ex] eqn:He; [| reflexivity]. cbn [bind].
    destruct (valid_fields today Hv) as (Hy & Hm & _).
    assert (Hn9 : ~ (Cal.year today = 9999 /\ Cal.month today = 12)).
    { intros [E1 E2]. unfold month_end, Cal.replace, Cal.make in He.
      rewrite E2 in He. cbn [Z.eqb Pos.eqb] in He.
      unfold Cal.valid in He. cbn [Cal.year] in He. rewrite E1 in He.
      cbn in He. discriminate He. }
    rewrite (month_end_spec today Hv Hn9) in He. injection He as <-.
    unfold add_extra_income. cbn [monthly_incomes extra_incomes expenses].
    rewrite (sum_window_other_month d x_dt x_amount today dt (extra_incomes st) _ Hv Hd Hne)
      by (cbn [x_dt]; apply parse_date_iso_ok, Hd).
    reflexivity. }
  assert (H3 : totals_for_month (set_monthly_income st who amount key) today
               = totals_for_month st today).
  { unfold totals_for_month. rewrite monthly_incomes_set.
    rewrite (sum_base_other_key d _ who (to_str amount) key (monthly_incomes st) Hkey).
    unfold set_monthly_income.
    destruct (overwrite_first (monthly_incomes st) who (to_str amount) key); reflexivity. }
  unfold remaining_and_per_day. rewrite H1, H2, H3. repeat split.
Qed.

Lemma other_months_ignored_witness :
  totals_for_month
    (add_expense example_state (Fin false 999 (-2)) "Luz" (Cal.mkdate 2026 2 3) "") example_today
  = totals_for_month example_state example_today.
Proof.
  apply (other_months_ignored example_state "Luz" (Fin false 999 (-2))
           (Cal.mkdate 2026 2 3) example_today "" "2026-02").
  - reflexivity.
  - reflexivity.
  - cbn. intros [_ H]. discriminate H.
  - vm_compute. discriminate.
Defined.

(** X10: one row of an expense or of an extra income whose date text
    [parse_date] does not accept makes the summary fail, whatever the month
    of the summary: every row's date is parsed before the window test. *)
Theorem unreadable_date_fails
    (st : State) (today : Cal.date) :
  (exists row, In row (expenses st) /\ forall dt, parse_date (e_dt row) <> Ok dt) \/
  (exists row, In row (extra_incomes st) /\ forall dt, parse_date (x_dt row) <> Ok dt) ->
  (forall r, totals_for_month st today <> Ok r) /\
  (forall r, remaining_and_per_day st today <> Ok r) /\
  (forall r, App.totals_for_month st today <> Ok r) /\
  (forall r, App.refresh_summary st today <> Ok r).
Proof.
  intros H.
  assert (Hw : forall (to_decimal : string -> result Decimal) s e r,
             (x <- sum_window to_decimal x_dt x_amount s e (extra_incomes st) ;;
              sum_window to_decimal e_dt e_amount s e (expenses st)) <> Ok r).
  { intros to_decimal s e r Hr. apply bind_Ok_inv in Hr. destruct Hr as (x & Hx & He).
    destruct H as [(row & Hin & Hbad) | (row & Hin & Hbad)].
    - revert He. apply (for_each_raises _ _ _ row Hin).
      intros a r' Hb. apply bind_Ok_inv in Hb. destruct Hb as (dt & Hdt & _).
      exact (Hbad dt Hdt).
    - revert Hx. apply (for_each_raises _ _ _ row Hin).
      intros a r' Hb. apply bind_Ok_inv in Hb. destruct Hb as (dt & Hdt & _).
      exact (Hbad dt Hdt). }
  assert (H1 : forall r, totals_for_month st today <> Ok r).
  { intros r Hr. unfold totals_for_month in Hr.
    apply bind_Ok_inv in Hr. destruct Hr as (s & _ & Hr).
    apply bind_Ok_inv in Hr. destruct Hr as (e & _ & Hr).
    apply bind_Ok_inv in Hr. destruct Hr as (b & _ & Hr).
    apply bind_Ok_inv in Hr. destruct Hr as (x & Hx & Hr).
    apply bind_Ok_inv in Hr. destruct Hr as (ex & Hex & _).
    apply (Hw d s e ex). rewrite Hx. exact Hex. }
  assert (H2 : forall r, App.totals_for_month st today <> Ok r).
  { intros r Hr. unfold App.totals_for_month in Hr.
    apply bind_Ok_inv in Hr. destruct Hr as (s & _ & Hr).
    apply bind_Ok_inv in Hr. destruct Hr as (e & _ & Hr).
    apply bind_Ok_inv in Hr. destruct Hr as (b & _ & Hr).
    apply bind_Ok_inv in Hr. destruct Hr as (x & Hx & Hr).
    apply bind_Ok_inv in Hr. destruct Hr as (ex & Hex & _).
    apply (Hw App.d s e ex). rewrite Hx. exact Hex. }
  split; [exact H1 |].
  split; [| split; [exact H2 |]].
  - intros r Hr. unfold remaining_and_per_day in Hr.
    apply bind_Ok_inv in Hr. destruct Hr as (t & Ht & _). exact (H1 t Ht).
  - intros r Hr. unfold App.refresh_summary in Hr.
    apply bind_Ok_inv in Hr. destruct Hr as (t & Ht & _). exact (H2 t Ht).
Qed.

Lemma unreadable_date_fails_witness :
  (forall r,
     totals_for_month
       (mkState [] [] [] [] [mkExpense "10.00" "Comida" "03/01/2026" ""]) example_today
     <> Ok r) /\
  totals_for_month
    (mkState [] [] [] [] [mkExpense "10.00" "Comida" "03/01/2026" ""]) example_today
  = Raise ValueError.
Proof.
  split; [| vm_compute; reflexivity].
  apply (unreadable_date_fails
           (mkState [] [] [] [] [mkExpense "10.00" "Comida" "03/01/2026" ""]) example_today).
  left. eexists. split; [left; reflexivity |].
  intros dt H. vm_compute in H. discriminate H.
Defined.

(** ** Sums of whole cents *)

Lemma pow10_28 : pow10 28 = 10000000000000000000000000000%N.
Proof. reflexivity. Qed.

Lemma fix_cents (z : Z) :
  Z.abs z < cent_limit -> fix_ (amount_of_cents z) = Ok (amount_of_cents z).
Proof.
  intros H. unfold amount_of_cents. apply fix_two_places, ndigits_le; [lia |].
  rewrite pow10_28. unfold cent_limit in H. lia.
Qed.

Lemma fix_small (s : bool) (c : N) :
  (c < pow10 28)%N -> fix_ (Fin s c (-2)) = Ok (Fin s c (-2)).
Proof. intros H. apply fix_two_places, ndigits_le; [lia | exact H]. Qed.

Lemma normalize_two_places (c1 c2 : N) :
  c2 <> 0%N -> normalize (c1, -2) (c2, -2) = ((c1, -2), (c2, -2)).
Proof.
  intros H2. pose proof (ndigits_pos c1) as P1. pose proof (ndigits_pos c2) as P2.
  unfold normalize. change (snd (c1, -2) <? snd (c2, -2)) with false.
  cbv iota zeta. cbn [fst snd]. unfold prec.
  replace (ndigits c2 + -2 - 1 <? -2 + Z.min (-1) (ndigits c1 - 28 - 2)) with false
    by (symmetry; apply Z.ltb_ge; lia).
  cbn [fst snd]. change (pow10 (-2 - -2)) with 1%N. now rewrite N.mul_1_r.
Qed.

Lemma rescale_same (s : bool) (c : N) (r : rounding) :
  rescale s c (-2) (-2) r = Fin s c (-2).
Proof.
  rewrite rescale_two_places. unfold coeff_two_places. cbn. now rewrite N.mul_1_r.
Qed.

(** Adding an amount of two places to a sum of cents is exact while the
    sum has at most 28 digits. *)
Lemma add_cents (z : Z) (s : bool) (c : N) :
  Z.abs z < cent_limit -> (c < pow10 28)%N ->
  Z.abs (z + cents (Fin s c (-2))) < cent_limit ->
  add (amount_of_cents z) (Fin s c (-2)) = Ok (amount_of_cents (z + cents (Fin s c (-2)))).
Proof.
  intros Hz Hc Hsum. rewrite pow10_28 in Hc. unfold cent_limit in *.
  change (amount_of_cents z) with (Fin (z <? 0) (Z.abs_N z) (-2)).
  unfold add. cbn [check_nans]. unfold cents in *.
  cbv zeta. change (Z.min (-2) (-2)) with (-2). unfold prec.
  change (Z.max (-2) (-2 - 28 - 1)) with (-2).
  destruct (N.eqb_spec (Z.abs_N z) 0) as [Ez | Nz];
    destruct (N.eqb_spec c 0) as [Ec | Nc]; cbn [andb].
  - assert (z = 0) by lia. subst z c. cbn [Z.ltb Z.compare andb].
    destruct s; reflexivity.
  - assert (z = 0) by lia. subst z. rewrite rescale_same.
    rewrite fix_small by (rewrite pow10_28; lia).
    unfold amount_of_cents. destruct s; cbn [Z.add].
    + replace (- Z.of_N c <? 0) with true by (symmetry; apply Z.ltb_lt; lia).
      do 2 f_equal. lia.
    + replace (Z.of_N c <? 0) with false by (symmetry; apply Z.ltb_ge; lia).
      do 2 f_equal. lia.
  - subst c. rewrite rescale_same.
    rewrite fix_small by (rewrite pow10_28; lia).
    unfold amount_of_cents. destruct s; cbn [Z.of_N Z.opp]; rewrite Z.add_0_r; reflexivity.
  - rewrite (normalize_two_places (Z.abs_N z) c Nc).
    destruct s; destruct (Z.ltb_spec z 0) as [Hneg | Hpos]; cbn [Bool.eqb].
    + rewrite fix_small by (rewrite pow10_28; lia).
      unfold amount_of_cents.
      replace (z + - Z.of_N c <? 0) with true by (symmetry; apply Z.ltb_lt; lia).
      do 2 f_equal. lia.
    + destruct (N.eqb_spec (Z.abs_N z) c) as [E | NE].
      * cbn [fix_ N.eqb]. unfold amount_of_cents.
        replace (z + - Z.of_N c) with 0 by lia. reflexivity.
      * destruct (N.ltb_spec (Z.abs_N z) c) as [L | G].
        -- rewrite fix_small by (rewrite pow10_28; lia).
           unfold amount_of_cents.
           replace (z + - Z.of_N c <? 0) with true by (symmetry; apply Z.ltb_lt; lia).
           do 2 f_equal. lia.
        -- rewrite fix_small by (rewrite pow10_28; lia).
           unfold amount_of_cents.
           replace (z + - Z.of_N c <? 0) with false by (symmetry; apply Z.ltb_ge; lia).
           do 2 f_equal. lia.
    + destruct (N.eqb_spec (Z.abs_N z) c) as [E | NE].
      * cbn [fix_ N.eqb]. unfold amount_of_cents.
        replace (z + Z.of_N c) with 0 by lia. reflexivity.
      * destruct (N.ltb_spec (Z.abs_N z) c) as [L | G].
        -- rewrite fix_small by (rewrite pow10_28; lia).
           unfold amount_of_cents.
           replace (z + Z.of_N c <? 0) with false by (symmetry; apply Z.ltb_ge; lia).
           do 2 f_equal. lia.
        -- rewrite fix_small by (rewrite pow10_28; lia).
           unfold amount_of_cents.
           replace (z + Z.of_N c <? 0) with true by (symmetry; apply Z.ltb_lt; lia).
           do 2 f_equal. lia.
    + rewrite fix_small by (rewrite pow10_28; lia).
      unfold amount_of_cents.
      replace (z + Z.of_N c <? 0) with false by (symmetry; apply Z.ltb_ge; lia).
      do 2 f_equal. lia.
Qed.

Lemma cents_of_text_shape (t : string) (z : Z) :
  cents_of_text t = Some z ->
  exists s c, d t = Ok (Fin s c (-2)) /\ (c < pow10 28)%N /\
              z = cents (Fin s c (-2)) /\ Z.abs z < cent_limit.
Proof.
  unfold cents_of_text. destruct (d t) as [[s c e | s | s sig diag] | ex] eqn:Hd;
    try discriminate.
  intros [= <-]. pose proof (d_shape t _ Hd) as Hs. cbn in Hs. destruct Hs as [-> Hn].
  assert (Hc : (c < pow10 28)%N).
  { apply N.lt_le_trans with (pow10 (ndigits c)); [apply ndigits_lt | apply pow10_le, Hn]. }
  exists s, c. repeat split; try assumption.
  rewrite pow10_28 in Hc. unfold cent_limit, cents. destruct s; lia.
Qed.

Lemma cents_amount (z : Z) : cents (amount_of_cents z) = z.
Proof. unfold cents, amount_of_cents. destruct (Z.ltb_spec z 0); lia. Qed.

Lemma add_zero_start (s : bool) (c : N) :
  add zero (Fin s c (-2)) = add (amount_of_cents 0) (Fin s c (-2)).
Proof.
  unfold add, zero, amount_of_cents. cbn [check_nans Z.abs_N Z.ltb Z.compare N.eqb andb].
  destruct (c =? 0)%N; reflexivity.
Qed.

Lemma quantize_cents (z : Z) (r : rounding) :
  Z.abs z < cent_limit -> quantize (amount_of_cents z) cent r = Ok (amount_of_cents z).
Proof.
  intros H. unfold amount_of_cents.
  assert (Hc : coeff_two_places r (Z.abs_N z) (-2) = Z.abs_N z).
  { unfold coeff_two_places. cbn. apply N.mul_1_r. }
  rewrite quantize_two_places_fits; rewrite Hc; [reflexivity |].
  rewrite pow10_28. unfold cent_limit in H. lia.
Qed.

Lemma total_abs_cons (t : string) (rest : list string) :
  total_abs (t :: rest) = Z.abs (text_cents t) + total_abs rest.
Proof. reflexivity. Qed.

Lemma total_cents_cons (t : string) (rest : list string) :
  total_cents (t :: rest) = text_cents t + total_cents rest.
Proof. reflexivity. Qed.

Lemma total_abs_nonneg (texts : list string) : 0 <= total_abs texts.
Proof.
  induction texts as [| t rest IH]; [cbn; lia | rewrite total_abs_cons; lia].
Qed.

Lemma total_cents_bound (texts : list string) : Z.abs (total_cents texts) <= total_abs texts.
Proof.
  induction texts as [| t rest IH]; [cbn; lia |].
  rewrite total_abs_cons, total_cents_cons. lia.
Qed.

Lemma total_abs_app (a b : list string) : total_abs (a ++ b) = total_abs a + total_abs b.
Proof.
  induction a as [| t rest IH]; [reflexivity |].
  cbn [app]. rewrite !total_abs_cons. lia.
Qed.

Lemma sum_from (texts : list string) (z : Z) :
  Forall (fun t => cents_of_text t <> None) texts ->
  Z.abs z + total_abs texts < cent_limit ->
  for_each (fun acc t => a <- d t ;; add acc a) texts (amount_of_cents z)
  = Ok (amount_of_cents (z + total_cents texts)).
Proof.
  revert z. induction texts as [| t rest IH]; intros z Hall Hb.
  - cbn. now rewrite Z.add_0_r.
  - inversion Hall as [| ? ? Ht Hrest]; subst.
    destruct (cents_of_text t) as [zt |] eqn:Ec; [| contradiction].
    destruct (cents_of_text_shape t zt Ec) as (s & c & Hd & Hc & Hz & Hlim).
    pose proof (total_abs_nonneg rest) as Hnn.
    assert (Etc : text_cents t = zt) by (unfold text_cents; now rewrite Ec).
    rewrite ?total_abs_cons, ?total_cents_cons in *. rewrite Etc in *.
    cbn [for_each]. rewrite Hd. cbn [bind].
    rewrite add_cents; [| lia | exact Hc | rewrite <- Hz; lia].
    cbn [bind]. rewrite <- Hz. rewrite IH; [f_equal; f_equal; lia | exact Hrest | lia].
Qed.

(** What a sum of readable amounts returns. *)
Lemma sum_amounts_value (texts : list string) :
  Forall (fun t => cents_of_text t <> None) texts ->
  total_abs texts < cent_limit ->
  sum_amounts texts = Ok (sum_value texts).
Proof.
  intros Hall Hb. unfold sum_amounts, sum_value. destruct texts as [| t rest].
  - reflexivity.
  - inversion Hall as [| ? ? Ht Hrest]; subst.
    destruct (cents_of_text t) as [zt |] eqn:Ec; [| contradiction].
    destruct (cents_of_text_shape t zt Ec) as (s & c & Hd & Hc & Hz & Hlim).
    pose proof (total_abs_nonneg rest) as Hnn.
    assert (Etc : text_cents t = zt) by (unfold text_cents; now rewrite Ec).
    rewrite ?total_abs_cons, ?total_cents_cons in *. rewrite Etc in *.
    cbn [for_each]. rewrite Hd. cbn [bind]. rewrite add_zero_start.
    rewrite add_cents; [| unfold cent_limit; cbn; lia | exact Hc | rewrite <- Hz; cbn [Z.add]; lia].
    cbn [bind]. rewrite <- Hz. cbn [Z.add].
    apply sum_from; [exact Hrest | lia].
Qed.

Lemma quantize_sum_value (texts : list string) (r : rounding) :
  total_abs texts < cent_limit ->
  quantize (sum_value texts) cent r = Ok (amount_of_cents (total_cents texts)).
Proof.
  intros Hb. destruct texts as [| t rest].
  - destruct r; reflexivity.
  - apply quantize_cents. pose proof (total_cents_bound (t :: rest)). lia.
Qed.

Lemma for_each_filter {A S : Type} (sel : A -> bool) (f : S -> A -> result S)
    (l : list A) (s : S) :
  for_each (fun acc r => if sel r then f acc r else Ok acc) l s = for_each f (filter sel l) s.
Proof.
  revert s. induction l as [| r rest IH]; intros s; cbn [for_each filter]; [reflexivity |].
  destruct (sel r); cbn [for_each bind]; [| apply IH].
  destruct (f s r); cbn [bind]; [apply IH | reflexivity].
Qed.

Lemma for_each_map {A B S : Type} (g : A -> B) (f : S -> B -> result S)
    (l : list A) (s : S) :
  for_each (fun acc r => f acc (g r)) l s = for_each f (map g l) s.
Proof.
  revert s. induction l as [| r rest IH]; intros s; cbn [for_each map]; [reflexivity |].
  destruct (f s (g r)); cbn [bind]; [apply IH | reflexivity].
Qed.

Lemma sum_base_as_texts (to_decimal : string -> result Decimal) (key : string)
    (rows : list Income) :
  sum_base to_decimal key rows
  = for_each (fun acc t => a <- to_decimal t ;; add acc a)
      (map i_amount (filter (fun row => String.eqb (i_month row) key) rows)) zero.
Proof.
  unfold sum_base.
  rewrite (for_each_filter (fun row => String.eqb (i_month row) key)
             (fun acc row => a <- to_decimal (i_amount row) ;; add acc a)).
  apply (for_each_map i_amount (fun acc t => a <- to_decimal t ;; add acc a)).
Qed.

Lemma sum_window_as_texts {A : Type} (to_decimal : string -> result Decimal)
    (dt_of amount_of : A -> string) (today : Cal.date) (rows : list A) :
  Cal.valid today = true ->
  Forall (fun row => exists dt, parse_date (dt_of row) = Ok dt) rows ->
  sum_window to_decimal dt_of amount_of
    (Cal.mkdate (Cal.year today) (Cal.month today) 1)
    (Cal.mkdate (Cal.year today) (Cal.month today)
       (Cal.days_in_month (Cal.year today) (Cal.month today))) rows
  = for_each (fun acc t => a <- to_decimal t ;; add acc a)
      (map amount_of (filter (fun row => in_month today (dt_of row)) rows)) zero.
Proof.
  intros Hv Hall. unfold sum_window.
  rewrite <- (for_each_map amount_of (fun acc t => a <- to_decimal t ;; add acc a)).
  rewrite <- (for_each_filter (fun row => in_month today (dt_of row))
                (fun acc row => a <- to_decimal (amount_of row) ;; add acc a)).
  apply for_each_ext. intros row Hin acc.
  rewrite Forall_forall in Hall. destruct (Hall row Hin) as [dt Hdt].
  unfold in_month. rewrite Hdt. cbn [bind].
  now rewrite (window_iff today dt Hv (parse_date_valid _ _ Hdt)).
Qed.

(** On amounts that the console reads, the sum of the form is the sum of
    the console. *)
Lemma sum_texts_app (texts : list string) :
  Forall (fun t => cents_of_text t <> None) texts ->
  for_each (fun acc t => a <- App.d t ;; add acc a) texts zero = sum_amounts texts.
Proof.
  intros Hall. unfold sum_amounts. apply for_each_ext. intros t Hin acc.
  rewrite Forall_forall in Hall. specialize (Hall t Hin).
  rewrite d_app_d; [reflexivity |].
  intros E. apply Hall. unfold cents_of_text, d. now rewrite E.
Qed.

Lemma days_remaining_spec (today : Cal.date) :
  Cal.valid today = true ->
  ~ (Cal.year today = 9999 /\ Cal.month today = 12) ->
  days_remaining_in_month today
  = Ok (Cal.days_in_month (Cal.year today) (Cal.month today) - Cal.day today + 1).
Proof.
  intros Hv Hne. unfold days_remaining_in_month.
  rewrite (month_end_spec today Hv Hne). cbn [bind]. f_equal.
  unfold Cal.diff_days, Cal.toordinal, Cal.ymd2ord. cbn [Cal.year Cal.month Cal.day]. lia.
Qed.

Lemma totals_exact (st : State) (today : Cal.date) :
  Cal.valid today = true ->
  ~ (Cal.year today = 9999 /\ Cal.month today = 12) ->
  month_readable st today ->
  totals_for_month st today
    = Ok (amount_of_cents (total_cents (base_texts st today)),
          amount_of_cents (total_cents (extra_texts st today)),
          amount_of_cents (total_cents (expense_texts st today))) /\
  App.totals_for_month st today
    = Ok (sum_value (base_texts st today), sum_value (extra_texts st today),
          sum_value (expense_texts st today)).
Proof.
  intros Hv Hne (Hx & He & Hall & Hb).
  apply Forall_app in Hall. destruct Hall as [HB Hall].
  apply Forall_app in Hall. destruct Hall as [HX HE].
  rewrite !total_abs_app in Hb.
  pose proof (total_abs_nonneg (base_texts st today)) as N1.
  pose proof (total_abs_nonneg (extra_texts st today)) as N2.
  pose proof (total_abs_nonneg (expense_texts st today)) as N3.
  unfold totals_for_month, App.totals_for_month.
  rewrite (month_start_spec today Hv), (month_end_spec today Hv Hne). cbn [bind].
  rewrite !sum_base_as_texts.
  rewrite !(sum_window_as_texts _ x_dt x_amount today _ Hv Hx).
  rewrite !(sum_window_as_texts _ e_dt e_amount today _ Hv He).
  fold (base_texts st today) (extra_texts st today) (expense_texts st today).
  rewrite (sum_texts_app _ HB), (sum_texts_app _ HX), (sum_texts_app _ HE).
  fold (sum_amounts (base_texts st today)) (sum_amounts (extra_texts st today))
    (sum_amounts (expense_texts st today)).
  rewrite (sum_amounts_value _ HB) by lia.
  rewrite (sum_amounts_value _ HX) by lia.
  rewrite (sum_amounts_value _ HE) by lia.
  cbn [bind]. rewrite !quantize_sum_value by lia. split; reflexivity.
Qed.

Lemma month_readable_bound (st : State) (today : Cal.date) :
  month_readable st today ->
  Z.abs (total_cents (base_texts st today)) + Z.abs (total_cents (extra_texts st today))
  + Z.abs (total_cents (expense_texts st today)) < cent_limit /\
  total_abs (base_texts st today) + total_abs (extra_texts st today)
  + total_abs (expense_texts st today) < cent_limit.
Proof.
  intros (_ & _ & _ & Hb). rewrite !total_abs_app in Hb.
  pose proof (total_cents_bound (base_texts st today)) as B1.
  pose proof (total_cents_bound (extra_texts st today)) as B2.
  pose proof (total_cents_bound (expense_texts st today)) as B3.
  lia.
Qed.

Lemma amount_of_cents_small (z : Z) : Z.abs z < cent_limit -> (Z.abs_N z < pow10 28)%N.
Proof. intros H. rewrite pow10_28. unfold cent_limit in H. lia. Qed.

Lemma add_amounts (b x : Z) :
  Z.abs b + Z.abs x < cent_limit ->
  add (amount_of_cents b) (amount_of_cents x) = Ok (amount_of_cents (b + x)).
Proof.
  intros Hb.
  change (amount_of_cents x) with (Fin (x <? 0) (Z.abs_N x) (-2)) at 1.
  rewrite add_cents;
    [| lia | apply amount_of_cents_small; lia
     | change (Fin (x <? 0) (Z.abs_N x) (-2)) with (amount_of_cents x);
       rewrite cents_amount; lia].
  change (Fin (x <? 0) (Z.abs_N x) (-2)) with (amount_of_cents x).
  now rewrite cents_amount.
Qed.

Lemma sub_amounts (t e : Z) :
  Z.abs t + Z.abs e < cent_limit ->
  sub (amount_of_cents t) (amount_of_cents e) = Ok (amount_of_cents (t - e)).
Proof.
  intros Hb. unfold sub. cbn [check_nans amount_of_cents copy_negate].
  assert (Hneg : cents (Fin (negb (e <? 0)) (Z.abs_N e) (-2)) = - e).
  { unfold cents. destruct (Z.ltb_spec e 0); cbn [negb]; lia. }
  change (Fin (t <? 0) (Z.abs_N t) (-2)) with (amount_of_cents t).
  rewrite add_cents;
    [| lia | apply amount_of_cents_small; lia | rewrite Hneg; lia].
  rewrite Hneg. do 2 f_equal.
Qed.

(** Incomes minus expenses, on whole cents. *)
Lemma remaining_exact (b x e : Z) :
  Z.abs b + Z.abs x + Z.abs e < cent_limit ->
  (total_income <- add (amount_of_cents b) (amount_of_cents x) ;;
   diff <- sub total_income (amount_of_cents e) ;;
   quantize diff cent context_rounding)
  = Ok (amount_of_cents (b + x - e)).
Proof.
  intros Hb. rewrite add_amounts by lia. cbn [bind].
  rewrite sub_amounts by lia. cbn [bind]. apply quantize_cents. lia.
Qed.

Lemma add_zero_l (x : Z) :
  Z.abs x < cent_limit -> add zero (amount_of_cents x) = Ok (amount_of_cents x).
Proof.
  intros H. change (amount_of_cents x) with (Fin (x <? 0) (Z.abs_N x) (-2)) at 1.
  rewrite add_zero_start.
  change (Fin (x <? 0) (Z.abs_N x) (-2)) with (amount_of_cents x).
  rewrite (add_amounts 0 x) by (cbn; lia). reflexivity.
Qed.

Lemma add_zero_r (z : Z) (s : bool) :
  Z.abs z < cent_limit -> add (amount_of_cents z) (Fin s 0 0) = Ok (amount_of_cents z).
Proof.
  intros H. unfold add, amount_of_cents. cbn [check_nans].
  cbv zeta. change (Z.min (-2) 0) with (-2). unfold prec.
  change (Z.max (-2) (-2 - 28 - 1)) with (-2).
  destruct (N.eqb_spec (Z.abs_N z) 0) as [Ez | Nz]; cbn [andb N.eqb].
  - assert (z = 0) by lia. subst z. reflexivity.
  - rewrite rescale_same. apply fix_small, amount_of_cents_small, H.
Qed.

(** The same on what the sums of the form leave. *)
Lemma remaining_of_sums (B X E : list string) :
  total_abs B + total_abs X + total_abs E < cent_limit ->
  (total_inc <- add (sum_value B) (sum_value X) ;;
   diff <- sub total_inc (sum_value E) ;;
   quantize diff cent context_rounding)
  = Ok (amount_of_cents (total_cents B + total_cents X - total_cents E)).
Proof.
  intros Hb.
  pose proof (total_cents_bound B) as B1. pose proof (total_cents_bound X) as B2.
  pose proof (total_cents_bound E) as B3.
  pose proof (total_abs_nonneg B) as N1. pose proof (total_abs_nonneg X) as N2.
  pose proof (total_abs_nonneg E) as N3.
  assert (Hsub0 : forall t, Z.abs t < cent_limit ->
            sub (amount_of_cents t) zero = Ok (amount_of_cents t)).
  { intros t Ht. unfold sub, zero. cbn [check_nans amount_of_cents copy_negate negb].
    exact (add_zero_r t true Ht). }
  assert (Hsubz : forall e, Z.abs e < cent_limit ->
            sub zero (amount_of_cents e) = Ok (amount_of_cents (- e))).
  { intros e He. unfold sub. cbn [check_nans zero amount_of_cents copy_negate].
    fold zero. rewrite add_zero_start.
    rewrite add_cents; [| cbn; unfold cent_limit; lia | apply amount_of_cents_small, He |].
    - do 2 f_equal. unfold cents. destruct (Z.ltb_spec e 0); cbn [negb]; lia.
    - unfold cents. destruct (Z.ltb_spec e 0); cbn [negb]; lia. }
  destruct B as [| tb B']; destruct X as [| tx X']; destruct E as [| te E'];
    cbn [sum_value];
    repeat match goal with
    | |- context [total_cents []] => change (total_cents []) with 0
    | H : context [total_cents []] |- _ => change (total_cents []) with 0 in H
    end.
  - reflexivity.
  - change (add zero zero) with (Ok zero). cbn [bind]. rewrite Hsubz by lia.
    cbn [bind]. rewrite quantize_cents by lia. do 2 f_equal.
  - rewrite add_zero_l by lia. cbn [bind]. rewrite Hsub0 by lia. cbn [bind].
    rewrite quantize_cents by lia. do 2 f_equal. lia.
  - rewrite add_zero_l by lia. cbn [bind]. rewrite sub_amounts by lia. cbn [bind].
    rewrite quantize_cents by lia. do 2 f_equal.
  - rewrite (add_zero_r _ false) by lia. cbn [bind]. rewrite Hsub0 by lia. cbn [bind].
    rewrite quantize_cents by lia. do 2 f_equal. lia.
  - rewrite (add_zero_r _ false) by lia. cbn [bind]. rewrite sub_amounts by lia.
    cbn [bind]. rewrite quantize_cents by lia. do 2 f_equal. lia.
  - rewrite add_amounts by lia. cbn [bind]. rewrite Hsub0 by lia. cbn [bind].
    rewrite quantize_cents by lia. do 2 f_equal. lia.
  - rewrite add_amounts by lia. cbn [bind]. rewrite sub_amounts by lia. cbn [bind].
    rewrite quantize_cents by lia. reflexivity.
Qed.

Lemma remaining_and_per_day_exact (st : State) (today : Cal.date) :
  Cal.valid today = true ->
  ~ (Cal.year today = 9999 /\ Cal.month today = 12) ->
  month_readable st today ->
  remaining_and_per_day st today
    = (per_day <- per_day_of (amount_of_cents (cents_left st today)) (days_left_of today) ;;
       Ok (amount_of_cents (cents_left st today), per_day, days_left_of today)) /\
  App.refresh_summary st today = remaining_and_per_day st today.
Proof.
  intros Hv Hne Hm.
  destruct (totals_exact st today Hv Hne Hm) as [Ht Ha].
  destruct (month_readable_bound st today Hm) as [Hb Hb'].
  assert (E1 : remaining_and_per_day st today
    = (per_day <- per_day_of (amount_of_cents (cents_left st today)) (days_left_of today) ;;
       Ok (amount_of_cents (cents_left st today), per_day, days_left_of today))).
  { unfold remaining_and_per_day. rewrite Ht. cbn [bind].
    pose proof (remaining_exact _ _ _ Hb) as Hr.
    destruct (add _ _) as [t |]; [| discriminate Hr]. cbn [bind] in *.
    destruct (sub t _) as [df |]; [| discriminate Hr]. cbn [bind] in *.
    rewrite Hr. cbn [bind]. rewrite (days_remaining_spec today Hv Hne). reflexivity. }
  split; [exact E1 |]. rewrite E1.
  unfold App.refresh_summary. rewrite Ha. cbn [bind].
  pose proof (remaining_of_sums _ _ _ Hb') as Hr.
  destruct (add _ _) as [t |]; [| discriminate Hr]. cbn [bind] in *.
  destruct (sub t _) as [df |]; [| discriminate Hr]. cbn [bind] in *.
  rewrite Hr. cbn [bind]. rewrite (days_remaining_spec today Hv Hne). reflexivity.
Qed.

Lemma example_month_readable : month_readable example_state example_today.
Proof.
  repeat split.
  - repeat constructor; eexists; vm_compute; reflexivity.
  - repeat constructor; eexists; vm_compute; reflexivity.
  - repeat constructor; vm_compute; discriminate.
Qed.

Lemma example_not_last_month :
  ~ (Cal.year example_today = 9999 /\ Cal.month example_today = 12).
Proof. intros [H _]. discriminate H. Qed.

(** X11: the totals have no rounding drift.  On a valid day outside
    December 9999, when every date text of the ledger is readable, every
    amount of the month is read by [d] as a number, and the amounts of the
    month add up, in absolute value, to less than 10^28 cents, the three
    totals are the exact sums of the cents of the month's rows and the
    remaining balance is incomes minus expenses, to the cent. *)
Theorem totals_are_exact (st : State) (today : Cal.date) :
  Cal.valid today = true ->
  ~ (Cal.year today = 9999 /\ Cal.month today = 12) ->
  month_readable st today ->
  totals_for_month st today
    = Ok (amount_of_cents (total_cents (base_texts st today)),
          amount_of_cents (total_cents (extra_texts st today)),
          amount_of_cents (total_cents (expense_texts st today))) /\
  remaining_and_per_day st today
    = (per_day <- per_day_of (amount_of_cents (cents_left st today)) (days_left_of today) ;;
       Ok (amount_of_cents (cents_left st today), per_day, days_left_of today)).
Proof.
  intros Hv Hne Hm. split.
  - exact (proj1 (totals_exact st today Hv Hne Hm)).
  - exact (proj1 (remaining_and_per_day_exact st today Hv Hne Hm)).
Qed.

Lemma totals_are_exact_witness :
  totals_for_month example_state example_today
  = Ok (amount_of_cents 5000000, amount_of_cents 200000, amount_of_cents 1500000).
Proof.
  exact (proj1 (totals_are_exact example_state example_today eq_refl
                  example_not_last_month example_month_readable)).
Defined.

(** X12: the form and the console show the same month.  On a valid day
    outside December 9999 and under the same conditions on the ledger, the
    sums of [App.totals_for_month], which are not quantized and start from
    [Decimal("0")], give in [App.refresh_summary] the figures of
    [remaining_and_per_day]: the same balance, the same amount per day and
    the same days left, also for a month without rows. *)
Theorem form_agrees_with_console (st : State) (today : Cal.date) :
  Cal.valid today = true ->
  ~ (Cal.year today = 9999 /\ Cal.month today = 12) ->
  month_readable st today ->
  App.totals_for_month st today
    = Ok (sum_value (base_texts st today), sum_value (extra_texts st today),
          sum_value (expense_texts st today)) /\
  App.refresh_summary st today = remaining_and_per_day st today.
Proof.
  intros Hv Hne Hm. split.
  - exact (proj2 (totals_exact st today Hv Hne Hm)).
  - exact (proj2 (remaining_and_per_day_exact st today Hv Hne Hm)).
Qed.

Lemma form_agrees_with_console_witness :
  App.refresh_summary example_state example_today
  = remaining_and_per_day example_state example_today.
Proof.
  exact (proj2 (form_agrees_with_console example_state example_today eq_refl
                  example_not_last_month example_month_readable)).
Defined.

(** ** The summary of the console *)

(** X13: the lines of the summary add up.  On a valid day outside
    December 9999 and under the conditions of the exact totals,
    [show_dashboard] shows the month key, the exact base and extra incomes,
    their exact sum as the total of incomes, the exact expenses, and as
    what is left the total of incomes minus the expenses; it fails only
    when the amount per day cannot be computed. *)
Theorem dashboard_adds_up (st : State) (today : Cal.date) :
  Cal.valid today = true ->
  ~ (Cal.year today = 9999 /\ Cal.month today = 12) ->
  month_readable st today ->
  let b := total_cents (base_texts st today) in
  let x := total_cents (extra_texts st today) in
  let e := total_cents (expense_texts st today) in
  show_dashboard st today
  = (per_day <- per_day_of (amount_of_cents (b + x - e)) (days_left_of today) ;;
     Ok [Cal.strftime_Ym today;
         fmt_money (amount_of_cents b); fmt_money (amount_of_cents x);
         fmt_money (amount_of_cents (b + x)); fmt_money (amount_of_cents e);
         fmt_money (amount_of_cents (b + x - e));
         str_int (days_left_of today); fmt_money per_day]).
Proof.
  intros Hv Hne Hm. cbv zeta.
  destruct (totals_exact st today Hv Hne Hm) as [Ht _].
  destruct (remaining_and_per_day_exact st today Hv Hne Hm) as [Hr _].
  destruct (month_readable_bound st today Hm) as [Hb _].
  unfold show_dashboard. rewrite Ht. cbn [bind].
  rewrite add_amounts by lia. cbn [bind].
  rewrite quantize_cents by lia. cbn [bind].
  rewrite Hr. unfold cents_left.
  destruct (per_day_of _ _); reflexivity.
Qed.

Lemma dashboard_adds_up_witness :
  show_dashboard example_state example_today
  = Ok ["2026-01"; "$50,000.00"; "$2,000.00"; "$52,000.00"; "$15,000.00";
        "$37,000.00"; "17"; "$2,176.47"].
Proof.
  rewrite (dashboard_adds_up example_state example_today eq_refl
             example_not_last_month example_month_readable).
  vm_compute. reflexivity.
Defined.

(** ** The readers of the console *)

Lemma quantize_cent_raises (r : rounding) (x : Decimal) (e : exn) :
  quantize x cent r = Raise e -> e = InvalidOperation.
Proof.
  destruct x as [s c ex | s | s sig diag].
  - destruct (N.lt_ge_cases (coeff_two_places r c ex) (pow10 28)) as [H | H].
    + rewrite (quantize_two_places_fits r s c ex H). discriminate.
    + rewrite (quantize_two_places_too_big r s c ex H). now intros [= <-].
  - cbn. now intros [= <-].
  - unfold quantize, cent. destruct sig; cbn [check_nans]; [now intros [= <-] | discriminate].
Qed.

(** [d] raises a ValueError on a text that the constructor refuses and an
    InvalidOperation when the [quantize] fails; nothing else. *)
Lemma d_raises (t : string) (e : exn) :
  d t = Raise e ->
  (e = ValueError /\ of_string t = None) \/
  (e = InvalidOperation /\ of_string t <> None).
Proof.
  unfold d. destruct (of_string t) as [x |].
  - intros H. right. split; [exact (quantize_cent_raises _ _ _ H) | discriminate].
  - intros [= <-]. left. split; reflexivity.
Qed.

Lemma make_raises (y m dd : Z) (e : exn) : Cal.make y m dd = Raise e -> e = ValueError.
Proof. unfold Cal.make. destruct (Cal.valid _); [discriminate | now intros [= <-]]. Qed.

Lemma parse_date_raises (s : string) (e : exn) : parse_date s = Raise e -> e = ValueError.
Proof.
  unfold parse_date, Cal.strptime_Ymd.
  destruct (Cal.match_year _) as [[y r] |]; [| now intros [= <-]].
  destruct r as [| c r1]; [now intros [= <-] |].
  destruct (Ascii.eqb_spec c "-") as [-> | Hne].
  - destruct (Cal.match_month_hyphen r1) as [[m r2] |]; [| now intros [= <-]].
    destruct (Cal.match_day r2) as [dd |]; [apply make_raises | now intros [= <-]].
  - destruct c as [[] [] [] [] [] [] [] []]; try (now intros [= <-]). now destruct Hne.
Qed.

Lemma int_of_text_raises (s : string) (e : exn) : int_of_text s = Raise e -> e = ValueError.
Proof. unfold int_of_text. destruct (_ && _); [discriminate | now intros [= <-]]. Qed.

(** What a reader leaves is an end of what it was given. *)
Lemma pick_loop_reads (options lines : list string) (c : option string) (rest : list string) :
  pick_loop options lines = Returns c rest ->
  exists skipped line, lines = (skipped ++ line :: rest)%list /\
    match c with
    | None => PyStr.strip line = ""
    | Some o =>
        exists idx, int_of_text (PyStr.strip line) = Ok idx /\ 1 <= idx /\
                    nth_error options (Z.to_nat (idx - 1)) = Some o
    end.
Proof.
  induction lines as [| line more IH]; [discriminate |].
  cbn [pick_loop].
  assert (Hloop : pick_loop options more = Returns c rest ->
                  exists skipped line0, line :: more = (skipped ++ line0 :: rest)%list /\
                    match c with
                    | None => PyStr.strip line0 = ""
                    | Some o =>
                        exists idx, int_of_text (PyStr.strip line0) = Ok idx /\ 1 <= idx /\
                                    nth_error options (Z.to_nat (idx - 1)) = Some o
                    end).
  { intros H. destruct (IH H) as (skipped & line0 & -> & Hc).
    exists (line :: skipped), line0. split; [reflexivity | exact Hc]. }
  destruct (String.eqb_spec (PyStr.strip line) "") as [E | NE].
  - intros [= <- <-]. exists [], line. split; [reflexivity | exact E].
  - destruct (isdigit (PyStr.strip line)); [| exact Hloop].
    destruct (int_of_text (PyStr.strip line)) as [idx |] eqn:Ei; [| discriminate].
    destruct ((1 <=? idx) && (idx <=? Z.of_nat (List.length options))) eqn:Er; [| exact Hloop].
    intros [= <- <-]. exists [], line. split; [reflexivity |].
    apply andb_true_iff in Er. destruct Er as [E1 E2].
    apply Z.leb_le in E1. apply Z.leb_le in E2.
    exists idx. split; [exact Ei |]. split; [exact E1 |].
    apply nth_error_nth'. lia.
Qed.

Lemma pick_loop_raises (options lines : list string) (e : exn) (rest : list string) :
  pick_loop options lines = Raises e rest -> e = ValueError.
Proof.
  induction lines as [| line more IH]; [discriminate |].
  cbn [pick_loop].
  destruct (String.eqb (PyStr.strip line) ""); [discriminate |].
  destruct (isdigit (PyStr.strip line)); [| exact IH].
  destruct (int_of_text (PyStr.strip line)) as [idx |] eqn:Ei.
  - destruct (_ && _); [discriminate | exact IH].
  - intros [= <- _]. exact (int_of_text_raises _ _ Ei).
Qed.

Lemma isdigit_not_empty (s : string) : isdigit s = true -> String.eqb s "" = false.
Proof. unfold isdigit. destruct (String.eqb s ""); [discriminate | reflexivity]. Qed.

(** X14: [pick_from_list] answers with an entry of the list, the one whose
    number was typed, or with [None] on an empty list or a blank line; the
    lines before the one that decides are skipped.  The only exception it
    lets through is the ValueError of [int], and a line that [isdigit]
    accepts but that is not made of decimal digits (a superscript digit)
    does raise it. *)
Theorem pick_from_list_answers (options lines : list string) :
  (forall o rest, pick_from_list options lines = Returns (Some o) rest ->
     In o options /\
     exists skipped line idx, lines = (skipped ++ line :: rest)%list /\
       int_of_text (PyStr.strip line) = Ok idx /\ 1 <= idx /\
       nth_error options (Z.to_nat (idx - 1)) = Some o) /\
  (forall rest, pick_from_list options lines = Returns None rest ->
     (options = [] /\ rest = lines) \/
     (exists skipped line, lines = (skipped ++ line :: rest)%list /\ PyStr.strip line = "")) /\
  (forall e rest, pick_from_list options lines = Raises e rest -> e = ValueError) /\
  (forall line rest,
     options <> [] -> isdigit (PyStr.strip line) = true ->
     all_chars PyStr.is_digit (PyStr.strip line) = false ->
     pick_from_list options (line :: rest) = Raises ValueError rest).
Proof.
  split; [| split; [| split]].
  - intros o rest H. unfold pick_from_list in H.
    destruct options as [| o1 os] eqn:Eo; [discriminate H |]. rewrite <- Eo in *.
    destruct (pick_loop_reads _ _ _ _ H) as (skipped & line & Hl & idx & Hi & H1 & Hn).
    split; [exact (nth_error_In _ _ Hn) |]. now exists skipped, line, idx.
  - intros rest H. unfold pick_from_list in H.
    destruct options as [| o1 os] eqn:Eo.
    + left. injection H as <-. split; reflexivity.
    + right. rewrite <- Eo in *. exact (pick_loop_reads _ _ _ _ H).
  - intros e rest H. unfold pick_from_list in H.
    destruct options as [| o1 os]; [discriminate H |].
    exact (pick_loop_raises _ _ _ _ H).
  - intros line rest Hne Hd Ha. unfold pick_from_list.
    destruct options as [| o1 os]; [now destruct Hne |].
    cbn [pick_loop]. rewrite (isdigit_not_empty _ Hd), Hd.
    unfold int_of_text. rewrite Ha. reflexivity.
Qed.

Lemma pick_from_list_answers_witness :
  pick_from_list ["Ana"; "Luis"] [String (ascii_of_nat 178) ""; "1"]
  = Raises ValueError ["1"].
Proof.
  apply (pick_from_list_answers ["Ana"; "Luis"] []).
  - discriminate.
  - reflexivity.
  - reflexivity.
Defined.

Lemma input_decimal_reads (lines : list string) (x : Decimal) (rest : list string) :
  input_decimal lines = Returns x rest ->
  exists skipped line, lines = (skipped ++ line :: rest)%list /\
    input_decimal_read line = Ok x /\
    Forall (fun l => input_decimal_read l = Raise ValueError) skipped.
Proof.
  induction lines as [| line more IH]; [discriminate |].
  cbn [input_decimal]. fold (input_decimal_read line).
  destruct (input_decimal_read line) as [y | []] eqn:E; try discriminate.
  - intros [= <- <-]. exists [], line.
    split; [reflexivity | split; [exact E | constructor]].
  - intros H. destruct (IH H) as (skipped & line0 & -> & Hx & Hs).
    exists (line :: skipped), line0.
    split; [reflexivity | split; [exact Hx | constructor; assumption]].
Qed.

Lemma input_decimal_raises (lines : list string) (e : exn) (rest : list string) :
  input_decimal lines = Raises e rest ->
  exists skipped line, lines = (skipped ++ line :: rest)%list /\
    input_decimal_read line = Raise InvalidOperation /\ e = InvalidOperation /\
    Forall (fun l => input_decimal_read l = Raise ValueError) skipped.
Proof.
  induction lines as [| line more IH]; [discriminate |].
  cbn [input_decimal]. fold (input_decimal_read line).
  destruct (input_decimal_read line) as [y | e0] eqn:E; [discriminate |].
  assert (He0 : e0 = ValueError \/ e0 = InvalidOperation).
  { unfold input_decimal_read in E. apply d_raises in E. tauto. }
  destruct He0 as [-> | ->].
  - intros H. destruct (IH H) as (skipped & line0 & -> & Hx & He & Hs).
    exists (line :: skipped), line0.
    split; [reflexivity |]. split; [exact Hx |]. split; [exact He |].
    constructor; assumption.
  - intros [= <- <-]. exists [], line.
    split; [reflexivity |]. split; [exact E |]. split; [reflexivity | constructor].
Qed.

(** X15: [input_decimal] skips the lines on which [d] raises a ValueError
    and stops at the first other line.  What it returns is what [d] makes
    of that line: an amount with two places and at most 28 digits, or a
    quiet NaN (the line NaN is accepted); its text reads back as the same
    value.  The [try] does not cover the failure of the [quantize]: on a
    line that the constructor converts but that cannot be brought to two
    places (an infinity, a signaling NaN, more than 28 digits) the
    function raises InvalidOperation instead of asking again. *)
Theorem input_decimal_answers (lines : list string) :
  (forall x rest, input_decimal lines = Returns x rest ->
     two_place_amount x /\ d (to_str x) = Ok x /\
     exists skipped line, lines = (skipped ++ line :: rest)%list /\
       input_decimal_read line = Ok x /\
       Forall (fun l => input_decimal_read l = Raise ValueError) skipped) /\
  (forall e rest, input_decimal lines = Raises e rest ->
     e = InvalidOperation /\
     exists skipped line, lines = (skipped ++ line :: rest)%list /\
       input_decimal_read line = Raise InvalidOperation /\
       Forall (fun l => input_decimal_read l = Raise ValueError) skipped) /\
  (forall line rest e,
     input_decimal_read line = Raise e -> e <> ValueError ->
     input_decimal (line :: rest) = Raises InvalidOperation rest).
Proof.
  split; [| split].
  - intros x rest H. destruct (input_decimal_reads _ _ _ H) as (skipped & line & Hl & Hx & Hs).
    assert (Hsh : two_place_amount x) by (exact (d_shape _ _ Hx)).
    split; [exact Hsh |]. split; [exact (proj1 (d_to_str_amount x Hsh)) |].
    now exists skipped, line.
  - intros e rest H.
    destruct (input_decimal_raises _ _ _ H) as (skipped & line & Hl & Hx & He & Hs).
    split; [exact He |]. now exists skipped, line.
  - intros line rest e H Hne. cbn [input_decimal]. fold (input_decimal_read line).
    rewrite H. unfold input_decimal_read in H. apply d_raises in H.
    destruct H as [[-> _] | [-> _]]; [now destruct Hne | reflexivity].
Qed.

Lemma input_decimal_answers_witness :
  input_decimal ["Infinity"; "10"] = Raises InvalidOperation ["10"].
Proof.
  apply (input_decimal_answers []) with (e := InvalidOperation).
  - reflexivity.
  - discriminate.
Defined.

Lemma input_date_reads (default : option Cal.date) (lines : list string)
    (dt : Cal.date) (rest : list string) :
  input_date default lines = Returns dt rest ->
  exists skipped line, lines = (skipped ++ line :: rest)%list /\
    ((PyStr.strip line = "" /\ default = Some dt) \/ parse_date line = Ok dt) /\
    Forall (fun l => parse_date l = Raise ValueError) skipped.
Proof.
  assert (Hp : forall l, parse_date (PyStr.strip l) = parse_date l).
  { intros l. unfold parse_date. now rewrite strip_idempotent. }
  induction lines as [| line more IH]; [discriminate |].
  cbn [input_date]. rewrite Hp.
  destruct (String.eqb_spec (PyStr.strip line) "") as [E | NE].
  - destruct default as [dflt |].
    + intros [= <- <-]. exists [], line.
      split; [reflexivity |]. split; [left; now split | constructor].
    + destruct (parse_date line) as [y | e0] eqn:Ep.
      * intros [= <- <-]. exists [], line.
      split; [reflexivity |]. split; [right; exact Ep | constructor].
      * pose proof (parse_date_raises _ _ Ep) as ->. intros H.
        destruct (IH H) as (skipped & line0 & -> & Hx & Hs).
        exists (line :: skipped), line0.
        split; [reflexivity |]. split; [exact Hx | constructor; assumption].
  - destruct (parse_date line) as [y | e0] eqn:Ep.
    + intros [= <- <-]. exists [], line.
      split; [reflexivity |]. split; [right; exact Ep | constructor].
    + pose proof (parse_date_raises _ _ Ep) as ->. intros H.
      destruct (IH H) as (skipped & line0 & -> & Hx & Hs).
      exists (line :: skipped), line0.
      split; [reflexivity |]. split; [exact Hx | constructor; assumption].
Qed.

Lemma input_date_never_raises (default : option Cal.date) (lines : list string)
    (e : exn) (rest : list string) :
  input_date default lines <> Raises e rest.
Proof.
  induction lines as [| line more IH]; [discriminate |].
  cbn [input_date].
  destruct (if String.eqb (PyStr.strip line) "" then default else None); [discriminate |].
  destruct (parse_date (PyStr.strip line)) as [y | e0] eqn:Ep; [discriminate |].
  rewrite (parse_date_raises _ _ Ep). exact IH.
Qed.

(** X16: [input_date] asks until a line is a date or, when there is a
    default, blank.  It returns the default or the date of that line, a
    date of the calendar whose ISO text reads back; the lines before are
    those that [parse_date] refuses; and it raises nothing itself. *)
Theorem input_date_answers (default : option Cal.date) (lines : list string) :
  (forall dt rest, input_date default lines = Returns dt rest ->
     (exists skipped line, lines = (skipped ++ line :: rest)%list /\
        ((PyStr.strip line = "" /\ default = Some dt) \/ parse_date line = Ok dt) /\
        Forall (fun l => parse_date l = Raise ValueError) skipped) /\
     ((forall dflt, default = Some dflt -> Cal.valid dflt = true) ->
      Cal.valid dt = true /\ parse_date (Cal.isoformat dt) = Ok dt)) /\
  (forall e rest, input_date default lines <> Raises e rest).
Proof.
  split; [| intros e rest; apply input_date_never_raises].
  intros dt rest H. pose proof (input_date_reads _ _ _ _ H) as Hr.
  split; [exact Hr |]. intros Hd.
  destruct Hr as (skipped & line & _ & [[_ E] | Hp] & _).
  - split; [exact (Hd dt E) | exact (parse_date_iso_ok dt (Hd dt E))].
  - pose proof (parse_date_valid _ _ Hp) as Hv.
    split; [exact Hv | exact (parse_date_iso_ok dt Hv)].
Qed.

Lemma input_date_answers_witness :
  Cal.valid (Cal.mkdate 2026 1 15) = true
  /\ parse_date (Cal.isoformat (Cal.mkdate 2026 1 15)) = Ok (Cal.mkdate 2026 1 15).
Proof.
  apply (proj1 (input_date_answers (Some (Cal.mkdate 2026 1 15)) ["hoy"; ""])
           (Cal.mkdate 2026 1 15) [] eq_refl).
  intros dflt [= <-]. reflexivity.
Defined.

(** ** The ledger that the menu keeps *)

Lemma ledger_ok_default : ledger_ok default_state.
Proof.
  assert (Hn : names_inv []) by (repeat split; constructor).
  unfold ledger_ok, default_state. cbn [categories people monthly_incomes extra_incomes expenses].
  split; [exact Hn |]. split; [exact Hn |].
  split; [intros p m; cbn; lia |].
  split; [constructor |]. split; constructor.
Qed.

Lemma ledger_ok_household : ledger_ok household_state.
Proof.
  assert (Ha : forall c, ndigits c <= 28 -> stored_amount (to_str (Fin false c (-2)))).
  { intros c Hc. exists (Fin false c (-2)). split; [split; [reflexivity | exact Hc] | reflexivity]. }
  assert (Hd : forall dt, Cal.valid dt = true -> stored_date (Cal.isoformat dt)).
  { intros dt Hv. exists dt. split; [exact Hv | reflexivity]. }
  unfold ledger_ok, household_state.
  cbn [categories people monthly_incomes extra_incomes expenses].
  split.
  { split; [| split].
    - repeat constructor; cbn; intuition discriminate.
    - repeat constructor.
    - repeat constructor; discriminate. }
  split.
  { split; [| split].
    - repeat constructor; cbn; intuition discriminate.
    - repeat constructor.
    - repeat constructor; discriminate. }
  split.
  { intros p m. unfold rows_of, same_key. cbn [filter i_person i_month].
    destruct (String.eqb "Ana" p && String.eqb "2026-01" m); cbn; lia. }
  split.
  { constructor; [| constructor]. cbn. split; [left; reflexivity |].
    apply (Ha 5000000%N). vm_compute. discriminate. }
  split.
  { constructor; [| constructor]. cbn. split; [left; reflexivity |]. split.
    - apply (Ha 200000%N). vm_compute. discriminate.
    - apply (Hd (Cal.mkdate 2026 1 10)). reflexivity. }
  constructor; [| constructor; [| constructor]]; cbn.
  - split; [left; reflexivity |]. split.
    + apply (Ha 1500000%N). vm_compute. discriminate.
    + apply (Hd (Cal.mkdate 2026 1 5)). reflexivity.
  - split; [left; reflexivity |]. split.
    + apply (Ha 500000%N). vm_compute. discriminate.
    + apply (Hd (Cal.mkdate 2025 12 20)). reflexivity.
Qed.

Lemma suffix_shorter {A : Type} (lines skipped rest : list A) (line : A) :
  lines = (skipped ++ line :: rest)%list -> (List.length rest < List.length lines)%nat.
Proof. intros ->. rewrite length_app. cbn. lia. Qed.

Lemma pick_from_list_picked (options lines : list string) (c : option string)
    (rest : list string) (o : string) :
  pick_from_list options lines = Returns c rest -> picked c = Some o ->
  In o options /\ (List.length rest <= List.length lines)%nat.
Proof.
  intros H Hp. assert (c = Some o) as ->.
  { destruct c as [[| ch t] |]; cbn in Hp; congruence. }
  unfold pick_from_list in H. destruct options as [| o1 os] eqn:Eo; [discriminate H |].
  rewrite <- Eo in *.
  destruct (pick_loop_reads _ _ _ _ H) as (skipped & line & Hl & idx & _ & _ & Hn).
  split; [exact (nth_error_In _ _ Hn) |].
  pose proof (suffix_shorter _ _ _ _ Hl). lia.
Qed.

Lemma pick_from_list_shorter (options lines : list string) (c : option string)
    (rest : list string) :
  pick_from_list options lines = Returns c rest ->
  (List.length rest <= List.length lines)%nat.
Proof.
  unfold pick_from_list. destruct options as [| o1 os].
  - intros [= _ <-]. lia.
  - intros H. destruct (pick_loop_reads _ _ _ _ H) as (skipped & line & Hl & _).
    pose proof (suffix_shorter _ _ _ _ Hl). lia.
Qed.

Lemma input_decimal_amount (lines : list string) (x : Decimal) (rest : list string) :
  input_decimal lines = Returns x rest ->
  two_place_amount x /\ (List.length rest < List.length lines)%nat.
Proof.
  intros H. destruct (input_decimal_reads _ _ _ H) as (skipped & line & Hl & Hx & _).
  split; [exact (d_shape _ _ Hx) | exact (suffix_shorter _ _ _ _ Hl)].
Qed.

Lemma input_date_valid (today : Cal.date) (lines : list string) (dt : Cal.date)
    (rest : list string) :
  Cal.valid today = true ->
  input_date (Some today) lines = Returns dt rest ->
  Cal.valid dt = true /\ (List.length rest < List.length lines)%nat.
Proof.
  intros Hv H. destruct (input_date_reads _ _ _ _ H) as (skipped & line & Hl & Hd & _).
  split; [| exact (suffix_shorter _ _ _ _ Hl)].
  destruct Hd as [[_ [= <-]] | Hp]; [exact Hv | exact (parse_date_valid _ _ Hp)].
Qed.

Lemma overwrite_first_Forall (P : Income -> Prop) (l l' : list Income) (p a m : string) :
  overwrite_first l p a m = Some l' ->
  Forall P l ->
  (forall row, In row l -> P row -> i_person row = p -> P (mkIncome (i_person row) a (i_month row))) ->
  Forall P l'.
Proof.
  revert l'. induction l as [| row rest IH]; intros l' Ho Hall Hp; [discriminate Ho |].
  inversion Hall as [| ? ? Hrow Hrest]; subst.
  cbn [overwrite_first] in Ho.
  destruct (String.eqb_spec (i_person row) p) as [Epers | NE]; cbn [andb] in Ho.
  - destruct (String.eqb (i_month row) m).
    + injection Ho as <-. constructor; [| exact Hrest].
      apply Hp; [left; reflexivity | exact Hrow | exact Epers].
    + destruct (overwrite_first rest p a m) as [r' |]; [| discriminate Ho].
      injection Ho as <-. constructor; [exact Hrow |].
      apply IH; [reflexivity | exact Hrest |].
      intros r Hr. apply Hp. right. exact Hr.
  - destruct (overwrite_first rest p a m) as [r' |]; [| discriminate Ho].
    injection Ho as <-. constructor; [exact Hrow |].
    apply IH; [reflexivity | exact Hrest |].
    intros r Hr. apply Hp. right. exact Hr.
Qed.

Lemma upsert_Forall (P : Income -> Prop) (l : list Income) (p a m : string) :
  Forall P l ->
  P (mkIncome p a m) ->
  (forall row, In row l -> P row -> i_person row = p -> P (mkIncome (i_person row) a (i_month row))) ->
  Forall P (upsert l p a m).
Proof.
  intros Hall Hnew Hp. unfold upsert.
  destruct (overwrite_first l p a m) as [l' |] eqn:Ho.
  - exact (overwrite_first_Forall P l l' p a m Ho Hall Hp).
  - apply Forall_app. split; [exact Hall | repeat constructor; exact Hnew].
Qed.

Lemma set_monthly_income_fields (st : State) (p : string) (amount : Decimal) (m : string) :
  categories (set_monthly_income st p amount m) = categories st /\
  people (set_monthly_income st p amount m) = people st /\
  extra_incomes (set_monthly_income st p amount m) = extra_incomes st /\
  expenses (set_monthly_income st p amount m) = expenses st.
Proof.
  unfold set_monthly_income.
  destruct (overwrite_first _ _ _ _); cbn; repeat split; reflexivity.
Qed.

Lemma Forall_weaken {A : Type} (P Q : A -> Prop) (l : list A) :
  (forall a, P a -> Q a) -> Forall P l -> Forall Q l.
Proof. intros H Hl. induction Hl; constructor; auto. Qed.

Lemma ledger_ok_categories (st : State) (item : string) :
  ledger_ok st ->
  ledger_ok (set_categories st (snd (ensure_unique_add (categories st) item))) /\
  incl (categories st) (snd (ensure_unique_add (categories st) item)).
Proof.
  intros (Hc & Hp & Hk & Hm & Hx & He).
  destruct (ensure_unique_add_names (categories st) item Hc) as (Hinv & Hin & _).
  assert (Hincl : incl (categories st) (snd (ensure_unique_add (categories st) item))).
  { intros x Hx'. apply Hin. left. exact Hx'. }
  split; [| exact Hincl].
  unfold ledger_ok, set_categories. cbn [categories people monthly_incomes extra_incomes expenses].
  split; [exact Hinv |]. split; [exact Hp |]. split; [exact Hk |].
  split; [exact Hm |]. split; [exact Hx |].
  revert He. apply Forall_weaken. intros row (H1 & H2 & H3).
  split; [apply Hincl, H1 |]. split; assumption.
Qed.

Lemma ledger_ok_people (st : State) (item : string) :
  ledger_ok st ->
  ledger_ok (set_people st (snd (ensure_unique_add (people st) item))) /\
  incl (people st) (snd (ensure_unique_add (people st) item)).
Proof.
  intros (Hc & Hp & Hk & Hm & Hx & He).
  destruct (ensure_unique_add_names (people st) item Hp) as (Hinv & Hin & _).
  assert (Hincl : incl (people st) (snd (ensure_unique_add (people st) item))).
  { intros x Hx'. apply Hin. left. exact Hx'. }
  split; [| exact Hincl].
  unfold ledger_ok, set_people. cbn [categories people monthly_incomes extra_incomes expenses].
  split; [exact Hc |]. split; [exact Hinv |]. split; [exact Hk |].
  split; [| split; [| exact He]].
  - revert Hm. apply Forall_weaken. intros row (H1 & H2).
    split; [apply Hincl, H1 | exact H2].
  - revert Hx. apply Forall_weaken. intros row (H1 & H2 & H3).
    split; [apply Hincl, H1 |]. split; assumption.
Qed.

Lemma ledger_ok_monthly (st : State) (p : string) (amount : Decimal) (m : string) :
  ledger_ok st -> In p (people st) -> two_place_amount amount ->
  ledger_ok (set_monthly_income st p amount m).
Proof.
  intros (Hc & Hp & Hk & Hm & Hx & He) Hin Ha.
  destruct (set_monthly_income_fields st p amount m) as (E1 & E2 & E3 & E4).
  unfold ledger_ok. rewrite E1, E2, E3, E4, monthly_incomes_set.
  split; [exact Hc |]. split; [exact Hp |].
  split; [apply upsert_invariant, Hk |].
  split; [| split; [exact Hx | exact He]].
  apply upsert_Forall; [exact Hm | |].
  - cbn. split; [exact Hin | now exists amount].
  - intros row _ [H1 _] _. cbn. split; [exact H1 | now exists amount].
Qed.

Lemma ledger_ok_extra (st : State) (p : string) (amount : Decimal) (dt : Cal.date)
    (note : string) :
  ledger_ok st -> In p (people st) -> two_place_amount amount -> Cal.valid dt = true ->
  ledger_ok (add_extra_income st p amount dt note).
Proof.
  intros (Hc & Hp & Hk & Hm & Hx & He) Hin Ha Hv.
  unfold ledger_ok, add_extra_income.
  cbn [categories people monthly_incomes extra_incomes expenses].
  split; [exact Hc |]. split; [exact Hp |]. split; [exact Hk |].
  split; [exact Hm |]. split; [| exact He].
  apply Forall_app. split; [exact Hx |]. constructor; [| constructor]. cbn.
  split; [exact Hin |]. split; [now exists amount | now exists dt].
Qed.

Lemma ledger_ok_expense (st : State) (amount : Decimal) (c : string) (dt : Cal.date)
    (note : string) :
  ledger_ok st -> In c (categories st) -> two_place_amount amount -> Cal.valid dt = true ->
  ledger_ok (add_expense st amount c dt note).
Proof.
  intros (Hc & Hp & Hk & Hm & Hx & He) Hin Ha Hv.
  unfold ledger_ok, add_expense.
  cbn [categories people monthly_incomes extra_incomes expenses].
  split; [exact Hc |]. split; [exact Hp |]. split; [exact Hk |].
  split; [exact Hm |]. split; [exact Hx |].
  apply Forall_app. split; [exact He |]. constructor; [| constructor]. cbn.
  split; [exact Hin |]. split; [now exists amount | now exists dt].
Qed.

(** One turn of the menu: the ledger stays well formed, a line at least is
    read, and no name is lost. *)
Lemma menu_step_ok (today : Cal.date) (st st' : State) (lines rest : list string) :
  ledger_ok st -> Cal.valid today = true ->
  menu_step today st lines = Returns (Some st') rest ->
  ledger_ok st' /\ (List.length rest < List.length lines)%nat /\
  incl (categories st) (categories st') /\ incl (people st) (people st').
Proof.
  intros Hok Hv. unfold menu_step, io_bind, input, ret.
  destruct lines as [| l0 l1]; [discriminate |].
  change (List.length (l0 :: l1)) with (S (List.length l1)).
  assert (Hsame : forall r : list string, (List.length r <= List.length l1)%nat ->
            ledger_ok st /\ (List.length r < S (List.length l1))%nat /\
            incl (categories st) (categories st) /\ incl (people st) (people st)).
  { intros r Hr. split; [exact Hok |]. split; [lia |]. split; apply incl_refl. }
  destruct (String.eqb (PyStr.strip l0) "1").
  { unfold lift. destruct (show_dashboard st today); [| discriminate].
    intros [= <- <-]. apply Hsame. lia. }
  destruct (String.eqb (PyStr.strip l0) "2").
  { destruct l1 as [| l2 l3]; [discriminate |]. intros [= <- <-].
    destruct (ledger_ok_categories st (PyStr.strip l2) Hok) as [H1 H2].
    split; [exact H1 |]. split; [cbn; lia |]. split; [exact H2 | apply incl_refl]. }
  destruct (String.eqb (PyStr.strip l0) "3").
  { intros [= <- <-]. apply Hsame. lia. }
  destruct (String.eqb (PyStr.strip l0) "4").
  { destruct l1 as [| l2 l3]; [discriminate |]. intros [= <- <-].
    destruct (ledger_ok_people st (PyStr.strip l2) Hok) as [H1 H2].
    split; [exact H1 |]. split; [cbn; lia |]. split; [apply incl_refl | exact H2]. }
  destruct (String.eqb (PyStr.strip l0) "5").
  { intros [= <- <-]. apply Hsame. lia. }
  destruct (String.eqb (PyStr.strip l0) "6").
  { destruct (pick_from_list (people st) l1) as [c r1 | |] eqn:Ep; try discriminate.
    pose proof (pick_from_list_shorter _ _ _ _ Ep) as L1.
    destruct (picked c) as [person |] eqn:Epk.
    - destruct (pick_from_list_picked _ _ _ _ _ Ep Epk) as [Hin _].
      destruct (input_decimal r1) as [amount r2 | |] eqn:Ea; try discriminate.
      destruct (input_decimal_amount _ _ _ Ea) as [Ha L2].
      intros [= <- <-].
      destruct (set_monthly_income_fields st person amount (Cal.strftime_Ym today))
        as (E1 & E2 & _ & _).
      split; [exact (ledger_ok_monthly st _ _ _ Hok Hin Ha) |]. split; [lia |].
      split; [rewrite E1; apply incl_refl | rewrite E2; apply incl_refl].
    - intros [= <- <-]. apply Hsame. lia. }
  destruct (String.eqb (PyStr.strip l0) "7").
  { destruct (pick_from_list (people st) l1) as [c r1 | |] eqn:Ep; try discriminate.
    pose proof (pick_from_list_shorter _ _ _ _ Ep) as L1.
    destruct (picked c) as [person |] eqn:Epk.
    - destruct (pick_from_list_picked _ _ _ _ _ Ep Epk) as [Hin _].
      destruct (input_decimal r1) as [amount r2 | |] eqn:Ea; try discriminate.
      destruct (input_decimal_amount _ _ _ Ea) as [Ha L2].
      destruct (input_date (Some today) r2) as [dt r3 | |] eqn:Ed; try discriminate.
      destruct (input_date_valid _ _ _ _ Hv Ed) as [Hdv L3].
      destruct r3 as [| note r4]; [discriminate |].
      intros [= <- <-]. simpl in L3.
      split; [exact (ledger_ok_extra st _ _ _ _ Hok Hin Ha Hdv) |]. split; [lia |].
      split; apply incl_refl.
    - intros [= <- <-]. apply Hsame. lia. }
  destruct (String.eqb (PyStr.strip l0) "8").
  { destruct (pick_from_list (categories st) l1) as [c r1 | |] eqn:Ep; try discriminate.
    pose proof (pick_from_list_shorter _ _ _ _ Ep) as L1.
    destruct (picked c) as [category |] eqn:Epk.
    - destruct (pick_from_list_picked _ _ _ _ _ Ep Epk) as [Hin _].
      destruct (input_decimal r1) as [amount r2 | |] eqn:Ea; try discriminate.
      destruct (input_decimal_amount _ _ _ Ea) as [Ha L2].
      destruct (input_date (Some today) r2) as [dt r3 | |] eqn:Ed; try discriminate.
      destruct (input_date_valid _ _ _ _ Hv Ed) as [Hdv L3].
      destruct r3 as [| note r4]; [discriminate |].
      intros [= <- <-]. simpl in L3.
      split; [exact (ledger_ok_expense st _ _ _ _ Hok Hin Ha Hdv) |]. split; [lia |].
      split; apply incl_refl.
    - intros [= <- <-]. apply Hsame. lia. }
  destruct (String.eqb (PyStr.strip l0) "9"); [discriminate |].
  intros [= <- <-]. apply Hsame. lia.
Qed.

(** What is stored reads back. *)
Lemma ledger_ok_reads (st : State) :
  ledger_ok st ->
  Forall (fun row => exists x, d (i_amount row) = Ok x) (monthly_incomes st) /\
  Forall (fun row => (exists x, d (x_amount row) = Ok x) /\
                     exists dt, parse_date (x_dt row) = Ok dt) (extra_incomes st) /\
  Forall (fun row => (exists x, d (e_amount row) = Ok x) /\
                     exists dt, parse_date (e_dt row) = Ok dt) (expenses st).
Proof.
  intros (_ & _ & _ & Hm & Hx & He).
  assert (Ha : forall t, stored_amount t -> exists x, d t = Ok x).
  { intros t (x & Hx' & ->). exists x. exact (proj1 (d_to_str_amount x Hx')). }
  assert (Hd : forall t, stored_date t -> exists dt, parse_date t = Ok dt).
  { intros t (dt & Hv & ->). exists dt. exact (parse_date_iso_ok dt Hv). }
  split; [| split].
  - revert Hm. apply Forall_weaken. intros row [_ H]. exact (Ha _ H).
  - revert Hx. apply Forall_weaken. intros row (_ & H1 & H2). split; [exact (Ha _ H1) | exact (Hd _ H2)].
  - revert He. apply Forall_weaken. intros row (_ & H1 & H2). split; [exact (Ha _ H1) | exact (Hd _ H2)].
Qed.

(** X17: a turn of the menu keeps the ledger well formed.  On a valid day,
    from a ledger whose names are distinct, sorted and trimmed, whose
    monthly incomes have one row for a person and a month, and whose rows
    name a listed person or category and hold an amount and a date as the
    program writes them, a turn that ends leaves such a ledger; it has read
    a line at least, and the categories and people it had are still there.
    The empty ledger is of this kind, and on such a ledger every stored
    amount and date reads back. *)
Theorem menu_step_keeps_ledger (today : Cal.date) (st st' : State)
    (lines rest : list string) :
  ledger_ok st -> Cal.valid today = true ->
  menu_step today st lines = Returns (Some st') rest ->
  ledger_ok default_state /\
  ledger_ok st' /\ (List.length rest < List.length lines)%nat /\
  incl (categories st) (categories st') /\ incl (people st) (people st') /\
  Forall (fun row => exists x, d (i_amount row) = Ok x) (monthly_incomes st') /\
  Forall (fun row => (exists x, d (x_amount row) = Ok x) /\
                     exists dt, parse_date (x_dt row) = Ok dt) (extra_incomes st') /\
  Forall (fun row => (exists x, d (e_amount row) = Ok x) /\
                     exists dt, parse_date (e_dt row) = Ok dt) (expenses st').
Proof.
  intros Hok Hv H.
  destruct (menu_step_ok today st st' lines rest Hok Hv H) as (H1 & H2 & H3 & H4).
  split; [exact ledger_ok_default |].
  split; [exact H1 |]. split; [exact H2 |]. split; [exact H3 |]. split; [exact H4 |].
  exact (ledger_ok_reads st' H1).
Qed.

Lemma menu_step_keeps_ledger_witness :
  menu_step example_today household_state ["8"; "2"; "12,50"; ""; " pan "]
  = Returns (Some (add_expense household_state (Fin false 1250 (-2)) "Luz" example_today " pan ")) [] /\
  ledger_ok (add_expense household_state (Fin false 1250 (-2)) "Luz" example_today " pan ").
Proof.
  assert (E : menu_step example_today household_state ["8"; "2"; "12,50"; ""; " pan "]
              = Returns (Some (add_expense household_state (Fin false 1250 (-2)) "Luz"
                                 example_today " pan ")) [])
    by (vm_compute; reflexivity).
  split; [exact E |].
  exact (proj1 (proj2 (menu_step_keeps_ledger example_today household_state _ _ _
                         ledger_ok_household eq_refl E))).
Defined.






(** ** The summary of a ledger that the menu keeps *)

Lemma bind_Raise_inv {A B : Type} (c : result A) (k : A -> result B) (e : exn) :
  bind c k = Raise e -> c = Raise e \/ exists a, c = Ok a /\ k a = Raise e.
Proof. destruct c as [a | e0]; cbn; [eauto | intros [= ->]; auto]. Qed.

Lemma for_each_raises_only {A S : Type} (P : exn -> Prop) (body : S -> A -> result S)
    (rows : list A) (s : S) (e : exn) :
  (forall acc r e', In r rows -> body acc r = Raise e' -> P e') ->
  for_each body rows s = Raise e -> P e.
Proof.
  revert s. induction rows as [| r rest IH]; intros s Hb; [discriminate |].
  cbn [for_each]. intros H. apply bind_Raise_inv in H.
  destruct H as [H | (s' & _ & H)].
  - exact (Hb s r e (or_introl eq_refl) H).
  - apply (IH s'); [| exact H]. intros acc r' e' Hin. apply Hb. right. exact Hin.
Qed.

Lemma fix_raises (x : Decimal) (e : exn) : fix_ x = Raise e -> decimal_failure e.
Proof.
  unfold fix_, decimal_failure. destruct x as [s c ex | s | s sig diag]; try discriminate.
  destruct (c =? 0)%N; [discriminate |].
  destruct (Etop <? _); [intros [= <-]; auto |].
  cbv zeta. destruct (ex <? _); [| discriminate].
  destruct (round_up _ _ _); [destruct (prec <? _) |];
    (destruct (Etop <? _); [intros [= <-]; auto | discriminate]).
Qed.

Lemma check_nans_raises (x y : Decimal) (e : exn) :
  check_nans x y = Some (Raise e) -> decimal_failure e.
Proof.
  unfold check_nans, decimal_failure.
  destruct x as [? ? ? | ? | ? [] ?]; destruct y as [? ? ? | ? | ? [] ?];
    try discriminate; intros [= <-]; auto.
Qed.

Lemma add_raises (x y : Decimal) (e : exn) : add x y = Raise e -> decimal_failure e.
Proof.
  unfold add. destruct (check_nans x y) as [[? | ?] |] eqn:Ec.
  - discriminate.
  - intros [= <-]. exact (check_nans_raises _ _ _ Ec).
  - destruct x as [s1 c1 e1 | s1 | ? ? ?]; destruct y as [s2 c2 e2 | s2 | ? ? ?];
      try discriminate; try (intros [= <-]; left; reflexivity).
    + cbv zeta. destruct (_ && _)%bool; [apply fix_raises |].
      destruct (c1 =? 0)%N; [apply fix_raises |].
      destruct (c2 =? 0)%N; [apply fix_raises |].
      destruct (normalize _ _) as [[i1 x1] [i2 x2]].
      destruct (Bool.eqb s1 s2); [apply fix_raises |].
      destruct (i1 =? i2)%N; [apply fix_raises |].
      destruct (i1 <? i2)%N; apply fix_raises.
    + destruct (Bool.eqb s1 s2); [discriminate | intros [= <-]; left; reflexivity].
Qed.

Lemma sub_raises (x y : Decimal) (e : exn) : sub x y = Raise e -> decimal_failure e.
Proof.
  unfold sub. destruct (check_nans x y) as [[? | ?] |] eqn:Ec.
  - discriminate.
  - intros [= <-]. exact (check_nans_raises _ _ _ Ec).
  - apply add_raises.
Qed.

Lemma quantize_raises (x y : Decimal) (r : rounding) (e : exn) :
  quantize x y r = Raise e -> decimal_failure e.
Proof.
  unfold quantize. destruct (check_nans x y) as [[? | ?] |] eqn:Ec.
  - discriminate.
  - intros [= <-]. exact (check_nans_raises _ _ _ Ec).
  - clear Ec. destruct x as [s c ex | s | ? ? ?]; destruct y as [s2 c2 target | s2 | ? ? ?].
    + destruct (negb _); [intros [= <-]; left; reflexivity |].
      destruct (c =? 0)%N; [apply fix_raises |].
      destruct (Emax <? _); [intros [= <-]; left; reflexivity |].
      destruct (prec <? _); [intros [= <-]; left; reflexivity |].
      destruct (rescale s c ex target r) as [s' c' e' | ? | ? ? ?];
        [| intros H; discriminate H | intros H; discriminate H].
      destruct (Emax <? _); [intros [= <-]; left; reflexivity |].
      destruct (prec <? _); [intros [= <-]; left; reflexivity |].
      apply fix_raises.
    + intros [= <-]; left; reflexivity.
    + intros [= <-]; left; reflexivity.
    + intros [= <-]; left; reflexivity.
    + intros H; discriminate H.
    + intros [= <-]; left; reflexivity.
    + intros [= <-]; left; reflexivity.
    + intros [= <-]; left; reflexivity.
    + intros [= <-]; left; reflexivity.
Qed.

Lemma truediv_raises (x : Decimal) (n : Z) (e : exn) :
  0 < n -> truediv x (of_int n) = Raise e -> decimal_failure e.
Proof.
  intros Hn. unfold truediv, of_int.
  destruct (check_nans x _) as [[? | ?] |] eqn:Ec.
  - discriminate.
  - intros [= <-]. exact (check_nans_raises _ _ _ Ec).
  - clear Ec. destruct x as [s c ex | s | ? ? ?].
    + cbv zeta. destruct (N.eqb_spec (Z.abs_N n) 0) as [E | _]; [lia |].
      destruct (c =? 0)%N; [apply fix_raises |].
      destruct (negb _); [apply fix_raises |].
      destruct (strip_to_ideal _ _ _ _). apply fix_raises.
    + intros H; discriminate H.
    + intros [= <-]; left; reflexivity.
Qed.

Lemma per_day_of_raises (remaining : Decimal) (days_left : Z) (e : exn) :
  per_day_of remaining days_left = Raise e -> decimal_failure e.
Proof.
  unfold per_day_of. destruct (Z.ltb_spec 0 days_left) as [Hd | _]; [| discriminate].
  intros H. apply bind_Raise_inv in H. destruct H as [H | (q & _ & H)].
  - exact (truediv_raises _ _ _ Hd H).
  - exact (quantize_raises _ _ _ _ H).
Qed.

Lemma sum_base_raises (to_decimal : string -> result Decimal) (key : string)
    (rows : list Income) (e : exn) :
  Forall (fun row => exists x, to_decimal (i_amount row) = Ok x) rows ->
  sum_base to_decimal key rows = Raise e -> decimal_failure e.
Proof.
  intros Hall. unfold sum_base. apply for_each_raises_only.
  intros acc row e' Hin. rewrite Forall_forall in Hall.
  destruct (Hall row Hin) as [x Hx]. rewrite Hx. cbn [bind].
  destruct (String.eqb _ _); [apply add_raises | discriminate].
Qed.

Lemma sum_window_raises {A : Type} (to_decimal : string -> result Decimal)
    (dt_of amount_of : A -> string) (start end_ : Cal.date) (rows : list A) (e : exn) :
  Forall (fun row => (exists x, to_decimal (amount_of row) = Ok x) /\
                     exists dt, parse_date (dt_of row) = Ok dt) rows ->
  sum_window to_decimal dt_of amount_of start end_ rows = Raise e -> decimal_failure e.
Proof.
  intros Hall. unfold sum_window. apply for_each_raises_only.
  intros acc row e' Hin. rewrite Forall_forall in Hall.
  destruct (Hall row Hin) as [[x Hx] [dt Hdt]]. rewrite Hdt, Hx. cbn [bind].
  destruct (_ && _)%bool; [apply add_raises | discriminate].
Qed.

Lemma app_reads_too {A : Type} (amount_of : A -> string) (rows : list A) :
  Forall (fun row => exists x, d (amount_of row) = Ok x) rows ->
  Forall (fun row => exists x, App.d (amount_of row) = Ok x) rows.
Proof.
  apply Forall_weaken. intros row [x Hx]. exists x. exact (d_Ok_app_d _ _ Hx).
Qed.

Lemma app_reads_window {A : Type} (amount_of dt_of : A -> string) (rows : list A) :
  Forall (fun row => (exists x, d (amount_of row) = Ok x) /\
                     exists dt, parse_date (dt_of row) = Ok dt) rows ->
  Forall (fun row => (exists x, App.d (amount_of row) = Ok x) /\
                     exists dt, parse_date (dt_of row) = Ok dt) rows.
Proof.
  apply Forall_weaken. intros row [[x Hx] Hd]. split; [| exact Hd].
  exists x. exact (d_Ok_app_d _ _ Hx).
Qed.

Ltac raise_step H :=
  apply bind_Raise_inv in H;
  let a := fresh "a" in let E := fresh "E" in
  destruct H as [H | (a & E & H)].

Lemma totals_for_month_raises (st : State) (today : Cal.date) (e : exn) :
  ledger_ok st -> Cal.valid today = true ->
  ~ (Cal.year today = 9999 /\ Cal.month today = 12) ->
  (totals_for_month st today = Raise e -> decimal_failure e) /\
  (App.totals_for_month st today = Raise e -> decimal_failure e).
Proof.
  intros Hok Hv Hne. destruct (ledger_ok_reads st Hok) as (Rm & Rx & Re).
  unfold totals_for_month, App.totals_for_month.
  rewrite (month_start_spec today Hv), (month_end_spec today Hv Hne). cbn [bind].
  split; intros H.
  - raise_step H; [exact (sum_base_raises _ _ _ _ Rm H) |].
    raise_step H; [exact (sum_window_raises _ _ _ _ _ _ _ Rx H) |].
    raise_step H; [exact (sum_window_raises _ _ _ _ _ _ _ Re H) |].
    raise_step H; [exact (quantize_raises _ _ _ _ H) |].
    raise_step H; [exact (quantize_raises _ _ _ _ H) |].
    raise_step H; [exact (quantize_raises _ _ _ _ H) | discriminate H].
  - raise_step H; [exact (sum_base_raises _ _ _ _ (app_reads_too _ _ Rm) H) |].
    raise_step H; [exact (sum_window_raises _ _ _ _ _ _ _ (app_reads_window _ _ _ Rx) H) |].
    raise_step H; [exact (sum_window_raises _ _ _ _ _ _ _ (app_reads_window _ _ _ Re) H) |].
    discriminate H.
Qed.

Lemma remaining_and_per_day_raises (st : State) (today : Cal.date) (e : exn) :
  ledger_ok st -> Cal.valid today = true ->
  ~ (Cal.year today = 9999 /\ Cal.month today = 12) ->
  (remaining_and_per_day st today = Raise e -> decimal_failure e) /\
  (App.refresh_summary st today = Raise e -> decimal_failure e).
Proof.
  intros Hok Hv Hne. destruct (totals_for_month_raises st today e Hok Hv Hne) as [T1 T2].
  unfold remaining_and_per_day, App.refresh_summary.
  rewrite (days_remaining_spec today Hv Hne).
  split; intros H.
  - raise_step H; [exact (T1 H) |]. destruct a as [[b x] ex].
    raise_step H; [exact (add_raises _ _ _ H) |].
    raise_step H; [exact (sub_raises _ _ _ H) |].
    raise_step H; [exact (quantize_raises _ _ _ _ H) |].
    cbn [bind] in H.
    raise_step H; [exact (per_day_of_raises _ _ _ H) | discriminate H].
  - raise_step H; [exact (T2 H) |]. destruct a as [[b x] ex].
    raise_step H; [exact (add_raises _ _ _ H) |].
    raise_step H; [exact (sub_raises _ _ _ H) |].
    raise_step H; [exact (quantize_raises _ _ _ _ H) |].
    cbn [bind] in H.
    raise_step H; [exact (per_day_of_raises _ _ _ H) | discriminate H].
Qed.

(** X19: on a ledger that the menu keeps, the summary does not fail on what
    is stored.  For such a ledger and a day before December 9999, the
    totals, the balance and the summary of the console and the figures of
    the form raise no ValueError: every date and amount text is read, and
    the only failures left are those of the decimal arithmetic
    (InvalidOperation, Overflow). *)
Theorem summary_reads_the_ledger (st : State) (today : Cal.date) (e : exn) :
  ledger_ok st -> Cal.valid today = true ->
  ~ (Cal.year today = 9999 /\ Cal.month today = 12) ->
  (totals_for_month st today = Raise e -> decimal_failure e) /\
  (remaining_and_per_day st today = Raise e -> decimal_failure e) /\
  (show_dashboard st today = Raise e -> decimal_failure e) /\
  (App.refresh_summary st today = Raise e -> decimal_failure e).
Proof.
  intros Hok Hv Hne.
  destruct (totals_for_month_raises st today e Hok Hv Hne) as [T1 _].
  destruct (remaining_and_per_day_raises st today e Hok Hv Hne) as [R1 R2].
  split; [exact T1 |]. split; [exact R1 |]. split; [| exact R2].
  unfold show_dashboard. intros H.
  raise_step H; [exact (T1 H) |]. destruct a as [[b x] ex].
  raise_step H; [exact (add_raises _ _ _ H) |].
  raise_step H; [exact (quantize_raises _ _ _ _ H) |].
  raise_step H; [exact (R1 H) |].
  match goal with r : (Decimal * Decimal * Z)%type |- _ => destruct r as [[rem pd] dl] end.
  discriminate H.
Qed.

Lemma summary_reads_the_ledger_witness :
  totals_for_month large_incomes_state example_today = Raise InvalidOperation /\
  decimal_failure InvalidOperation.
Proof.
  assert (Hr : totals_for_month large_incomes_state example_today = Raise InvalidOperation)
    by (vm_compute; reflexivity).
  split; [exact Hr |].
  refine (proj1 (summary_reads_the_ledger large_incomes_state example_today
                   InvalidOperation _ eq_refl example_not_last_month) Hr).
  assert (Ha : stored_amount "99999999999999999999999999.99").
  { exists (Fin false 9999999999999999999999999999 (-2)).
    split; [split; [reflexivity | vm_compute; discriminate] | vm_compute; reflexivity]. }
  unfold ledger_ok, large_incomes_state.
  cbn [categories people monthly_incomes extra_incomes expenses].
  split; [repeat split; constructor |].
  split.
  { split; [| split].
    - repeat constructor; cbn; intuition discriminate.
    - repeat constructor.
    - repeat constructor; try discriminate. }
  split.
  { intros p m. unfold rows_of, same_key. cbn [filter i_person i_month].
    destruct (String.eqb "Ana" p) eqn:E1; destruct (String.eqb "Luis" p) eqn:E2;
      destruct (String.eqb "2026-01" m); cbn; try lia.
    apply String.eqb_eq in E1, E2. congruence. }
  split; [| split; constructor].
  constructor; [cbn; split; [left; reflexivity | exact Ha] |].
  constructor; [cbn; split; [right; left; reflexivity | exact Ha] | constructor].
Defined.

(** ** The handlers of the form *)

Lemma refreshed_after (st : State) (today : Cal.date) :
  Form.ledger_after (Form.refreshed st today) = Some st.
Proof. unfold Form.refreshed. destruct (App.refresh_summary st today); reflexivity. Qed.

Lemma refreshed_failure (st : State) (today : Cal.date) (e : exn) (st' : State) :
  ledger_ok st -> Cal.valid today = true ->
  ~ (Cal.year today = 9999 /\ Cal.month today = 12) ->
  Form.refreshed st today = Form.Failed e st' -> decimal_failure e /\ st' = st.
Proof.
  intros Hok Hv Hne. unfold Form.refreshed.
  destruct (App.refresh_summary st today) as [r | e0] eqn:E; [discriminate |].
  intros [= <- <-]. split; [| reflexivity].
  exact (proj2 (remaining_and_per_day_raises st today e0 Hok Hv Hne) E).
Qed.

Lemma app_d_raises (t : string) (e : exn) :
  App.d t = Raise e -> e = ValueError \/ e = InvalidOperation.
Proof.
  unfold App.d. destruct (of_string _) as [x |].
  - intros H. right. exact (quantize_cent_raises _ _ _ H).
  - intros [= <-]. left. reflexivity.
Qed.

(** X20: the handlers of the form keep the ledger well formed.  Whatever
    the texts of the fields, a handler that changes a well-formed ledger
    leaves a well-formed one, as long as the person or the category that
    the selector holds is one of the list; [add_category] and [add_person]
    need no such condition. *)
Theorem form_keeps_ledger (st st' : State) (today : Cal.date)
    (who amount dt note : string) :
  ledger_ok st ->
  (Form.ledger_after (Form.add_category st who) = Some st' -> ledger_ok st') /\
  (Form.ledger_after (Form.add_person st who) = Some st' -> ledger_ok st') /\
  (In (PyStr.strip who) (people st) ->
   Form.ledger_after (Form.save_monthly_income st today who amount) = Some st' ->
   ledger_ok st') /\
  (In (PyStr.strip who) (people st) ->
   Form.ledger_after (Form.save_extra_income st today who amount dt note) = Some st' ->
   ledger_ok st') /\
  (In (PyStr.strip who) (categories st) ->
   Form.ledger_after (Form.save_expense st today who amount dt note) = Some st' ->
   ledger_ok st').
Proof.
  intros Hok. split; [| split; [| split; [| split]]].
  - unfold Form.add_category. rewrite app_ensure_unique_add_same.
    pose proof (proj1 (ledger_ok_categories st who Hok)) as H.
    destruct (ensure_unique_add (categories st) who) as [[] l]; cbn in *; [| discriminate].
    now intros [= <-].
  - unfold Form.add_person. rewrite app_ensure_unique_add_same.
    pose proof (proj1 (ledger_ok_people st who Hok)) as H.
    destruct (ensure_unique_add (people st) who) as [[] l]; cbn in *; [| discriminate].
    now intros [= <-].
  - intros Hin. unfold Form.save_monthly_income.
    destruct (String.eqb (PyStr.strip who) ""); [discriminate |].
    destruct (App.d (PyStr.strip amount)) as [amt | e] eqn:Ed.
    + rewrite refreshed_after. intros [= <-].
      exact (ledger_ok_monthly st _ _ _ Hok Hin (app_d_shape _ _ Ed)).
    + destruct e; cbn; try discriminate; now intros [= <-].
  - intros Hin. unfold Form.save_extra_income.
    destruct (String.eqb (PyStr.strip who) ""); [discriminate |].
    destruct (App.d (PyStr.strip amount)) as [amt | e] eqn:Ed; [| discriminate].
    cbn [bind]. destruct (parse_date (PyStr.strip dt)) as [day | e] eqn:Ep; [| discriminate].
    cbn [bind]. rewrite refreshed_after. intros [= <-].
    exact (ledger_ok_extra st _ _ _ _ Hok Hin (app_d_shape _ _ Ed) (parse_date_valid _ _ Ep)).
  - intros Hin. unfold Form.save_expense.
    destruct (String.eqb (PyStr.strip who) ""); [discriminate |].
    destruct (App.d (PyStr.strip amount)) as [amt | e] eqn:Ed; [| discriminate].
    cbn [bind]. destruct (parse_date (PyStr.strip dt)) as [day | e] eqn:Ep; [| discriminate].
    cbn [bind]. rewrite refreshed_after. intros [= <-].
    exact (ledger_ok_expense st _ _ _ _ Hok Hin (app_d_shape _ _ Ed) (parse_date_valid _ _ Ep)).
Qed.

Lemma form_keeps_ledger_witness :
  Form.save_expense household_state example_today "Luz" "12,50" "2026-01-20" " pan "
  = Form.Saved (add_expense household_state (Fin false 1250 (-2)) "Luz"
                  (Cal.mkdate 2026 1 20) "pan") /\
  ledger_ok (add_expense household_state (Fin false 1250 (-2)) "Luz"
               (Cal.mkdate 2026 1 20) "pan").
Proof.
  assert (E : Form.save_expense household_state example_today "Luz" "12,50" "2026-01-20" " pan "
              = Form.Saved (add_expense household_state (Fin false 1250 (-2)) "Luz"
                              (Cal.mkdate 2026 1 20) "pan"))
    by (vm_compute; reflexivity).
  split; [exact E |].
  apply (proj2 (proj2 (proj2 (proj2
           (form_keeps_ledger household_state
              (add_expense household_state (Fin false 1250 (-2)) "Luz"
                 (Cal.mkdate 2026 1 20) "pan")
              example_today "Luz" "12,50" "2026-01-20" " pan " ledger_ok_household))))).
  - vm_compute. right. left. reflexivity.
  - rewrite E. reflexivity.
Defined.

(** X21: where the handlers of the form fail.  On a well-formed ledger,
    on a valid day outside December 9999 and with a selected person or
    category that is in the ledger's list, [save_extra_income] and
    [save_expense], which catch whatever the reading of the amount and of
    the date raises, can only fail in the summary, after the row is
    stored, and with a failure of the decimal arithmetic.
    [save_monthly_income] catches the ValueError only: with a selection
    that is not empty, an amount that the constructor converts but that
    cannot be brought to two places makes it fail with InvalidOperation,
    the ledger untouched. *)
Theorem form_failures (st : State) (today : Cal.date) (who amount dt note : string) :
  ledger_ok st -> Cal.valid today = true ->
  ~ (Cal.year today = 9999 /\ Cal.month today = 12) ->
  (forall e st',
     In (PyStr.strip who) (people st) ->
     Form.save_extra_income st today who amount dt note = Form.Failed e st' ->
     decimal_failure e /\
     exists amt day, App.d (PyStr.strip amount) = Ok amt /\
                     parse_date (PyStr.strip dt) = Ok day /\
                     st' = add_extra_income st (PyStr.strip who) amt day (PyStr.strip note)) /\
  (forall e st',
     In (PyStr.strip who) (categories st) ->
     Form.save_expense st today who amount dt note = Form.Failed e st' ->
     decimal_failure e /\
     exists amt day, App.d (PyStr.strip amount) = Ok amt /\
                     parse_date (PyStr.strip dt) = Ok day /\
                     st' = add_expense st amt (PyStr.strip who) day (PyStr.strip note)) /\
  (forall e,
     PyStr.strip who <> "" -> App.d (PyStr.strip amount) = Raise e -> e <> ValueError ->
     Form.save_monthly_income st today who amount = Form.Failed InvalidOperation st).
Proof.
  intros Hok Hv Hne. split; [| split].
  - intros e st' Hin. unfold Form.save_extra_income.
    destruct (String.eqb (PyStr.strip who) ""); [discriminate |].
    destruct (App.d (PyStr.strip amount)) as [amt | e0] eqn:Ed; [| discriminate].
    cbn [bind]. destruct (parse_date (PyStr.strip dt)) as [day | e0] eqn:Ep; [| discriminate].
    cbn [bind]. intros H.
    pose proof (ledger_ok_extra st _ _ _ (PyStr.strip note) Hok Hin
                  (app_d_shape _ _ Ed) (parse_date_valid _ _ Ep)) as Hok'.
    destruct (refreshed_failure _ _ _ _ Hok' Hv Hne H) as [Hf ->].
    split; [exact Hf |]. exists amt, day. repeat split.
  - intros e st' Hin. unfold Form.save_expense.
    destruct (String.eqb (PyStr.strip who) ""); [discriminate |].
    destruct (App.d (PyStr.strip amount)) as [amt | e0] eqn:Ed; [| discriminate].
    cbn [bind]. destruct (parse_date (PyStr.strip dt)) as [day | e0] eqn:Ep; [| discriminate].
    cbn [bind]. intros H.
    pose proof (ledger_ok_expense st _ _ _ (PyStr.strip note) Hok Hin
                  (app_d_shape _ _ Ed) (parse_date_valid _ _ Ep)) as Hok'.
    destruct (refreshed_failure _ _ _ _ Hok' Hv Hne H) as [Hf ->].
    split; [exact Hf |]. exists amt, day. repeat split.
  - intros e Hw Hd Hnv. unfold Form.save_monthly_income.
    destruct (String.eqb_spec (PyStr.strip who) "") as [E | _]; [contradiction |].
    rewrite Hd. destruct (app_d_raises _ _ Hd) as [-> | ->]; [contradiction | reflexivity].
Qed.

Lemma form_failures_witness :
  Form.save_monthly_income large_incomes_state example_today "Ana" "Infinity"
  = Form.Failed InvalidOperation large_incomes_state.
Proof.
  assert (Hok : ledger_ok large_incomes_state).
  { assert (Ha : stored_amount "99999999999999999999999999.99").
    { exists (Fin false 9999999999999999999999999999 (-2)).
      split; [split; [reflexivity | vm_compute; discriminate] | vm_compute; reflexivity]. }
    unfold ledger_ok, large_incomes_state.
    cbn [categories people monthly_incomes extra_incomes expenses].
    split; [repeat split; constructor |].
    split.
    { split; [| split].
      - repeat constructor; cbn; intuition discriminate.
      - repeat constructor.
      - repeat constructor; try discriminate. }
    split.
    { intros p m. unfold rows_of, same_key. cbn [filter i_person i_month].
      destruct (String.eqb "Ana" p) eqn:E1; destruct (String.eqb "Luis" p) eqn:E2;
        destruct (String.eqb "2026-01" m); cbn; try lia.
      apply String.eqb_eq in E1, E2. congruence. }
    split; [| split; constructor].
    constructor; [cbn; split; [left; reflexivity | exact Ha] |].
    constructor; [cbn; split; [right; left; reflexivity | exact Ha] | constructor]. }
  apply (proj2 (proj2 (form_failures large_incomes_state example_today "Ana" "Infinity" "" ""
                         Hok eq_refl example_not_last_month)) InvalidOperation).
  - discriminate.
  - reflexivity.
  - discriminate.
Defined.

(** ** The amount per day *)

Lemma round_interval (c m p : N) :
  (0 < p)%N -> (2 * c < 2 * m * p + p)%N -> (2 * m * p < 2 * c + p)%N ->
  ((p <=? 2 * (c mod p)) = false /\ c / p = m)%N \/
  ((p <=? 2 * (c mod p)) = true /\ (p =? 2 * (c mod p)) = false /\ c / p + 1 = m)%N.
Proof.
  intros Hp H1 H2.
  pose proof (N.div_mod c p ltac:(lia)) as Hdm.
  pose proof (N.mod_lt c p ltac:(lia)) as Hlt.
  set (Q := (c / p)%N) in *. set (g := (c mod p)%N) in *.
  assert (HQ : (Q = m \/ Q + 1 = m)%N).
  { assert (Q <= m)%N by nia. assert (m <= Q + 1)%N by nia. lia. }
  destruct HQ as [-> | <-].
  - left. split; [apply N.leb_gt; nia | reflexivity].
  - right. split; [apply N.leb_le; nia |]. split; [apply N.eqb_neq; nia | reflexivity].
Qed.

Lemma coeff_two_places_interval (c m : N) (e : Z) :
  e < -2 ->
  (2 * c < 2 * m * pow10 (-2 - e) + pow10 (-2 - e))%N ->
  (2 * m * pow10 (-2 - e) < 2 * c + pow10 (-2 - e))%N ->
  coeff_two_places ROUND_HALF_EVEN c e = m.
Proof.
  intros He H1 H2. unfold coeff_two_places.
  replace (-2 <=? e) with false by (symmetry; apply Z.leb_gt; lia).
  unfold round_up. cbv zeta.
  destruct (round_interval c m (pow10 (-2 - e)) (pow10_pos _) H1 H2)
    as [[Ha Hb] | (Ha & Hb & Hc')].
  - rewrite Ha. destruct (_ && _)%bool; now rewrite Hb.
  - rewrite Ha, Hb. cbn [andb]. now rewrite Hc'.
Qed.

(** Rounding an exact quotient. *)
Lemma coeff_two_places_exact (c c1 n : N) (e : Z) :
  e <= -2 -> (0 < n)%N -> (c * n = c1 * pow10 (-2 - e))%N ->
  coeff_two_places ROUND_HALF_EVEN c e = round_half_even_div c1 n.
Proof.
  intros He Hn Hex. unfold coeff_two_places, round_half_even_div.
  pose proof (N.div_mod c1 n ltac:(lia)) as Hd1.
  pose proof (N.mod_lt c1 n ltac:(lia)) as Hl1.
  set (q0 := (c1 / n)%N) in *. set (r0 := (c1 mod n)%N) in *.
  destruct (Z.leb_spec (-2) e) as [E | E].
  - assert (e = -2) by lia. subst e. change (pow10 (-2 - -2)) with 1%N in Hex.
    change (pow10 (-2 + 2)) with 1%N.
    rewrite N.mul_1_r in *.
    assert (Hc1 : (c <= q0)%N) by nia.
    assert (Hc2 : (q0 <= c)%N) by nia.
    assert (c = q0) by lia. subst c.
    assert (Hr : r0 = 0%N) by nia. rewrite Hr.
    replace (2 * 0 <? n)%N with true by (symmetry; apply N.ltb_lt; lia).
    reflexivity.
  - unfold round_up. cbv zeta.
    pose proof (pow10_pos (-2 - e)) as Hp. set (p := pow10 (-2 - e)) in *.
    pose proof (N.div_mod c p ltac:(lia)) as Hd.
    pose proof (N.mod_lt c p ltac:(lia)) as Hl.
    set (Q := (c / p)%N) in *. set (g := (c mod p)%N) in *.
    assert (HQ : Q = q0).
    { assert (Q <= q0)%N by nia. assert (q0 <= Q)%N by nia. lia. }
    assert (Hg : (g * n = r0 * p)%N) by nia.
    rewrite HQ.
    destruct (N.ltb_spec (2 * r0) n) as [L | L].
    + replace (p =? 2 * g)%N with false by (symmetry; apply N.eqb_neq; nia).
      replace (p <=? 2 * g)%N with false by (symmetry; apply N.leb_gt; nia).
      reflexivity.
    + destruct (N.ltb_spec n (2 * r0)) as [G | G].
      * replace (p =? 2 * g)%N with false by (symmetry; apply N.eqb_neq; nia).
        replace (p <=? 2 * g)%N with true by (symmetry; apply N.leb_le; nia).
        reflexivity.
      * replace (p =? 2 * g)%N with true by (symmetry; apply N.eqb_eq; nia).
        replace (p <=? 2 * g)%N with true by (symmetry; apply N.leb_le; nia).
        cbn [andb]. destruct (N.even q0); reflexivity.
Qed.

(** Rounding an approximate quotient that is not at a tie. *)
Lemma coeff_two_places_near (c c1 n : N) (e : Z) :
  e < -2 -> (0 < n)%N ->
  (3 * n < pow10 (-2 - e))%N ->
  (2 * c * n <= 2 * c1 * pow10 (-2 - e) + 3 * n)%N ->
  (2 * c1 * pow10 (-2 - e) <= 2 * c * n + 3 * n)%N ->
  (2 * (c1 mod n) <> n)%N ->
  coeff_two_places ROUND_HALF_EVEN c e = round_half_even_div c1 n.
Proof.
  intros He Hn Hbig Hup Hlo Htie.
  apply coeff_two_places_interval; [exact He | |];
    unfold round_half_even_div;
    pose proof (N.div_mod c1 n ltac:(lia)) as Hd1;
    pose proof (N.mod_lt c1 n ltac:(lia)) as Hl1;
    set (q0 := (c1 / n)%N) in *; set (r0 := (c1 mod n)%N) in *;
    set (p := pow10 (-2 - e)) in *;
    (destruct (N.ltb_spec (2 * r0) n) as [L | L];
     [| destruct (N.ltb_spec n (2 * r0)) as [G | G]; [| lia]]).
  - assert (2 * c * n < (2 * q0 * p + p) * n)%N by nia. nia.
  - assert (2 * c * n < (2 * (q0 + 1) * p + p) * n)%N by nia. nia.
  - assert ((2 * q0 * p) * n < (2 * c + p) * n)%N by nia. nia.
  - assert ((2 * (q0 + 1) * p) * n < (2 * c + p) * n)%N by nia. nia.
Qed.
Lemma fix_unchanged (s : bool) (c : N) (e : Z) :
  ndigits c <= 28 -> -1000000 <= e <= 0 -> fix_ (Fin s c e) = Ok (Fin s c e).
Proof.
  intros Hn He. unfold fix_.
  destruct (N.eqb_spec c 0) as [-> | Hc].
  - unfold Etiny, Emax, Emin, prec. do 2 f_equal. lia.
  - unfold Etop, Etiny, Emax, Emin, prec. pose proof (ndigits_pos c).
    replace (999999 - 28 + 1 <? ndigits c + e - 28) with false
      by (symmetry; apply Z.ltb_ge; lia).
    replace (e <? Z.max (ndigits c + e - 28) (-999999 - 28 + 1)) with false
      by (symmetry; apply Z.ltb_ge; lia).
    reflexivity.
Qed.

Lemma pow10_succ (k : Z) : 0 <= k -> pow10 (k + 1) = (10 * pow10 k)%N.
Proof. intros H. rewrite pow10_add by lia. change (pow10 1) with 10%N. lia. Qed.

(** [_fix] on a number of more than 28 digits: what it returns is within
    half a unit of its last place. *)
Lemma fix_rounds (s : bool) (c : N) (e : Z) :
  28 < ndigits c -> -1000000 <= e -> e + ndigits c <= 100 ->
  exists c2 e2,
    fix_ (Fin s c e) = Ok (Fin s c2 e2) /\
    e < e2 <= e + (ndigits c - 28) + 1 /\
    (2 * c <= 2 * c2 * pow10 (e2 - e) + pow10 (e2 - e))%N /\
    (2 * c2 * pow10 (e2 - e) <= 2 * c + pow10 (e2 - e))%N.
Proof.
  intros Hn He Hs. unfold fix_.
  assert (Hc : c <> 0%N).
  { intros ->. change (ndigits 0) with 1 in Hn. lia. }
  destruct (N.eqb_spec c 0) as [E | _]; [contradiction |].
  unfold Etop, Etiny, Emax, Emin, prec. cbv zeta.
  replace (999999 - 28 + 1 <? ndigits c + e - 28) with false
    by (symmetry; apply Z.ltb_ge; lia).
  replace (Z.max (ndigits c + e - 28) (-999999 - 28 + 1)) with (ndigits c + e - 28) by lia.
  replace (e <? ndigits c + e - 28) with true by (symmetry; apply Z.ltb_lt; lia).
  replace (ndigits c + e - 28 - e) with (ndigits c - 28) by lia.
  set (k := ndigits c - 28) in *.
  pose proof (pow10_pos k) as Hp.
  pose proof (N.div_mod c (pow10 k) ltac:(lia)) as Hd.
  pose proof (N.mod_lt c (pow10 k) ltac:(lia)) as Hl.
  assert (Hq : (c / pow10 k < pow10 28)%N).
  { apply N.Div0.div_lt_upper_bound.
    pose proof (ndigits_lt c) as Hlt.
    replace (ndigits c) with (k + 28) in Hlt by (unfold k; lia).
    rewrite pow10_add in Hlt by (unfold k; lia). lia. }
  set (q := (c / pow10 k)%N) in *. set (g := (c mod pow10 k)%N) in *.
  assert (Eexp : forall j, ndigits c + e - 28 + j - e = k + j) by (intros j; unfold k; lia).
  unfold round_up, context_rounding. cbv zeta. fold q g.
  destruct ((pow10 k =? 2 * g)%N && N.even q) eqn:Etie.
  - (* a tie, to even: no increment *)
    replace (999999 - 28 + 1 <? ndigits c + e - 28) with false
      by (symmetry; apply Z.ltb_ge; lia).
    exists q, (ndigits c + e - 28). split; [reflexivity |].
    replace (ndigits c + e - 28 - e) with k by (unfold k; lia).
    apply andb_true_iff in Etie. destruct Etie as [Et _]. apply N.eqb_eq in Et.
    split; [unfold k; lia |]. split; nia.
  - destruct (N.leb_spec (pow10 k) (2 * g)) as [Up | Down].
    + destruct (Z.ltb_spec 28 (ndigits (q + 1))) as [Carry | NoCarry].
      * assert (Hq1 : (q + 1 = pow10 28)%N).
        { destruct (N.lt_ge_cases (q + 1) (pow10 28)) as [L | G]; [| lia].
          pose proof (ndigits_le (q + 1) 28 ltac:(lia) L). lia. }
        replace (999999 - 28 + 1 <? ndigits c + e - 28 + 1) with false
          by (symmetry; apply Z.ltb_ge; lia).
        exists ((q + 1) / 10)%N, (ndigits c + e - 28 + 1). split; [reflexivity |].
        rewrite (Eexp 1). rewrite pow10_succ by (unfold k; lia).
        assert (Hq10 : ((q + 1) / 10 = pow10 27)%N).
        { rewrite Hq1. vm_compute. reflexivity. }
        assert (E28 : pow10 28 = (10 * pow10 27)%N) by (vm_compute; reflexivity).
        rewrite Hq10. set (p27 := pow10 27) in *. set (p28 := pow10 28) in *.
        split; [unfold k; lia |]. split; nia.
      * replace (999999 - 28 + 1 <? ndigits c + e - 28) with false
          by (symmetry; apply Z.ltb_ge; lia).
        exists (q + 1)%N, (ndigits c + e - 28). split; [reflexivity |].
        replace (ndigits c + e - 28 - e) with k by (unfold k; lia).
        split; [unfold k; lia |]. split; nia.
    + replace (999999 - 28 + 1 <? ndigits c + e - 28) with false
        by (symmetry; apply Z.ltb_ge; lia).
      exists q, (ndigits c + e - 28). split; [reflexivity |].
      replace (ndigits c + e - 28 - e) with k by (unfold k; lia).
      split; [unfold k; lia |]. split; nia.
Qed.
Lemma strip_to_ideal_spec (fuel : nat) (coeff : N) (exp ideal : Z) :
  exp <= ideal -> ideal - exp <= Z.of_nat fuel ->
  exp <= snd (strip_to_ideal fuel coeff exp ideal) <= ideal /\
  coeff = (fst (strip_to_ideal fuel coeff exp ideal)
           * pow10 (snd (strip_to_ideal fuel coeff exp ideal) - exp))%N /\
  (snd (strip_to_ideal fuel coeff exp ideal) = ideal \/
   (fst (strip_to_ideal fuel coeff exp ideal) mod 10 <> 0)%N).
Proof.
  revert coeff exp. induction fuel as [| fuel IH]; intros coeff exp Hle Hf.
  - cbn [strip_to_ideal fst snd]. replace (exp - exp) with 0 by lia.
    change (pow10 0) with 1%N. split; [lia |]. split; [lia | left; lia].
  - cbn [strip_to_ideal].
    destruct (Z.ltb_spec exp ideal) as [Hlt | Hge]; cbn [andb].
    + destruct (N.eqb_spec (coeff mod 10) 0) as [Hz | Hnz].
      * destruct (IH (coeff / 10)%N (exp + 1) ltac:(lia) ltac:(lia)) as (H1 & H2 & H3).
        set (res := strip_to_ideal fuel (coeff / 10) (exp + 1) ideal) in *.
        split; [lia |]. split; [| exact H3].
        replace (snd res - exp) with ((snd res - (exp + 1)) + 1) by lia.
        rewrite pow10_succ by lia.
        pose proof (N.div_mod coeff 10 ltac:(lia)) as Hd. nia.
      * cbn [fst snd]. replace (exp - exp) with 0 by lia. change (pow10 0) with 1%N.
        split; [lia |]. split; [lia | right; exact Hnz].
    + cbn [fst snd]. replace (exp - exp) with 0 by lia. change (pow10 0) with 1%N.
      split; [lia |]. split; [lia | left; lia].
Qed.

Lemma pow10_20 : pow10 20 = 100000000000000000000%N.
Proof. reflexivity. Qed.

Lemma ndigits_small (n : N) : (1 <= n <= 31)%N -> 1 <= ndigits n <= 2.
Proof.
  intros H. split; [apply ndigits_pos |].
  apply ndigits_le; [lia |]. change (pow10 2) with 100%N. lia.
Qed.

(** The quotient that [truediv] hands to [_fix], for an amount in cents of
    at most 20 digits and a number of days. *)
Lemma truediv_spec (s : bool) (c1 : N) (n : Z) :
  c1 <> 0%N -> (c1 < pow10 20)%N -> 1 <= n <= 31 ->
  exists c e,
    truediv (Fin s c1 (-2)) (of_int n) = fix_ (Fin s c e) /\
    c <> 0%N /\ -32 <= e <= -2 /\ (c < pow10 (18 - e))%N /\
    (c * Z.to_N n <= c1 * pow10 (-2 - e) + Z.to_N n)%N /\
    (c1 * pow10 (-2 - e) <= c * Z.to_N n + Z.to_N n)%N /\
    (((c * Z.to_N n = c1 * pow10 (-2 - e))%N /\ (e = -2 \/ (c mod 10 <> 0)%N)) \/
     (28 < ndigits c /\ e < -2 /\ ((c1 * pow10 (-2 - e)) mod Z.to_N n <> 0)%N)).
Proof.
  intros Hc1 Hb Hn. unfold truediv, of_int. cbn [check_nans].
  replace (n <? 0) with false by (symmetry; apply Z.ltb_ge; lia).
  rewrite xorb_false_r. cbv zeta.
  replace (Z.abs_N n) with (Z.to_N n) by lia.
  set (m := Z.to_N n) in *. assert (Hm : (1 <= m <= 31)%N) by (unfold m; lia).
  destruct (N.eqb_spec m 0) as [E | _]; [lia |].
  destruct (N.eqb_spec c1 0) as [E | _]; [contradiction |].
  pose proof (ndigits_small m Hm) as HL2.
  pose proof (ndigits_pos c1) as HL1.
  assert (HL1' : ndigits c1 <= 20) by (apply ndigits_le; [lia | exact Hb]).
  unfold prec. replace (-2 - 0) with (-2) by lia.
  set (shift := ndigits m - ndigits c1 + 28 + 1) in *.
  assert (Hs : 10 <= shift <= 30) by (unfold shift; lia).
  replace (0 <=? shift) with true by (symmetry; apply Z.leb_le; lia).
  replace (-2 - (-2 - shift)) with shift by lia.
  set (D := pow10 shift) in *.
  pose proof (pow10_pos shift) as HD. fold D in HD.
  pose proof (N.div_mod (c1 * D) m ltac:(lia)) as Hdm.
  pose proof (N.mod_lt (c1 * D) m ltac:(lia)) as Hlt.
  set (coeff := (c1 * D / m)%N) in *. set (rem := ((c1 * D) mod m)%N) in *.
  assert (HD10 : (10 <= D)%N).
  { unfold D. change 10%N with (pow10 1). apply pow10_le. lia. }
  assert (Hbig : (pow10 28 <= coeff)%N).
  { unfold coeff. apply N.div_le_lower_bound; [lia |].
    pose proof (ndigits_ge c1 Hc1) as G1. pose proof (ndigits_lt m) as G2.
    assert (E : (pow10 (ndigits c1 - 1) * D = pow10 28 * pow10 (ndigits m))%N).
    { unfold D. rewrite <- !pow10_add by lia. f_equal. unfold shift. lia. }
    nia. }
  assert (Hup : (coeff + 1 < pow10 20 * D)%N) by (rewrite pow10_20 in *; nia).
  assert (ED : forall e, e = -2 - shift -> pow10 (-2 - e) = D).
  { intros e ->. unfold D. f_equal. lia. }
  assert (E18 : pow10 (18 - (-2 - shift)) = (pow10 20 * D)%N).
  { unfold D. rewrite <- pow10_add by lia. f_equal. lia. }
  destruct (N.eqb_spec rem 0) as [Hz | Hnz]; cbn [negb].
  - (* the division is exact *)
    pose proof (strip_to_ideal_spec (Z.to_nat shift) coeff (-2 - shift) (-2)
                  ltac:(lia) ltac:(lia)) as (S1 & S2 & S3).
    destruct (strip_to_ideal (Z.to_nat shift) coeff (-2 - shift) (-2)) as [c' e'].
    cbn [fst snd] in *.
    exists c', e'. split; [reflexivity |].
    assert (Esplit : D = (pow10 (e' - (-2 - shift)) * pow10 (-2 - e'))%N).
    { unfold D. rewrite <- pow10_add by lia. f_equal. lia. }
    pose proof (pow10_pos (e' - (-2 - shift))) as P1.
    pose proof (pow10_pos (-2 - e')) as P2.
    set (P := pow10 (e' - (-2 - shift))) in *. set (De := pow10 (-2 - e')) in *.
    assert (Hex : (c' * m = c1 * De)%N) by nia.
    assert (Hc' : c' <> 0%N) by (rewrite pow10_28 in Hbig; nia).
    split; [exact Hc' |]. split; [lia |].
    split.
    { replace (18 - e') with (20 + (-2 - e')) by lia. rewrite pow10_add by lia.
      fold De. rewrite pow10_20 in *. nia. }
    split; [lia |]. split; [lia |]. left. split; [exact Hex | exact S3].
  - (* the division is not exact *)
    set (cA := (if (coeff mod 5 =? 0)%N then (coeff + 1)%N else coeff)).
    assert (HcA : (coeff <= cA <= coeff + 1)%N) by (unfold cA; destruct (_ =? _)%N; lia).
    exists cA, (-2 - shift). split; [reflexivity |].
    rewrite (ED _ eq_refl), E18.
    split; [rewrite pow10_28 in Hbig; lia |]. split; [lia |].
    split; [lia |]. split; [nia |]. split; [nia |].
    right. split; [| split; [lia | exact Hnz]].
    apply ndigits_gt; [lia | lia].
Qed.
Lemma round_half_even_div_le (c n : N) : (round_half_even_div c n <= c / n + 1)%N.
Proof.
  unfold round_half_even_div.
  destruct (_ <? _)%N; [lia |]. destruct (_ <? _)%N; [lia |]. destruct (N.even _); lia.
Qed.

Lemma quantize_to (s : bool) (c m : N) (e : Z) :
  coeff_two_places ROUND_HALF_EVEN c e = m -> (m < pow10 28)%N ->
  quantize (Fin s c e) cent context_rounding = Ok (Fin s m (-2)).
Proof.
  intros <- H. apply quantize_two_places_fits. exact H.
Qed.

(** A tie of the quotient comes out of an exact division. *)
Lemma tie_is_exact (c1 n Y : N) :
  (0 < n)%N -> (2 * (c1 mod n) = n)%N -> ((c1 * (10 * Y)) mod n = 0)%N.
Proof.
  intros Hn Ht. pose proof (N.div_mod c1 n ltac:(lia)) as Hd.
  set (q0 := (c1 / n)%N) in *. set (r0 := (c1 mod n)%N) in *.
  replace (c1 * (10 * Y))%N with ((10 * q0 * Y + 5 * Y) * n)%N by nia.
  apply N.Div0.mod_mul.
Qed.

Lemma tie_is_short (c c1 n : N) (e : Z) :
  (0 < n)%N -> (2 * (c1 mod n) = n)%N -> e <= -2 ->
  (c * n = c1 * pow10 (-2 - e))%N -> (e = -2 \/ (c mod 10 <> 0)%N) ->
  (c <= 10 * c1 + 5)%N.
Proof.
  intros Hn Ht He Hex Hmax. pose proof (N.div_mod c1 n ltac:(lia)) as Hd.
  pose proof (N.mod_lt c1 n ltac:(lia)) as Hl.
  set (q0 := (c1 / n)%N) in *. set (r0 := (c1 mod n)%N) in *.
  destruct (Z.eq_dec e (-2)) as [-> | Hne].
  - change (pow10 (-2 - -2)) with 1%N in Hex. nia.
  - destruct Hmax as [E | Hmod]; [contradiction |].
    destruct (Z.eq_dec e (-3)) as [-> | Hne3].
    + change (pow10 (-2 - -3)) with 10%N in Hex. nia.
    + exfalso. apply Hmod.
      replace (-2 - e) with ((-4 - e) + 1 + 1) in Hex by lia.
      rewrite !pow10_succ in Hex by lia.
      set (X := pow10 (-4 - e)) in *.
      assert (Ec : c = ((5 * X * (2 * q0 + 1)) * 10)%N) by nia.
      rewrite Ec. apply N.Div0.mod_mul.
Qed.

(** From the quotient of [truediv] to the amount per day: [_fix], then
    [quantize]. *)
Lemma finish_per_day (s : bool) (c c1 n : N) (e : Z) :
  c <> 0%N -> -32 <= e <= -2 -> (c < pow10 (18 - e))%N ->
  (c1 < pow10 20)%N -> (1 <= n <= 31)%N ->
  (c * n <= c1 * pow10 (-2 - e) + n)%N ->
  (c1 * pow10 (-2 - e) <= c * n + n)%N ->
  (((c * n = c1 * pow10 (-2 - e))%N /\ (e = -2 \/ (c mod 10 <> 0)%N)) \/
   (28 < ndigits c /\ e < -2 /\ ((c1 * pow10 (-2 - e)) mod n <> 0)%N)) ->
  (q <- fix_ (Fin s c e) ;; quantize q cent context_rounding)
  = Ok (Fin s (round_half_even_div c1 n) (-2)).
Proof.
  intros Hc He Hlim Hc1 Hn Hup Hlo Hpath.
  assert (Hfit : (round_half_even_div c1 n < pow10 28)%N).
  { pose proof (round_half_even_div_le c1 n) as Hle.
    pose proof (N.Div0.div_le_upper_bound c1 n c1 ltac:(nia)) as Hdiv.
    rewrite pow10_20 in Hc1. rewrite pow10_28. lia. }
  destruct (Z.le_gt_cases (ndigits c) 28) as [Hshort | Hlong].
  - (* nothing to round in [_fix] *)
    rewrite (fix_unchanged s c e Hshort ltac:(lia)). cbn [bind].
    destruct Hpath as [[Hex _] | [Hl _]]; [| lia].
    apply quantize_to; [| exact Hfit].
    apply coeff_two_places_exact; [lia | lia | exact Hex].
  - assert (Hnd : ndigits c <= 18 - e) by (apply ndigits_le; [lia | exact Hlim]).
    assert (Htie : (2 * (c1 mod n) <> n)%N).
    { intros Ht. destruct Hpath as [[Hex Hmax] | (_ & He2 & Hrem)].
      - pose proof (tie_is_short c c1 n e ltac:(lia) Ht ltac:(lia) Hex Hmax) as Hs.
        assert (ndigits c <= 28); [| lia].
        apply ndigits_le; [lia |]. rewrite pow10_20 in Hc1. rewrite pow10_28. lia.
      - apply Hrem. replace (-2 - e) with ((-3 - e) + 1) by lia.
        rewrite pow10_succ by lia. apply tie_is_exact; [lia | exact Ht]. }
    destruct (fix_rounds s c e Hlong ltac:(lia) ltac:(lia)) as (c2 & e2 & Hfix & He2 & B1 & B2).
    rewrite Hfix. cbn [bind].
    apply quantize_to; [| exact Hfit].
    assert (Esplit : pow10 (-2 - e) = (pow10 (e2 - e) * pow10 (-2 - e2))%N).
    { rewrite <- pow10_add by lia. f_equal. lia. }
    assert (HD2 : (pow10 7 <= pow10 (-2 - e2))%N) by (apply pow10_le; lia).
    change (pow10 7) with 10000000%N in HD2.
    pose proof (pow10_pos (e2 - e)) as HP.
    set (P := pow10 (e2 - e)) in *. set (D2 := pow10 (-2 - e2)) in *.
    set (De := pow10 (-2 - e)) in *.
    apply coeff_two_places_near; [lia | lia | fold D2; lia | fold D2 | fold D2 | exact Htie].
    + assert (2 * c2 * n * P <= (2 * c1 * D2 + 3 * n) * P)%N by nia. nia.
    + assert ((2 * c1 * D2) * P <= (2 * c2 * n + 3 * n) * P)%N by nia. nia.
Qed.
Lemma per_day_of_rounded (r n : Z) :
  Z.abs r < 100000000000000000000 -> 1 <= n <= 31 ->
  per_day_of (amount_of_cents r) n = Ok (per_day_amount r n).
Proof.
  intros Hr Hn. unfold per_day_of, per_day_amount, amount_of_cents.
  replace (0 <? n) with true by (symmetry; apply Z.ltb_lt; lia).
  destruct (N.eq_dec (Z.abs_N r) 0) as [E0 | Hne].
  - assert (r = 0) by lia. subst r. cbn [Z.abs_N Z.ltb Z.compare].
    replace (round_half_even_div 0 (Z.to_N n)) with 0%N.
    + unfold truediv, of_int. cbn [check_nans].
      replace (Z.abs_N n =? 0)%N with false by (symmetry; apply N.eqb_neq; lia).
      cbn [N.eqb]. replace (n <? 0) with false by (symmetry; apply Z.ltb_ge; lia).
      cbn [xorb]. change (-2 - 0) with (-2).
      rewrite (fix_unchanged false 0 (-2)) by (cbn; lia). cbn [bind].
      reflexivity.
    + unfold round_half_even_div. rewrite N.Div0.div_0_l, N.Div0.mod_0_l.
      replace (2 * 0 <? Z.to_N n)%N with true by (symmetry; apply N.ltb_lt; lia).
      reflexivity.
  - assert (Hb : (Z.abs_N r < pow10 20)%N) by (rewrite pow10_20; lia).
    destruct (truediv_spec (r <? 0) (Z.abs_N r) n Hne Hb Hn)
      as (c & e & Htd & Hc & He & Hlim & Hup & Hlo & Hpath).
    rewrite Htd.
    apply finish_per_day; try assumption. lia.
Qed.

(** X22: the amount per day is the balance divided by the days left,
    rounded to the cent, half to even.  For a balance of less than 10^20
    cents in absolute value and 1 to 31 days, the division in 28 digits,
    the rounding of its context and the [quantize] that follows give
    together the one correct rounding of the exact quotient, with the sign
    of the balance (a small negative balance gives -0.00). *)
Theorem per_day_is_rounded_quotient (r n : Z) :
  Z.abs r < 100000000000000000000 -> 1 <= n <= 31 ->
  per_day_of (amount_of_cents r) n = Ok (per_day_amount r n).
Proof. exact (per_day_of_rounded r n). Qed.

Lemma per_day_is_rounded_quotient_witness :
  per_day_of (amount_of_cents 3700000) 17 = Ok (Fin false 217647 (-2)).
Proof.
  apply (per_day_is_rounded_quotient 3700000 17); lia.
Defined.

Lemma days_left_range (today : Cal.date) :
  Cal.valid today = true -> 1 <= days_left_of today <= 31.
Proof.
  intros Hv. destruct (valid_fields today Hv) as (_ & Hmo & Hd).
  pose proof (days_in_month_bounds (Cal.year today) (Cal.month today) Hmo) as Hb.
  unfold days_left_of. lia.
Qed.

(** X23: the whole summary, to the cent.  On a valid day outside
    December 9999, when the month can be summed exactly and the balance is
    below 10^20 cents, [remaining_and_per_day] and the form's
    [refresh_summary] return the exact balance, the days left in the month
    (1 to 31) and the balance divided by those days, rounded half to even;
    and the summary of the console shows these figures. *)
Theorem summary_is_exact (st : State) (today : Cal.date) :
  Cal.valid today = true ->
  ~ (Cal.year today = 9999 /\ Cal.month today = 12) ->
  month_readable st today ->
  Z.abs (cents_left st today) < 100000000000000000000 ->
  let figures := (amount_of_cents (cents_left st today),
                  per_day_amount (cents_left st today) (days_left_of today),
                  days_left_of today) in
  1 <= days_left_of today <= 31 /\
  remaining_and_per_day st today = Ok figures /\
  App.refresh_summary st today = Ok figures /\
  exists shown,
    show_dashboard st today = Ok shown /\
    nth 5 shown "" = fmt_money (amount_of_cents (cents_left st today)) /\
    nth 6 shown "" = str_int (days_left_of today) /\
    nth 7 shown ""
      = fmt_money (per_day_amount (cents_left st today) (days_left_of today)).
Proof.
  intros Hv Hne Hm Hb. cbv zeta.
  pose proof (days_left_range today Hv) as Hd.
  destruct (remaining_and_per_day_exact st today Hv Hne Hm) as [Hr Ha].
  pose proof (per_day_of_rounded _ _ Hb Hd) as Hp.
  split; [exact Hd |].
  assert (E : remaining_and_per_day st today
              = Ok (amount_of_cents (cents_left st today),
                    per_day_amount (cents_left st today) (days_left_of today),
                    days_left_of today)).
  { rewrite Hr, Hp. reflexivity. }
  split; [exact E |]. split; [rewrite Ha; exact E |].
  destruct (totals_exact st today Hv Hne Hm) as [Ht _].
  destruct (month_readable_bound st today Hm) as [Hbd _].
  unfold show_dashboard. rewrite Ht. cbn [bind].
  rewrite add_amounts by lia. cbn [bind].
  rewrite quantize_cents by lia. cbn [bind].
  rewrite E. cbn [bind]. eexists. split; [reflexivity |].
  cbn [nth]. repeat split.
Qed.

Lemma summary_is_exact_witness :
  remaining_and_per_day example_state example_today
  = Ok (amount_of_cents 3700000, Fin false 217647 (-2), 17).
Proof.
  apply (summary_is_exact example_state example_today eq_refl
           example_not_last_month example_month_readable).
  vm_compute. reflexivity.
Defined.

(** ** A row of this month *)

Lemma total_cents_app (a b : list string) :
  total_cents (a ++ b) = total_cents a + total_cents b.
Proof.
  induction a as [| t rest IH]; [reflexivity |].
  cbn [app]. rewrite !total_cents_cons. lia.
Qed.

Lemma cents_of_stored (s : bool) (c : N) :
  ndigits c <= 28 -> cents_of_text (to_str (Fin s c (-2))) = Some (cents (Fin s c (-2))).
Proof.
  intros Hn. unfold cents_of_text. now rewrite (d_to_str_two_places s c Hn).
Qed.

Lemma in_month_isoformat (today dt : Cal.date) :
  Cal.valid dt = true ->
  Cal.year dt = Cal.year today -> Cal.month dt = Cal.month today ->
  in_month today (Cal.isoformat dt) = true.
Proof.
  intros Hv Hy Hm. unfold in_month. rewrite (parse_date_iso_ok dt Hv).
  rewrite Hy, Hm, !Z.eqb_refl. reflexivity.
Qed.

Lemma texts_after_expense (st : State) (today dt : Cal.date) (amount : Decimal)
    (who note : string) :
  Cal.valid dt = true ->
  Cal.year dt = Cal.year today -> Cal.month dt = Cal.month today ->
  base_texts (add_expense st amount who dt note) today = base_texts st today /\
  extra_texts (add_expense st amount who dt note) today = extra_texts st today /\
  expense_texts (add_expense st amount who dt note) today
  = (expense_texts st today ++ [to_str amount])%list.
Proof.
  intros Hv Hy Hm. unfold base_texts, extra_texts, expense_texts, add_expense.
  cbn [monthly_incomes extra_incomes expenses].
  split; [reflexivity |]. split; [reflexivity |].
  rewrite filter_app, map_app. cbn [filter e_dt].
  rewrite (in_month_isoformat today dt Hv Hy Hm). reflexivity.
Qed.

Lemma texts_after_extra (st : State) (today dt : Cal.date) (amount : Decimal)
    (who note : string) :
  Cal.valid dt = true ->
  Cal.year dt = Cal.year today -> Cal.month dt = Cal.month today ->
  base_texts (add_extra_income st who amount dt note) today = base_texts st today /\
  extra_texts (add_extra_income st who amount dt note) today
  = (extra_texts st today ++ [to_str amount])%list /\
  expense_texts (add_extra_income st who amount dt note) today = expense_texts st today.
Proof.
  intros Hv Hy Hm. unfold base_texts, extra_texts, expense_texts, add_extra_income.
  cbn [monthly_incomes extra_incomes expenses].
  split; [reflexivity |]. split; [| reflexivity].
  rewrite filter_app, map_app. cbn [filter x_dt].
  rewrite (in_month_isoformat today dt Hv Hy Hm). reflexivity.
Qed.

Lemma total_single (s : bool) (c : N) :
  ndigits c <= 28 ->
  total_cents [to_str (Fin s c (-2))] = cents (Fin s c (-2)) /\
  total_abs [to_str (Fin s c (-2))] = Z.of_N c.
Proof.
  intros Hn. unfold total_cents, total_abs, text_cents. cbn [fold_right].
  rewrite (cents_of_stored s c Hn). unfold cents. destruct s; lia.
Qed.

Lemma row_of_this_month_readable
    (st : State) (today dt : Cal.date) (s : bool) (c : N) (who note : string) :
  Cal.valid dt = true ->
  Cal.year dt = Cal.year today -> Cal.month dt = Cal.month today ->
  ndigits c <= 28 ->
  month_readable st today ->
  total_abs (base_texts st today ++ extra_texts st today ++ expense_texts st today)
    + Z.of_N c < cent_limit ->
  month_readable (add_expense st (Fin s c (-2)) who dt note) today /\
  cents_left (add_expense st (Fin s c (-2)) who dt note) today
    = cents_left st today - cents (Fin s c (-2)) /\
  month_readable (add_extra_income st who (Fin s c (-2)) dt note) today /\
  cents_left (add_extra_income st who (Fin s c (-2)) dt note) today
    = cents_left st today + cents (Fin s c (-2)).
Proof.
  intros Hv Hy Hm Hn (Hx & He & Hall & Hb) Hlim. cbv zeta.
  destruct (texts_after_expense st today dt (Fin s c (-2)) who note Hv Hy Hm)
    as (E1 & E2 & E3).
  destruct (texts_after_extra st today dt (Fin s c (-2)) who note Hv Hy Hm)
    as (X1 & X2 & X3).
  destruct (total_single s c Hn) as [T1 T2].
  assert (Hnew : cents_of_text (to_str (Fin s c (-2))) <> None)
    by (rewrite (cents_of_stored s c Hn); discriminate).
  apply Forall_app in Hall. destruct Hall as [HB Hall].
  apply Forall_app in Hall. destruct Hall as [HX HE].
  rewrite !total_abs_app in *.
  split; [| split; [| split]].
  - unfold month_readable. rewrite E1, E2, E3.
    split; [exact Hx |]. split.
    + unfold add_expense. cbn [expenses]. apply Forall_app. split; [exact He |].
      constructor; [| constructor]. exists dt. exact (parse_date_iso_ok dt Hv).
    + split.
      * apply Forall_app. split; [exact HB |]. apply Forall_app. split; [exact HX |].
        apply Forall_app. split; [exact HE | constructor; [exact Hnew | constructor]].
      * rewrite !total_abs_app, T2. lia.
  - unfold cents_left. rewrite E1, E2, E3, total_cents_app, T1. lia.
  - unfold month_readable. rewrite X1, X2, X3.
    split.
    + unfold add_extra_income. cbn [extra_incomes]. apply Forall_app. split; [exact Hx |].
      constructor; [| constructor]. exists dt. exact (parse_date_iso_ok dt Hv).
    + split; [exact He |]. split.
      * apply Forall_app. split; [exact HB |]. apply Forall_app. split; [| exact HE].
        apply Forall_app. split; [exact HX | constructor; [exact Hnew | constructor]].
      * rewrite !total_abs_app, T2. lia.
  - unfold cents_left. rewrite X1, X2, X3, total_cents_app, T1. lia.
Qed.

(** X24: a row of this month counts once, and exactly.  On a valid day
    outside December 9999, for a ledger whose month can be summed exactly,
    adding an expense or an extra income dated in the month of the summary,
    with a two-place amount that keeps the sum below 10^28 cents, changes
    what the code returns by exactly that amount: [totals_for_month] gives
    the old totals with the amount added to the expenses (or to the extra
    incomes), and the balance of [remaining_and_per_day] goes down (or up)
    by the amount. *)
Theorem row_of_this_month_counts
    (st : State) (today dt : Cal.date) (s : bool) (c : N) (who note : string) :
  Cal.valid today = true ->
  ~ (Cal.year today = 9999 /\ Cal.month today = 12) ->
  Cal.valid dt = true ->
  Cal.year dt = Cal.year today -> Cal.month dt = Cal.month today ->
  ndigits c <= 28 ->
  month_readable st today ->
  total_abs (base_texts st today ++ extra_texts st today ++ expense_texts st today)
    + Z.of_N c < cent_limit ->
  let amount := Fin s c (-2) in
  let b := total_cents (base_texts st today) in
  let x := total_cents (extra_texts st today) in
  let e := total_cents (expense_texts st today) in
  let balance (z : Z) :=
    per_day <- per_day_of (amount_of_cents z) (days_left_of today) ;;
    Ok (amount_of_cents z, per_day, days_left_of today) in
  totals_for_month st today
    = Ok (amount_of_cents b, amount_of_cents x, amount_of_cents e) /\
  remaining_and_per_day st today = balance (b + x - e) /\
  totals_for_month (add_expense st amount who dt note) today
    = Ok (amount_of_cents b, amount_of_cents x, amount_of_cents (e + cents amount)) /\
  remaining_and_per_day (add_expense st amount who dt note) today
    = balance (b + x - e - cents amount) /\
  totals_for_month (add_extra_income st who amount dt note) today
    = Ok (amount_of_cents b, amount_of_cents (x + cents amount), amount_of_cents e) /\
  remaining_and_per_day (add_extra_income st who amount dt note) today
    = balance (b + x - e + cents amount).
Proof.
  intros Hv Hne Hdv Hy Hm Hn Hr Hlim. cbv zeta.
  destruct (row_of_this_month_readable st today dt s c who note Hdv Hy Hm Hn Hr Hlim)
    as (R1 & C1 & R2 & C2).
  destruct (texts_after_expense st today dt (Fin s c (-2)) who note Hdv Hy Hm)
    as (E1 & E2 & E3).
  destruct (texts_after_extra st today dt (Fin s c (-2)) who note Hdv Hy Hm)
    as (X1 & X2 & X3).
  destruct (total_single s c Hn) as [T1 _].
  split; [exact (proj1 (totals_exact st today Hv Hne Hr)) |].
  split; [exact (proj1 (remaining_and_per_day_exact st today Hv Hne Hr)) |].
  split.
  { rewrite (proj1 (totals_exact _ today Hv Hne R1)), E1, E2, E3, total_cents_app, T1.
    reflexivity. }
  split.
  { rewrite (proj1 (remaining_and_per_day_exact _ today Hv Hne R1)), C1. reflexivity. }
  split.
  { rewrite (proj1 (totals_exact _ today Hv Hne R2)), X1, X2, X3, total_cents_app, T1.
    reflexivity. }
  rewrite (proj1 (remaining_and_per_day_exact _ today Hv Hne R2)), C2. reflexivity.
Qed.

Lemma row_of_this_month_counts_witness :
  totals_for_month
    (add_expense example_state (Fin false 1250 (-2)) "Comida" (Cal.mkdate 2026 1 20) "")
    example_today
  = Ok (amount_of_cents 5000000, amount_of_cents 200000, amount_of_cents 1501250).
Proof.
  apply (row_of_this_month_counts example_state example_today (Cal.mkdate 2026 1 20)
           false 1250 "Comida" "" eq_refl example_not_last_month eq_refl eq_refl eq_refl).
  - vm_compute. discriminate.
  - exact example_month_readable.
  - vm_compute. reflexivity.
Defined.
